(** * Subdomain ownership and DNS record reconciliation (index.js)

    A shallow embedding of the [Subdomain] class of [src/index.js]: the
    tenant documents kept in the Firestore collection [domains], the managed
    DNS zone, and the methods that validate names and types and reconcile
    the two stores.

    Conventions of the model.
    - JavaScript strings are sequences of ASCII characters ([string]); the
      names, record types and record values this service handles are DNS
      data.  Case conversion acts on the letters A-Z / a-z only.
    - A JavaScript argument is a [value]: [undefined], [null], a boolean or
      a string.  Numbers, arrays and objects are not represented.
    - An [async] method is a state transformer that returns the state it
      leaves behind together with a value or the error it threw.  State
      written before a throw stays written, as no method rolls back.
    - Firestore and Cloud DNS are the two external stores.  They are
      modelled by what their client calls are documented to do; transport
      failures are not part of the model. *)

From Stdlib Require Import Ascii String NArith ZArith.
From stdpp Require Import base option list gmap fin_maps strings.

Local Open Scope string_scope.
Local Open Scope list_scope.

(** ** JavaScript strings *)

Module JS.

Definition code (c : ascii) : N := N_of_ascii c.

Definition is_upper (c : ascii) : bool := ((65 <=? code c) && (code c <=? 90))%N.
Definition is_lower (c : ascii) : bool := ((97 <=? code c) && (code c <=? 122))%N.
Definition is_digit (c : ascii) : bool := ((48 <=? code c) && (code c <=? 57))%N.

Definition lower_char (c : ascii) : ascii :=
  if is_upper c then ascii_of_N (code c + 32) else c.

Definition upper_char (c : ascii) : ascii :=
  if is_lower c then ascii_of_N (code c - 32) else c.

Fixpoint map_chars (f : ascii -> ascii) (s : string) : string :=
  match s with
  | EmptyString => EmptyString
  | String c s' => String (f c) (map_chars f s')
  end.

(** [String.prototype.toLowerCase] and [toUpperCase]. *)
Definition toLowerCase (s : string) : string := map_chars lower_char s.
Definition toUpperCase (s : string) : string := map_chars upper_char s.

(** The line feed, ['\n']. *)
Definition LF : ascii := "010"%char.
Definition NL : string := String LF EmptyString.

(** Every character of [s] satisfies [P]. *)
Fixpoint every (P : ascii -> bool) (s : string) : bool :=
  match s with
  | EmptyString => true
  | String c s' => P c && every P s'
  end.

(** [s.includes(c)] for a one-character needle. *)
Fixpoint includes_char (c : ascii) (s : string) : bool :=
  match s with
  | EmptyString => false
  | String d s' => Ascii.eqb d c || includes_char c s'
  end.

(** [s.split(c)] for a one-character separator: never the empty array. *)
Fixpoint split (sep : ascii) (s : string) : list string :=
  match s with
  | EmptyString => [EmptyString]
  | String c s' =>
      if Ascii.eqb c sep then EmptyString :: split sep s'
      else match split sep s' with
           | h :: t => String c h :: t
           | [] => [String c EmptyString]
           end
  end.

(** [Array.prototype.pop]: the last element, [undefined] on the empty array. *)
Definition pop {A} (l : list A) : option A := last l.

(** [Array.prototype.join]. *)
Fixpoint join (sep : string) (l : list string) : string :=
  match l with
  | [] => EmptyString
  | [x] => x
  | x :: rest => x +:+ sep +:+ join sep rest
  end.

(** White space of [String.prototype.trim] in the ASCII range:
    TAB, LF, VT, FF, CR and SPACE. *)
Definition is_space (c : ascii) : bool :=
  ((9 <=? code c) && (code c <=? 13) || (code c =? 32))%N.

Fixpoint trimStart (s : string) : string :=
  match s with
  | EmptyString => EmptyString
  | String c s' => if is_space c then trimStart s' else s
  end.

Fixpoint trimEnd (s : string) : string :=
  match s with
  | EmptyString => EmptyString
  | String c s' =>
      match trimEnd s' with
      | EmptyString => if is_space c then EmptyString else String c EmptyString
      | t => String c t
      end
  end.

Definition trim (s : string) : string := trimEnd (trimStart s).

(** [s.endsWith(suffix)]: some tail of [s] is [suffix]. *)
Fixpoint endsWith (s suffix : string) : bool :=
  String.eqb s suffix ||
  match s with
  | EmptyString => false
  | String _ s' => endsWith s' suffix
  end.

Fixpoint take (n : nat) (s : string) : string :=
  match n, s with
  | S n', String c s' => String c (take n' s')
  | _, _ => EmptyString
  end.

(** [s.slice(0, e)]: a negative [e] counts from the end of [s]. *)
Definition slice0 (s : string) (e : Z) : string :=
  let len := Z.of_nat (String.length s) in
  let stop := if (e <? 0)%Z then Z.max (len + e) 0 else Z.min e len in
  take (Z.to_nat stop) s.

(** [a.includes(x)] on an array of strings. *)
Definition includes (x : string) (l : list string) : bool :=
  existsb (String.eqb x) l.

(** *** Values that reach the methods as arguments *)

Inductive value : Type :=
  | Undefined
  | Null
  | Bool (b : bool)
  | Str (s : string).

(** Truthiness, as tested by [||] and [if]. *)
Definition truthy (v : value) : bool :=
  match v with
  | Undefined | Null => false
  | Bool b => b
  | Str s => negb (String.eqb s EmptyString)
  end.

(** [v || ''] *)
Definition or_empty (v : value) : value :=
  if truthy v then v else Str EmptyString.

(** [String(v)], also the coercion done by [v + ''] and [v + '.']. *)
Definition ToString (v : value) : string :=
  match v with
  | Undefined => "undefined"
  | Null => "null"
  | Bool true => "true"
  | Bool false => "false"
  | Str s => s
  end.


(** [s.startsWith(p)] *)
Fixpoint startsWith (s p : string) {struct p} : bool :=
  match p, s with
  | EmptyString, _ => true
  | String a p', String b s' => Ascii.eqb a b && startsWith s' p'
  | String _ _, EmptyString => false
  end.

(** [s.split(sep)] for a separator of one or more characters: the pieces
    between the successive occurrences of [sep], found from the left.
    [skip] counts the characters of an occurrence still to be passed. *)
Fixpoint split_by_from (sep : string) (skip : nat) (s : string) : list string :=
  match s with
  | EmptyString => [EmptyString]
  | String c s' =>
      match skip with
      | S k => split_by_from sep k s'
      | O =>
          if startsWith s sep
          then EmptyString :: split_by_from sep (String.length sep - 1) s'
          else match split_by_from sep O s' with
               | h :: t => String c h :: t
               | [] => [String c EmptyString]
               end
      end
  end.

Definition split_by (sep : string) (s : string) : list string :=
  split_by_from sep 0 s.

End JS.

(** ** Errors and the state-and-error monad *)

(** The errors the methods throw, named as the specification names them
    where it does; the constructor's comment gives the thrown object. *)
Inductive error : Type :=
  | TenantNotFound      (* Error('No such subdomain') *)
  | OwnershipMismatch   (* Error('Subdomain mismatch') *)
  | InvalidType         (* Error('Invalid type') *)
  | InvalidName         (* Error('Invalid name') *)
  | AlreadyExists       (* Error('Domain already exists') *)
  | InvalidArgument     (* TypeError('Not a top-level subdomain') *)
  | NotAFunction        (* TypeError: x.toLowerCase is not a function *)
  | StoreNotFound.      (* Firestore: update of a document that does not exist *)

Inductive result (A : Type) : Type :=
  | Ok (a : A)
  | Throw (e : error).
Arguments Ok {A} a.
Arguments Throw {A} e.

Definition is_ok {A} (r : result A) : bool :=
  match r with Ok _ => true | Throw _ => false end.

(** A computation over a state [S]: the outcome and the state left behind. *)
Definition M (S A : Type) : Type := S -> result A * S.

Definition ret {S A} (a : A) : M S A := fun s => (Ok a, s).
Definition throw {S A} (e : error) : M S A := fun s => (Throw e, s).
Definition bind {S A B} (m : M S A) (k : A -> M S B) : M S B :=
  fun s => match m s with
           | (Ok a, s') => k a s'
           | (Throw e, s') => (Throw e, s')
           end.
Definition get {S} : M S S := fun s => (Ok s, s).
Definition put {S} (s : S) : M S unit := fun _ => (Ok tt, s).
Definition lift_result {S A} (r : result A) : M S A := fun s => (r, s).

Notation "'do' x <- m ; k" := (bind m (fun x => k))
  (at level 10, x name, m at level 100, k at level 200).
Notation "'run' m ; k" := (bind m (fun _ => k))
  (at level 10, m at level 100, k at level 200).

(** [v.toLowerCase()]: only a string has the method. *)
Definition call_toLowerCase (v : JS.value) : result string :=
  match v with
  | JS.Str s => Ok (JS.toLowerCase s)
  | _ => Throw NotAFunction
  end.

(** ** Definitions (index.js, lines 18-25) *)

Definition DOMAIN : string := "u-tokyo.app.".
Definition TYPE_WHITELIST : list string :=
  ["a"; "cname"; "aaaa"; "caa"; "txt"; "mx"; "ns"; "spf"; "srv"; "sshfp"].
Definition DEFAULT_TTL : N := 300.

(** [Subdomain.validateType] *)
Definition validateType (aType : JS.value) : result string :=
  let type := JS.toLowerCase (JS.ToString (JS.or_empty aType) +:+ EmptyString) in
  if negb (JS.includes type TYPE_WHITELIST) then Throw InvalidType
  else Ok type.

(** ** The base-label pattern

    [createSubdomain] tests the name against the regular expression
    [/^[a-z0-9]+(-[a-z0-9]+)*$/].  The expression is kept as syntax and run
    by derivatives; both anchors are present and the [m] flag is not, so
    [name.match] succeeds exactly when the whole string is in the language. *)

Module Regex.

Inductive regex : Type :=
  | Void
  | Eps
  | Class (p : ascii -> bool)
  | Seq (r1 r2 : regex)
  | Alt (r1 r2 : regex)
  | Star (r : regex).

Definition Plus (r : regex) : regex := Seq r (Star r).
Definition Chr (c : ascii) : regex := Class (Ascii.eqb c).

Fixpoint nullable (r : regex) : bool :=
  match r with
  | Void => false
  | Eps => true
  | Class _ => false
  | Seq r1 r2 => nullable r1 && nullable r2
  | Alt r1 r2 => nullable r1 || nullable r2
  | Star _ => true
  end.

Fixpoint deriv (c : ascii) (r : regex) : regex :=
  match r with
  | Void => Void
  | Eps => Void
  | Class p => if p c then Eps else Void
  | Seq r1 r2 =>
      Alt (Seq (deriv c r1) r2) (if nullable r1 then deriv c r2 else Void)
  | Alt r1 r2 => Alt (deriv c r1) (deriv c r2)
  | Star r1 => Seq (deriv c r1) (Star r1)
  end.

Fixpoint matches (r : regex) (s : string) : bool :=
  match s with
  | EmptyString => nullable r
  | String c s' => matches (deriv c r) s'
  end.

(** [[a-z0-9]] *)
Definition alnum (c : ascii) : bool := JS.is_lower c || JS.is_digit c.

(** [^[a-z0-9]+(-[a-z0-9]+)*$] *)
Definition LABEL : regex :=
  Seq (Plus (Class alnum)) (Star (Seq (Chr "-") (Plus (Class alnum)))).

(** A regular expression whose language is empty for a syntactic reason. *)
Fixpoint dead (r : regex) : bool :=
  match r with
  | Void => true
  | Eps | Class _ | Star _ => false
  | Seq r1 r2 => dead r1 || dead r2
  | Alt r1 r2 => dead r1 && dead r2
  end.

(** Every class of [r] only lets characters of [P] through. *)
Fixpoint within (P : ascii -> bool) (r : regex) : Prop :=
  match r with
  | Void | Eps => True
  | Class p => forall c, p c = true -> P c = true
  | Seq r1 r2 | Alt r1 r2 => within P r1 /\ within P r2
  | Star r1 => within P r1
  end.

End Regex.

(** What the classes of the label pattern let through. *)
Definition label_char (c : ascii) : bool := Regex.alnum c || Ascii.eqb "-" c.

(** ** The two stores *)

(** A tenant document of the collection [domains]. *)
Record Doc : Type := mkDoc {
  created_by : JS.value;
  created_date : N;
  subdomains : list string;
}.

(** A resource record set, as the zone returns it and as [zone.record]
    builds it. *)
Record Record_ : Type := mkRecord {
  rname : string;
  rdata : list string;
  rtype : string;
  rttl : N;
}.

(** The argument of [zone.createChange]. *)
Record Change : Type := mkChange {
  add : list Record_;
  delete : list Record_;
}.

(** The collection [domains], the record sets of the zone and the changes
    the zone has been asked to make, oldest first. *)
Record World : Type := mkWorld {
  domains : gmap string Doc;
  rrsets : list Record_;
  changes : list Change;
}.

(** An instance of the class: the document id behind [_docRef] and the
    cached list [_subdomains], absent until first read. *)
Record Subdomain : Type := mkSubdomain {
  _docRef : string;
  _subdomains : option (list string);
}.

#[global] Instance value_eq_dec : EqDecision JS.value.
Proof. solve_decision. Defined.
#[global] Instance Doc_eq_dec : EqDecision Doc.
Proof. solve_decision. Defined.
#[global] Instance Record_eq_dec : EqDecision Record_.
Proof. solve_decision. Defined.

(** *** Firestore *)

Module Firestore.

(** [docRef.get()]: the snapshot, [None] when [doc.exists] is false. *)
Definition doc_get (id : string) : M World (option Doc) :=
  fun w => (Ok (domains w !! id), w).

(** [domainsRef.doc(id).set(d)]: creates or overwrites. *)
Definition doc_set (id : string) (d : Doc) : M World unit :=
  fun w => (Ok tt, mkWorld (<[id := d]> (domains w)) (rrsets w) (changes w)).

(** [FieldValue.arrayUnion(x)]: appends [x] unless it is already there. *)
Definition arrayUnion (x : string) (l : list string) : list string :=
  if JS.includes x l then l else l ++ [x].

(** [FieldValue.arrayRemove(x)]: removes every occurrence of [x]. *)
Definition arrayRemove (x : string) (l : list string) : list string :=
  List.filter (fun y => negb (String.eqb y x)) l.

(** [docRef.update({subdomains: f})]: fails on a missing document. *)
Definition doc_update (id : string) (f : list string -> list string)
  : M World unit :=
  fun w =>
    match domains w !! id with
    | Some d =>
        let d' := mkDoc (created_by d) (created_date d) (f (subdomains d)) in
        (Ok tt, mkWorld (<[id := d']> (domains w)) (rrsets w) (changes w))
    | None => (Throw StoreNotFound, w)
    end.

(** [domainsRef.where('subdomains', 'array-contains', x).get()] *)
Definition where_array_contains (x : string) : M World (gmap string Doc) :=
  fun w =>
    (Ok (filter (fun kv : string * Doc => x ∈ subdomains kv.2) (domains w)), w).

(** [snapshot.empty] *)
Definition empty (snapshot : gmap string Doc) : bool :=
  bool_decide (snapshot = ∅).

End Firestore.

(** *** Cloud DNS *)

Module Zone.

(** [zone.record(type, {name, data, ttl})] *)
Definition record (type : string) (name : string) (data : list string)
  (ttl : N) : Record_ :=
  mkRecord name data type ttl.

(** [record.toJSON()]: what is sent to the provider carries the type in
    upper case. *)
Definition toJSON (r : Record_) : Record_ :=
  mkRecord (rname r) (rdata r) (JS.toUpperCase (rtype r)) (rttl r).

(** [zone.getRecords({name, type})]: the record sets with that fully
    qualified name and, when a type is given, that type. *)
Definition getRecords (name : string) (type : option string)
  : M World (list Record_) :=
  fun w =>
    (Ok (List.filter
           (fun r => String.eqb (rname r) name &&
                     match type with
                     | Some t => String.eqb (rtype r) t
                     | None => true
                     end)
           (rrsets w)), w).

(** [zone.createChange({add, delete})]: one change that drops the deleted
    record sets and then holds the added ones. *)
Definition createChange (c : Change) : M World unit :=
  fun w =>
    let additions := map toJSON (add c) in
    let deletions := map toJSON (delete c) in
    let kept :=
      List.filter (fun r => negb (bool_decide (r ∈ deletions))) (rrsets w) in
    (Ok tt, mkWorld (domains w) (kept ++ additions)
                    (changes w ++ [mkChange additions deletions])).

(** [zone.deleteRecords(records)]: a change with deletions only. *)
Definition deleteRecords (records : list Record_) : M World unit :=
  createChange (mkChange [] records).

End Zone.

(** ** class Subdomain *)

(** The state an instance method runs in: the instance and the stores. *)
Definition St : Type := Subdomain * World.

(** A store call made from a method. *)
Definition io {A} (m : M World A) : M St A :=
  fun '(this, w) => let '(r, w') := m w in (r, (this, w')).

Definition this_ : M St Subdomain := fun '(this, w) => (Ok this, (this, w)).

(** [this._subdomains = l] *)
Definition set_subdomains (l : list string) : M St unit :=
  fun '(this, w) => (Ok tt, (mkSubdomain (_docRef this) (Some l), w)).

(** [delete this._subdomains] *)
Definition delete_subdomains : M St unit :=
  fun '(this, w) => (Ok tt, (mkSubdomain (_docRef this) None, w)).

(** A call to an [async] method whose promise is dropped, neither awaited
    nor caught: its writes happen, its outcome is never seen. *)
Definition unawaited {S A} (m : M S A) : M S unit :=
  fun s => let '(_, s') := m s in (Ok tt, s').

(** [a.includes(x)] where [x] may be [undefined]. *)
Definition includes_opt (x : option string) (l : list string) : bool :=
  match x with
  | Some b => JS.includes b l
  | None => false
  end.

(** [s != x] where [x] may be [undefined]. *)
Definition neq_opt (s : string) (x : option string) : bool :=
  match x with
  | Some b => negb (String.eqb s b)
  | None => true
  end.

Definition getAllSubdomains : M St (list string) :=
  do this <- this_;
  match _subdomains this with
  | Some cached => ret cached
  | None =>
      do doc <- io (Firestore.doc_get (_docRef this));
      match doc with
      | None => throw TenantNotFound
      | Some d =>
          run set_subdomains (subdomains d);
          ret (subdomains d)
      end
  end.

Definition getBaseSubdomains : M St (list string) :=
  do subdomains <- getAllSubdomains;
  ret (List.filter (fun subdomain => negb (JS.includes_char "." subdomain))
         subdomains).

Definition assertSubdomain (aSubdomain : JS.value) : M St string :=
  do subdomain <- lift_result (call_toLowerCase (JS.or_empty aSubdomain));
  let baseSubdomain := JS.pop (JS.split "." subdomain) in
  do subdomains <- getAllSubdomains;
  if negb (includes_opt baseSubdomain subdomains) then throw OwnershipMismatch
  else ret subdomain.

Definition addSubdomain (aSubdomain : JS.value) : M St unit :=
  do subdomain <- assertSubdomain aSubdomain;
  do subdomains <- getAllSubdomains;
  if negb (JS.includes subdomain subdomains) then
    do this <- this_;
    run io (Firestore.doc_update (_docRef this) (Firestore.arrayUnion subdomain));
    delete_subdomains
  else ret tt.

Definition removeSubdomain (subdomain : JS.value) : M St unit :=
  do subdomain <- lift_result (call_toLowerCase (JS.or_empty subdomain));
  let baseSubdomain := JS.pop (JS.split "." subdomain) in
  if neq_opt subdomain baseSubdomain then
    do this <- this_;
    run io (Firestore.doc_update (_docRef this) (Firestore.arrayRemove subdomain));
    delete_subdomains
  else ret tt.

Definition createRecord (aType aName aValue : JS.value) : result Record_ :=
  let value := JS.ToString (JS.or_empty aValue) +:+ EmptyString in
  match validateType aType with
  | Throw e => Throw e
  | Ok type =>
      let name := JS.toLowerCase (JS.ToString (JS.or_empty aName) +:+ EmptyString) in
      let quarifiedName := name +:+ "." +:+ DOMAIN in
      Ok (Zone.record type quarifiedName
            (List.filter (fun value => negb (String.eqb EmptyString value))
               (map JS.trim (JS.split JS.LF value)))
            DEFAULT_TTL)
  end.

Definition getRecords (subdomain : string) : M St (list Record_) :=
  io (Zone.getRecords (subdomain +:+ "." +:+ DOMAIN) None).

Definition getRecordsByType (aType aName : JS.value) : M St (list Record_) :=
  do type <- lift_result (validateType aType);
  io (Zone.getRecords (JS.ToString aName +:+ "." +:+ DOMAIN)
        (Some (JS.toUpperCase type))).

(** The shape of a record in the read API. *)
Record Formatted : Type := mkFormatted {
  name : string;
  data : string;
  type : string;
}.

(** The body of the loop of [getRecordsByTypeFormatted] and of
    [getAllRecords]. *)
Definition formatRecord (r : Record_) : Formatted :=
  let suffix := "." +:+ DOMAIN in
  let plainName :=
    if JS.endsWith (rname r) suffix
    then JS.slice0 (rname r) (- Z.of_nat (String.length suffix))
    else rname r in
  mkFormatted (JS.toLowerCase plainName) (JS.join JS.NL (rdata r)) (JS.toUpperCase (rtype r)).

Definition getRecordsByTypeFormatted (aType aName : JS.value)
  : M St (list Formatted) :=
  do records <- getRecordsByType aType aName;
  ret (map formatRecord records).

Fixpoint getAllRecords_loop (subdomains : list string) : M St (list Formatted) :=
  match subdomains with
  | [] => ret []
  | subdomain :: rest =>
      do records <- getRecords subdomain;
      do results <- getAllRecords_loop rest;
      ret ((map formatRecord records ++ results)%list)
  end.

Definition getAllRecords : M St (list Formatted) :=
  do subdomains <- getAllSubdomains;
  getAllRecords_loop subdomains.

Definition updateRecord (aType aName aNewValue : JS.value) : M St unit :=
  run addSubdomain aName;
  do oldRecords <- getRecordsByType aType aName;
  do newRecord <- lift_result (createRecord aType aName aNewValue);
  io (Zone.createChange (mkChange [newRecord] oldRecords)).

Definition deleteRecord (aType aName : JS.value) : M St unit :=
  do subdomain <- assertSubdomain aName;
  do oldRecords <- getRecordsByType aType aName;
  run io (Zone.deleteRecords oldRecords);
  if (length (JS.split "." subdomain) <? 2)%nat then ret tt
  else
    do leftRecords <- getRecords subdomain;
    if (length leftRecords <? 1)%nat then
      unawaited (removeSubdomain (JS.Str subdomain))
    else ret tt.

(** *** Static methods *)

Definition domainExists (aName : JS.value) : M World bool :=
  let name := JS.toLowerCase (JS.ToString aName) in
  if JS.includes_char "." name then throw InvalidArgument
  else
    do domainsSnapshot <- Firestore.where_array_contains name;
    ret (negb (Firestore.empty domainsSnapshot)).

(** [id] is the identifier drawn by [uuidv4()] and [now] the value the
    server gives [FieldValue.serverTimestamp()]. *)
Definition createSubdomain (aName aOwner : JS.value) (id : string) (now : N)
  : M World string :=
  let name := JS.toLowerCase (JS.ToString aName) in
  if negb (Regex.matches Regex.LABEL name) then throw InvalidName
  else
    do exists_ <- domainExists (JS.Str name);
    if exists_ then throw AlreadyExists
    else
      run Firestore.doc_set id (mkDoc aOwner now [name]);
      ret id.

(** ** Tracked sets: the predicates the properties speak of *)

(** The cached list of an instance, when there is one, is the list its
    document holds.  True of every fresh instance ([new Subdomain(id)]). *)
Definition coherent (s : St) : Prop :=
  match _subdomains s.1 with
  | None => True
  | Some l => exists d, domains s.2 !! _docRef s.1 = Some d /\ subdomains d = l
  end.

(** Every tracked name is a bare label, or its trailing dot-segment is
    tracked too (a trailing segment never holds a dot). *)
Definition tracked_ok (l : list string) : bool :=
  forallb (fun x => negb (JS.includes_char "." x) ||
                    includes_opt (JS.pop (JS.split "." x)) l) l.

Definition tenants_ok (w : World) : Prop :=
  map_Forall (fun _ d => tracked_ok (subdomains d) = true) (domains w).

(** No bare label is tracked by two tenant documents. *)
Definition bases_unique (w : World) : Prop :=
  forall id1 id2 d1 d2 x,
    domains w !! id1 = Some d1 -> domains w !! id2 = Some d2 ->
    JS.includes_char "." x = false ->
    x ∈ subdomains d1 -> x ∈ subdomains d2 -> id1 = id2.

(** The record sets a query by name and type selects. *)
Definition selects (fqdn : string) (ty : string) (r : Record_) : bool :=
  String.eqb (rname r) fqdn && String.eqb (rtype r) ty.

(** ** Lines of a record value *)

(** The data [createRecord] keeps of a value. *)
Definition lines (value : string) : list string :=
  List.filter (fun value => negb (String.eqb EmptyString value))
    (map JS.trim (JS.split JS.LF value)).

(** A line as [lines] leaves it: not empty, on one line, trimmed. *)
Definition is_line (x : string) : Prop :=
  x <> EmptyString /\ JS.includes_char JS.LF x = false /\ JS.trim x = x.

(** ** Sample states

    A tenant that owns ["base"], with an empty zone, and the same tenant
    with a leaf and one record set under it. *)

Definition demo_doc : Doc := mkDoc (JS.Str "0123456789") 0 ["base"].
Definition demo_world : World :=
  mkWorld {[ "tenant-1" := demo_doc ]} [] [].
Definition demo_this : Subdomain := mkSubdomain "tenant-1" None.

Definition demo_leaf_doc : Doc := mkDoc (JS.Str "0123456789") 0 ["base"; "www.base"].
Definition demo_leaf_world : World :=
  mkWorld {[ "tenant-1" := demo_leaf_doc ]}
    [mkRecord "www.base.u-tokyo.app." ["1.2.3.4"] "A" 300] [].

(** ** Further predicates on instances and tracked lists *)

(** The list an instance works with: its cached list if it has one, else
    the list its document holds, if the document exists. *)
Definition view (s : St) : option (list string) :=
  match _subdomains s.1 with
  | Some l => Some l
  | None => subdomains <$> domains s.2 !! _docRef s.1
  end.

(** The test of [assertSubdomain] on a lower-cased name. *)
Definition owns (l : list string) (aSubdomain : string) : bool :=
  includes_opt (JS.pop (JS.split "." (JS.toLowerCase aSubdomain))) l.

(** The bare labels of a tracked list, as [getBaseSubdomains] selects them. *)
Definition bare (l : list string) : list string :=
  List.filter (fun subdomain => negb (JS.includes_char "." subdomain)) l.

(** No name twice, every name in lower case, at least one bare label. *)
Definition clean (l : list string) : Prop :=
  NoDup l /\
  Forall (fun x => JS.toLowerCase x = x) l /\
  exists x, x ∈ l /\ JS.includes_char "." x = false.

Definition store_ok (w : World) : Prop :=
  tenants_ok w /\ bases_unique w /\
  map_Forall (fun _ d => clean (subdomains d)) (domains w).

(** The fully qualified form of a relative name. *)
Definition qualified (n : string) : string := n +:+ "." +:+ DOMAIN.

(** Two states of the store with the same tenants and, for each tenant,
    the same bare labels in the same order. *)
Definition same_bases (w w' : World) : Prop :=
  forall id,
    (fun d => bare (subdomains d)) <$> domains w' !! id =
    (fun d => bare (subdomains d)) <$> domains w !! id.

(** The tenant of [demo_leaf_world] in a zone that also holds a record set
    of a name it does not own. *)
Definition demo_foreign_record : Record_ :=
  mkRecord "www.other.u-tokyo.app." ["9.9.9.9"] "A" 300.
Definition demo_shared_world : World :=
  mkWorld {[ "tenant-1" := demo_leaf_doc ]}
    [mkRecord "www.base.u-tokyo.app." ["1.2.3.4"] "A" 300; demo_foreign_record] [].

(** ** The language of a regular expression

    What it means for a whole string to match, stated without the matcher;
    used to say which names the two patterns of the program accept. *)

Module Language.
Import Regex.

Definition concat_strings (l : list string) : string :=
  fold_right String.append EmptyString l.

Fixpoint lang (r : regex) (s : string) : Prop :=
  match r with
  | Void => False
  | Eps => s = EmptyString
  | Class p => exists c, s = String c EmptyString /\ p c = true
  | Seq r1 r2 => exists s1 s2, s = s1 +:+ s2 /\ lang r1 s1 /\ lang r2 s2
  | Alt r1 r2 => lang r1 s \/ lang r2 s
  | Star r1 =>
      exists l, s = concat_strings l /\
                Forall (fun x => x <> EmptyString /\ lang r1 x) l
  end.

(** [r{n}] and a literal text. *)
Fixpoint Repeat (n : nat) (r : regex) : regex :=
  match n with
  | O => Eps
  | S n' => Seq r (Repeat n' r)
  end.

Fixpoint Lit (s : string) : regex :=
  match s with
  | EmptyString => Eps
  | String c s' => Seq (Chr c) (Lit s')
  end.

(** [-w1-w2...-wn] *)
Definition hyphenated (ws : list string) : string :=
  concat_strings (map (fun w => String "-" w) ws).

End Language.

(** A non-empty run of lower-case letters and digits, [[a-z0-9]+]. *)
Definition is_word (x : string) : bool :=
  negb (String.eqb x EmptyString) && JS.every Regex.alnum x.

(** ** The account pattern of the sign-in (index.js, lines 18-19, 360-373) *)

Definition ECCS_HOSTED_DOMAIN : string := "g.ecc.u-tokyo.ac.jp".

(** [/^([0-9]{10})@g\.ecc\.u-tokyo\.ac\.jp$/] *)
Definition ECCS_ID_PATTERN : Regex.regex :=
  Regex.Seq (Language.Repeat 10 (Regex.Class JS.is_digit))
    (Language.Lit "@g.ecc.u-tokyo.ac.jp").

(** [value.match(ECCS_ID_PATTERN)], reduced to what the caller reads of it:
    [None] for [null], otherwise the text of group 1.  The group is the ten
    characters the pattern starts with. *)
Definition match_ECCS_ID (value : string) : option string :=
  if Regex.matches ECCS_ID_PATTERN value then Some (JS.take 10 value) else None.

(** The loop of the [/auth] handler over [person.emailAddresses]; each
    element is given by its [value] field. *)
Fixpoint utokyoIds (emailAddresses : list JS.value) : list string :=
  match emailAddresses with
  | [] => []
  | JS.Str value :: rest =>
      match match_ECCS_ID value with
      | Some id => id :: utokyoIds rest
      | None => utokyoIds rest
      end
  | _ :: rest => utokyoIds rest
  end.

(** An address of a university account: ten digits before the hosted
    domain. *)
Definition account_address (v : JS.value) (id : string) : Prop :=
  v = JS.Str (id +:+ "@" +:+ ECCS_HOSTED_DOMAIN) /\
  String.length id = 10%nat /\ JS.every JS.is_digit id = true.

(** The errors thrown outside the class [Subdomain]. *)
Inductive failure : Type :=
  | Core (e : error)      (* an error of the class, passed on *)
  | NoSuchUser            (* Error('No such user') *)
  | NoCodeProvided        (* Error('No code provided') *)
  | NoAccountId           (* Error('No UTokyo account ID available for account') *)
  | NoTokenProvided       (* Error('No token provided') *)
  | NameNotProvided       (* Error('Domain name not provided') *)
  | InvalidToken.         (* what jwt.verify throws *)

Inductive reply (A : Type) : Type :=
  | Done (a : A)
  | Failed (f : failure).
Arguments Done {A} a.
Arguments Failed {A} f.

(** [utokyoIds[0]], after the check that there is one. *)
Definition utokyo_id (emailAddresses : list JS.value) : reply string :=
  match utokyoIds emailAddresses with
  | [] => Failed NoAccountId
  | id :: _ => Done id
  end.

(** ** parseCookies (index.js, lines 313-323) *)

(** The object built by [Object.create(null)] is a map from keys to values;
    a cookie without ['='] is stored with the value [undefined]. *)
Definition parseCookies (header : JS.value) : gmap string JS.value :=
  if negb (JS.truthy header) then ∅
  else
    fold_left
      (fun cookies rawCookie =>
         match JS.split "=" rawCookie with
         | key :: value :: _ => <[key := JS.Str value]> cookies
         | [key] => <[key := JS.Undefined]> cookies
         | [] => <["undefined" := JS.Undefined]> cookies
         end)
      (JS.split_by "; " (JS.ToString header)) ∅.

(** [cookies.key || ''], as the handler of ['/'] reads its two cookies. *)
Definition cookie_or_empty (cookies : gmap string JS.value) (key : string)
  : JS.value :=
  JS.or_empty (default JS.Undefined (cookies !! key)).

(** The [Cookie] header a client sends for a list of cookies. *)
Definition cookie_header (cookies : list (string * string)) : string :=
  JS.join "; " (map (fun kv => kv.1 +:+ "=" +:+ kv.2) cookies).

(** Text that can stand in a cookie: no ['='] and no [';']. *)
Definition cookie_text (s : string) : Prop :=
  JS.includes_char "=" s = false /\ JS.includes_char ";" s = false.

(** ** class User (index.js, lines 58-102)

    The collection [users] sits beside the stores of [World].  The JSON web
    token library is outside the program: signing and verifying are taken
    as given functions of the token data, the secret and the clock. *)

Module Users.
Record Doc : Type := mkDoc {
  utokyo_id : string;
  created_date : N;
  user_secret : string;
}.
End Users.

#[global] Instance Users_Doc_eq_dec : EqDecision Users.Doc.
Proof. solve_decision. Defined.

Record Site : Type := mkSite {
  users : gmap string Users.Doc;
  world : World;
}.

(** A handler's computation: a value or a failure, and the site it leaves. *)
Definition H (A : Type) : Type := Site -> reply A * Site.

Definition done_ {A} (a : A) : H A := fun s => (Done a, s).
Definition fail {A} (f : failure) : H A := fun s => (Failed f, s).
Definition and_then {A B} (m : H A) (k : A -> H B) : H B :=
  fun s => match m s with
           | (Done a, s') => k a s'
           | (Failed f, s') => (Failed f, s')
           end.

Notation "'await' x <- m ; k" := (and_then m (fun x => k))
  (at level 10, x name, m at level 100, k at level 200).
Notation "'settle' m ; k" := (and_then m (fun _ => k))
  (at level 10, m at level 100, k at level 200).

(** A static method of [Subdomain], called from a handler. *)
Definition on_world {A} (m : M World A) : H A :=
  fun s =>
    let '(r, w') := m (world s) in
    (match r with Ok a => Done a | Throw e => Failed (Core e) end,
     mkSite (users s) w').

(** [const obj = new Subdomain(id); await obj.method(...)]: the method runs
    on a fresh instance, which is dropped afterwards. *)
Definition on_instance {A} (id : string) (m : M St A) : H A :=
  fun s =>
    let '(r, (_, w')) := m (mkSubdomain id None, world s) in
    (match r with Ok a => Done a | Throw e => Failed (Core e) end,
     mkSite (users s) w').

(** The first document of a query snapshot: Firestore returns the documents
    of a query without [orderBy] in the order of their ids. *)
Definition first_by_id {A} (m : gmap string A) : option A :=
  snd <$>
    fold_right
      (fun kv acc =>
         match acc with
         | Some kv' => if String.leb kv.1 kv'.1 then Some kv else Some kv'
         | None => Some kv
         end)
      None (map_to_list m).

Section Tokens.

(** [jwt.sign({id}, secret, {expiresIn})] at a given time, and
    [jwt.verify(token, secret)], [None] when it throws. *)
Variable Payload : Type.
Variable jwt_sign : string -> string -> N -> N -> string.
Variable jwt_verify : string -> string -> N -> option Payload.

Definition getUserByUtokyoId (id : string) : H Users.Doc :=
  fun s =>
    let usersSnapshot :=
      filter (fun kv : string * Users.Doc => Users.utokyo_id kv.2 = id) (users s) in
    match first_by_id usersSnapshot with
    | None => (Failed NoSuchUser, s)
    | Some user => (Done user, s)
    end.

(** [docId] is the id [usersRef.doc()] generates, [now] the server
    timestamp and [secret] the text of [crypto.randomBytes(32)]. *)
Definition initializeUserByUtokyoId (id docId : string) (now : N)
  (secret : string) : H Users.Doc :=
  fun s =>
    match getUserByUtokyoId id s with
    | (Done user, s') => (Done user, s')
    | (Failed _, s') =>
        getUserByUtokyoId id
          (mkSite (<[docId := Users.mkDoc id now secret]> (users s')) (world s'))
    end.

Definition getUserTokenByUtokyoId (id docId : string) (now : N)
  (secret : string) (clock : N) : H string :=
  await user <- initializeUserByUtokyoId id docId now secret;
  done_ (jwt_sign (Users.utokyo_id user) (Users.user_secret user)
           (60 * 60 * 24) clock).

Definition verifyUserToken (id token : string) (clock : N) : H Payload :=
  await user <- getUserByUtokyoId id;
  match jwt_verify token (Users.user_secret user) clock with
  | Some payload => done_ payload
  | None => fail InvalidToken
  end.

(** ** The request handlers (index.js, lines 325-498) *)

(** What the environment supplies to one request: the identifiers and the
    random bytes it draws, the server timestamp and the clock. *)
Record Env : Type := mkEnv {
  uuid : string;
  doc_id : string;
  random_hex : string;
  timestamp : N;
  clock : N;
}.

(** A route parameter is a string; a query parameter is absent or a string
    (Express also parses repeated and nested parameters to arrays and
    objects, which are not represented).  The sign-in callback is given
    with the e-mail addresses the identity provider returns for its code. *)
Inductive Request : Type :=
  | Index (cookie : JS.value)
  | Auth (code : option string) (emailAddresses : list JS.value)
  | CreateDomain (user_id user_token name : option string)
  | DomainInfo (domain_id : string)
  | ListRecords (domain_id : string)
  | UpdateRecords (domain_id name type : string) (data : option string)
  | DeleteRecords (domain_id name type : string)
  | GetRecords (domain_id name type : string).

Inductive Body : Type :=
  | body_id (id : string)
  | body_success
  | body_subdomains (subdomains : list string)
  | body_records (records : list Formatted)
  | body_error (e : failure).

Inductive Response : Type :=
  | Json (status : nat) (body : Body)
  | Redirect (location : string) (cookies : list (string * string))
  | Page (user_id user_token : JS.value).

(** [try { ...; res.status(200)... } catch (e) { res.status(400)... }] *)
Definition respond {A} (ok : A -> Body) (m : H A) : Site -> Response * Site :=
  fun s =>
    match m s with
    | (Done a, s') => (Json 200 (ok a), s')
    | (Failed f, s') => (Json 400 (body_error f), s')
    end.

(** A query parameter as a value, and the test [!req.query.x]. *)
Definition query (x : option string) : JS.value :=
  match x with
  | Some s => JS.Str s
  | None => JS.Undefined
  end.

Definition provided (x : option string) : option string :=
  match x with
  | Some s => if String.eqb s EmptyString then None else Some s
  | None => None
  end.

Definition handle (env : Env) (req : Request) : Site -> Response * Site :=
  match req with
  | Index cookie =>
      fun s =>
        let cookies := parseCookies cookie in
        (Page (cookie_or_empty cookies "utokyo_id")
              (cookie_or_empty cookies "utokyo_token"), s)
  | Auth code emailAddresses =>
      fun s =>
        match provided code with
        | None => (Json 400 (body_error NoCodeProvided), s)
        | Some _ =>
            match utokyo_id emailAddresses with
            | Failed f => (Json 400 (body_error f), s)
            | Done id =>
                match getUserTokenByUtokyoId id (doc_id env) (timestamp env)
                        (random_hex env) (clock env) s with
                | (Done token, s') =>
                    (Redirect "/" [("utokyo_id", id); ("utokyo_token", token)], s')
                | (Failed f, s') => (Json 400 (body_error f), s')
                end
            end
        end
  | CreateDomain user_id user_token name =>
      respond body_id
        (match provided user_id, provided user_token with
         | Some id, Some token =>
             settle verifyUserToken id token (clock env);
             match provided name with
             | None => fail NameNotProvided
             | Some n =>
                 on_world (createSubdomain (JS.Str n) (JS.Str id) (uuid env)
                             (timestamp env))
             end
         | _, _ => fail NoTokenProvided
         end)
  | DomainInfo domain_id =>
      respond body_subdomains (on_instance domain_id getBaseSubdomains)
  | ListRecords domain_id =>
      respond body_records (on_instance domain_id getAllRecords)
  | UpdateRecords domain_id name type data =>
      respond (fun _ => body_success)
        (on_instance domain_id
           (updateRecord (JS.Str type) (JS.Str name) (query data)))
  | DeleteRecords domain_id name type =>
      respond (fun _ => body_success)
        (on_instance domain_id (deleteRecord (JS.Str type) (JS.Str name)))
  | GetRecords domain_id name type =>
      respond body_records
        (on_instance domain_id
           (getRecordsByTypeFormatted (JS.Str type) (JS.Str name)))
  end.

(** A run of requests, each with what the environment supplies to it. *)
Fixpoint serve (requests : list (Env * Request)) (s : Site) : Site :=
  match requests with
  | [] => s
  | (env, req) :: rest => serve rest (handle env req s).2
  end.

End Tokens.

(** At most one user document for each university id. *)
Definition users_unique (s : Site) : Prop :=
  forall i j u v,
    users s !! i = Some u -> users s !! j = Some v ->
    Users.utokyo_id u = Users.utokyo_id v -> i = j.

Definition site_ok (s : Site) : Prop := store_ok (world s) /\ users_unique s.

Definition empty_site : Site := mkSite ∅ (mkWorld ∅ [] []).

(** Stand-ins for the token library, to run the handlers on an example:
    the token is the secret itself, accepted when presented unchanged. *)
Definition demo_sign (id secret : string) (expiresIn clock : N) : string := secret.
Definition demo_verify (token secret : string) (clock : N) : option unit :=
  if String.eqb token secret then Some tt else None.

Definition demo_env : Env := mkEnv "id-1" "user-1" "5ec2e7" 7 1000.

(** * Properties *)

(** ** Characters and strings *)

Section Chars.

Local Ltac all_chars :=
  intros [[] [] [] [] [] [] [] []]; vm_compute; try reflexivity; try discriminate.

Lemma lower_char_idem c : JS.lower_char (JS.lower_char c) = JS.lower_char c.
Proof. revert c. all_chars. Qed.

Lemma upper_char_idem c : JS.upper_char (JS.upper_char c) = JS.upper_char c.
Proof. revert c. all_chars. Qed.

Lemma lower_char_dot c : Ascii.eqb (JS.lower_char c) "." = Ascii.eqb c ".".
Proof. revert c. all_chars. Qed.

Lemma label_char_lower c : label_char c = true -> JS.lower_char c = c.
Proof. revert c. all_chars. Qed.

Lemma label_char_not_dot c : label_char c = true -> Ascii.eqb c "." = false.
Proof. revert c. all_chars. Qed.

End Chars.

Lemma toLowerCase_idem s : JS.toLowerCase (JS.toLowerCase s) = JS.toLowerCase s.
Proof.
  induction s as [|c s IH]; [reflexivity|].
  cbn. rewrite lower_char_idem. f_equal. exact IH.
Qed.

Lemma toUpperCase_idem s : JS.toUpperCase (JS.toUpperCase s) = JS.toUpperCase s.
Proof.
  induction s as [|c s IH]; [reflexivity|].
  cbn. rewrite upper_char_idem. f_equal. exact IH.
Qed.

Lemma includes_dot_toLowerCase s :
  JS.includes_char "." (JS.toLowerCase s) = JS.includes_char "." s.
Proof.
  induction s as [|c s IH]; [reflexivity|].
  cbn. rewrite lower_char_dot. f_equal. exact IH.
Qed.

Lemma app_cons c s t : String c s +:+ t = String c (s +:+ t).
Proof. reflexivity. Qed.

Lemma app_nil_l t : EmptyString +:+ t = t.
Proof. reflexivity. Qed.

Lemma append_empty_r s : s +:+ EmptyString = s.
Proof.
  induction s as [|c s IH]; [reflexivity|]. rewrite app_cons. f_equal. exact IH.
Qed.

Lemma includes_spec x l : JS.includes x l = true <-> x ∈ l.
Proof.
  unfold JS.includes. rewrite existsb_exists. split.
  - intros (y & Hy & Heq). apply String.eqb_eq in Heq. subst.
    by apply list_elem_of_In.
  - intros H. exists x. split; [by apply list_elem_of_In|apply String.eqb_refl].
Qed.

(** *** [split] and its last segment *)

Section Split.
Variable sep : ascii.

Lemma includes_char_mid pre b :
  JS.includes_char sep (pre +:+ String sep b) = true.
Proof.
  induction pre as [|c pre IH].
  - rewrite app_nil_l. cbn. by rewrite Ascii.eqb_refl.
  - rewrite app_cons. cbn. rewrite IH. apply orb_true_r.
Qed.

Lemma split_cons_shape s : exists h t, JS.split sep s = h :: t.
Proof.
  induction s as [|c s (h & t & IH)]; cbn; [eauto|].
  destruct (Ascii.eqb c sep); [eauto|]. rewrite IH. eauto.
Qed.

Lemma split_no_sep s :
  JS.includes_char sep s = false -> JS.split sep s = [s].
Proof.
  induction s as [|c s IH]; cbn; [reflexivity|].
  destruct (Ascii.eqb c sep); cbn; [discriminate|].
  intros H. rewrite (IH H). reflexivity.
Qed.

Lemma split_length s :
  JS.includes_char sep s = true -> (2 <= length (JS.split sep s))%nat.
Proof.
  induction s as [|c s IH]; cbn; [discriminate|].
  destruct (Ascii.eqb c sep); cbn.
  - intros _. destruct (split_cons_shape s) as (h & t & ->). cbn. lia.
  - intros H. specialize (IH H).
    destruct (JS.split sep s) as [|h t]; cbn in *; lia.
Qed.

Lemma split_segments s :
  Forall (fun x => JS.includes_char sep x = false) (JS.split sep s).
Proof.
  induction s as [|c s IH]; cbn; [repeat constructor|].
  destruct (Ascii.eqb c sep) eqn:E; [by constructor|].
  destruct (JS.split sep s) as [|h t]; [repeat constructor; cbn; by rewrite E|].
  inversion IH; subst. constructor; [cbn; by rewrite E|done].
Qed.

(** The last segment holds no separator and is what follows the last one. *)
Lemma pop_split s :
  exists b, JS.pop (JS.split sep s) = Some b /\
            JS.includes_char sep b = false /\
            (s = b \/ exists pre, s = pre +:+ String sep b).
Proof.
  unfold JS.pop. induction s as [|c s (b & Hb & Hn & Hs)]; cbn.
  - exists EmptyString. eauto.
  - destruct (Ascii.eqb c sep) eqn:E.
    + apply Ascii.eqb_eq in E. subst c.
      destruct (split_cons_shape s) as (h & t & Hsp). rewrite Hsp in *.
      exists b. split; [exact Hb|]. split; [exact Hn|]. right.
      destruct Hs as [->|(pre & ->)]; [by exists EmptyString|].
      by exists (String sep pre).
    + destruct (JS.split sep s) as [|h t] eqn:Hsp; [done|].
      destruct t as [|h' t'].
      * cbn in Hb. injection Hb as ->. exists (String c b).
        split; [done|]. split; [cbn; by rewrite E|]. left.
        destruct Hs as [->|(pre & ->)]; [done|].
        exfalso. pose proof (split_length _ (includes_char_mid pre b)) as HL.
        rewrite Hsp in HL. cbn in HL. lia.
      * exists b. split; [exact Hb|]. split; [exact Hn|]. right.
        destruct Hs as [->|(pre & ->)].
        -- exfalso. rewrite (split_no_sep _ Hn) in Hsp. discriminate.
        -- by exists (String c pre).
Qed.

End Split.

Lemma neq_opt_pop_split s :
  neq_opt s (JS.pop (JS.split "." s)) = JS.includes_char "." s.
Proof.
  destruct (JS.includes_char "." s) eqn:E.
  - destruct (pop_split "." s) as (b & -> & Hn & _). cbn.
    destruct (String.eqb_spec s b) as [->|]; [congruence|done].
  - rewrite (split_no_sep _ _ E). cbn. by rewrite String.eqb_refl.
Qed.

Lemma split_short s :
  (length (JS.split "." s) <? 2)%nat = negb (JS.includes_char "." s).
Proof.
  destruct (JS.includes_char "." s) eqn:E.
  - change (negb true) with false. apply Nat.ltb_ge. by apply split_length.
  - by rewrite (split_no_sep _ _ E).
Qed.

(** ** The label pattern *)

Module RegexFacts.
Import Regex.

Lemma dead_not_nullable r : dead r = true -> nullable r = false.
Proof.
  induction r; cbn; try discriminate; try reflexivity.
  - intros [H|H]%orb_true_iff; [rewrite IHr1|rewrite IHr2, andb_false_r]; done.
  - intros [H1 H2]%andb_true_iff. by rewrite IHr1, IHr2.
Qed.

Lemma dead_deriv c r : dead r = true -> dead (deriv c r) = true.
Proof.
  induction r; cbn; try discriminate; try reflexivity.
  - intros [H|H]%orb_true_iff.
    + rewrite (IHr1 H), (dead_not_nullable _ H). reflexivity.
    + rewrite H, orb_true_r. cbn. destruct (nullable r1); [auto|reflexivity].
  - intros [H1 H2]%andb_true_iff. by rewrite IHr1, IHr2.
Qed.

Lemma dead_matches r s : dead r = true -> matches r s = false.
Proof.
  revert r. induction s as [|c s IH]; intros r H; cbn.
  - by apply dead_not_nullable.
  - apply IH. by apply dead_deriv.
Qed.

Lemma within_deriv P c r : within P r -> within P (deriv c r).
Proof.
  induction r; cbn; try tauto.
  - intros _. by destruct (p c).
  - intros [H1 H2]. destruct (nullable r1); cbn; tauto.
Qed.

Lemma outside_deriv P c r :
  within P r -> P c = false -> dead (deriv c r) = true.
Proof.
  intros Hw Hc. induction r; cbn in *; try reflexivity.
  - destruct (p c) eqn:E; [|reflexivity]. apply Hw in E. congruence.
  - destruct Hw as [H1 H2]. rewrite (IHr1 H1). cbn.
    destruct (nullable r1); [auto|reflexivity].
  - destruct Hw as [H1 H2]. by rewrite IHr1, IHr2.
  - by rewrite IHr.
Qed.

(** A matched string is made of characters the classes let through. *)
Lemma matches_within P r s :
  within P r -> matches r s = true -> JS.every P s = true.
Proof.
  revert r. induction s as [|c s IH]; intros r Hw Hm; cbn in *; [reflexivity|].
  destruct (P c) eqn:Hc; cbn.
  - exact (IH _ (within_deriv P c r Hw) Hm).
  - rewrite dead_matches in Hm; [discriminate|]. by eapply outside_deriv.
Qed.

Lemma LABEL_within : within label_char LABEL.
Proof.
  unfold label_char. cbn. repeat split; intros c H; rewrite ?H; try reflexivity;
    apply orb_true_r.
Qed.

End RegexFacts.

Example LABEL_examples :
  map (Regex.matches Regex.LABEL)
    ["abc"; "a1-b2-c3"; "up"; "UP"; "-bad"; "a..b"; "a-"; "a--b"; EmptyString] =
  [true; true; true; false; false; false; false; false; false].
Proof. reflexivity. Qed.

Lemma label_chars s :
  Regex.matches Regex.LABEL s = true -> JS.every label_char s = true.
Proof. apply RegexFacts.matches_within, RegexFacts.LABEL_within. Qed.

(** A name that matches the label pattern holds no dot, *)
Lemma label_no_dot s :
  Regex.matches Regex.LABEL s = true -> JS.includes_char "." s = false.
Proof.
  intros H%label_chars. induction s as [|c s IH]; [reflexivity|].
  cbn in *. apply andb_true_iff in H as [Hc Hs].
  by rewrite (label_char_not_dot _ Hc), IH.
Qed.

(** and is already in lower case. *)
Lemma label_lower s :
  Regex.matches Regex.LABEL s = true -> JS.toLowerCase s = s.
Proof.
  intros H%label_chars. unfold JS.toLowerCase.
  induction s as [|c s IH]; [reflexivity|].
  cbn in *. apply andb_true_iff in H as [Hc Hs].
  by rewrite (label_char_lower _ Hc), IH.
Qed.

(** ** Running the methods *)

Lemma or_empty_Str s : JS.or_empty (JS.Str s) = JS.Str s.
Proof.
  unfold JS.or_empty. cbn. destruct (String.eqb_spec s EmptyString); by subst.
Qed.

Lemma validateType_Str raw :
  validateType (JS.Str raw) =
    if JS.includes (JS.toLowerCase raw) TYPE_WHITELIST
    then Ok (JS.toLowerCase raw) else Throw InvalidType.
Proof.
  unfold validateType. rewrite or_empty_Str. cbn [JS.ToString].
  rewrite append_empty_r. by destruct (JS.includes _ _).
Qed.

Lemma getAllSubdomains_run this w d :
  coherent (this, w) -> domains w !! _docRef this = Some d ->
  getAllSubdomains (this, w) =
    (Ok (subdomains d), (mkSubdomain (_docRef this) (Some (subdomains d)), w)).
Proof.
  destruct this as [id [l|]]; unfold coherent, getAllSubdomains, bind; cbn.
  - intros (d' & Hd' & <-) Hd. rewrite Hd in Hd'. injection Hd' as <-.
    reflexivity.
  - intros _ ->. reflexivity.
Qed.

Lemma coherent_cached id w d :
  domains w !! id = Some d -> coherent (mkSubdomain id (Some (subdomains d)), w).
Proof. intros H. exists d. by split. Qed.

Lemma assertSubdomain_run this w d aSubdomain :
  coherent (this, w) -> domains w !! _docRef this = Some d ->
  assertSubdomain (JS.Str aSubdomain) (this, w) =
    (if includes_opt (JS.pop (JS.split "." (JS.toLowerCase aSubdomain)))
          (subdomains d)
     then Ok (JS.toLowerCase aSubdomain) else Throw OwnershipMismatch,
     (mkSubdomain (_docRef this) (Some (subdomains d)), w)).
Proof.
  intros Hc Hd. unfold assertSubdomain. rewrite or_empty_Str.
  unfold bind at 1. cbn [call_toLowerCase lift_result].
  unfold bind. rewrite (getAllSubdomains_run _ _ _ Hc Hd).
  by destruct (includes_opt _ _).
Qed.

Lemma removeSubdomain_run this w subdomain :
  removeSubdomain (JS.Str subdomain) (this, w) =
    if JS.includes_char "." subdomain then
      match domains w !! _docRef this with
      | Some d =>
          (Ok tt,
           (mkSubdomain (_docRef this) None,
            mkWorld
              (<[_docRef this :=
                   mkDoc (created_by d) (created_date d)
                     (Firestore.arrayRemove (JS.toLowerCase subdomain)
                        (subdomains d))]> (domains w))
              (rrsets w) (changes w)))
      | None => (Throw StoreNotFound, (this, w))
      end
    else (Ok tt, (this, w)).
Proof.
  unfold removeSubdomain. rewrite or_empty_Str.
  unfold bind at 1. cbn [call_toLowerCase lift_result].
  rewrite neq_opt_pop_split, includes_dot_toLowerCase.
  destruct (JS.includes_char "." subdomain); [|reflexivity].
  unfold bind, io, Firestore.doc_update. cbn.
  by destruct (domains w !! _docRef this).
Qed.

Lemma arrayRemove_spec x l y :
  y ∈ Firestore.arrayRemove x l <-> y ∈ l /\ y <> x.
Proof.
  unfold Firestore.arrayRemove. rewrite !list_elem_of_In, filter_In.
  rewrite negb_true_iff, String.eqb_neq. reflexivity.
Qed.

Lemma arrayUnion_spec x l y :
  y ∈ Firestore.arrayUnion x l <-> y ∈ l \/ y = x.
Proof.
  unfold Firestore.arrayUnion. destruct (JS.includes x l) eqn:E.
  - apply includes_spec in E. split; [tauto|]. intros [?| ->]; done.
  - rewrite elem_of_app, list_elem_of_singleton. reflexivity.
Qed.

(** ** validateType *)

(** C7. For every input string, [validateType] returns the lower-cased
    string exactly when that string is one of the ten whitelisted types,
    and throws [InvalidType] otherwise; ["TXT"] gives ["txt"] and ["ptr"]
    is refused. *)
Theorem validateType_whitelist (raw : string) :
  (validateType (JS.Str raw) = Ok (JS.toLowerCase raw) <->
   JS.toLowerCase raw ∈ TYPE_WHITELIST) /\
  (validateType (JS.Str raw) = Throw InvalidType <->
   JS.toLowerCase raw ∉ TYPE_WHITELIST) /\
  (forall t, validateType (JS.Str raw) = Ok t -> t = JS.toLowerCase raw) /\
  validateType (JS.Str "TXT") = Ok "txt" /\
  validateType (JS.Str "ptr") = Throw InvalidType.
Proof.
  rewrite validateType_Str.
  destruct (JS.includes (JS.toLowerCase raw) TYPE_WHITELIST) eqn:E.
  - pose proof (proj1 (includes_spec _ _) E) as Hin.
    repeat split; try done. intros t [= <-]. reflexivity.
  - assert (JS.toLowerCase raw ∉ TYPE_WHITELIST) as Hout.
    { intros Hin%includes_spec. congruence. }
    repeat split; try done.
Qed.

(** ** assertSubdomain *)

(** C1. For a tenant whose document exists and any name string,
    [assertSubdomain] lower-cases the name, takes what follows its last dot
    as the base, and returns the lower-cased name exactly when the base is
    tracked by the tenant; otherwise it throws [OwnershipMismatch].  The
    stores are left as they were. *)
Theorem assertSubdomain_iff_base_tracked
  (this : Subdomain) (w : World) (d : Doc) (aSubdomain : string) :
  coherent (this, w) ->
  domains w !! _docRef this = Some d ->
  let subdomain := JS.toLowerCase aSubdomain in
  let outcome := assertSubdomain (JS.Str aSubdomain) (this, w) in
  exists baseSubdomain,
    JS.pop (JS.split "." subdomain) = Some baseSubdomain /\
    JS.includes_char "." baseSubdomain = false /\
    (subdomain = baseSubdomain \/
     exists pre, subdomain = pre +:+ String "." baseSubdomain) /\
    (outcome.1 = Ok subdomain <-> baseSubdomain ∈ subdomains d) /\
    (outcome.1 = Throw OwnershipMismatch <-> baseSubdomain ∉ subdomains d) /\
    outcome.2.2 = w.
Proof.
  intros Hc Hd subdomain outcome. subst outcome.
  rewrite (assertSubdomain_run _ _ _ _ Hc Hd). fold subdomain.
  destruct (pop_split "." subdomain) as (b & Hb & Hn & Hs).
  exists b. rewrite Hb. cbn [includes_opt fst snd].
  destruct (JS.includes b (subdomains d)) eqn:E.
  - pose proof (proj1 (includes_spec _ _) E). repeat split; try done.
  - assert (b ∉ subdomains d) by (intros ?%includes_spec; congruence).
    repeat split; try done.
Qed.

Lemma assertSubdomain_iff_base_tracked_witness :
  exists baseSubdomain,
    JS.pop (JS.split "." (JS.toLowerCase "Foo.Base")) = Some baseSubdomain /\
    JS.includes_char "." baseSubdomain = false /\
    (JS.toLowerCase "Foo.Base" = baseSubdomain \/
     exists pre, JS.toLowerCase "Foo.Base" = pre +:+ String "." baseSubdomain) /\
    ((assertSubdomain (JS.Str "Foo.Base") (demo_this, demo_world)).1 =
       Ok (JS.toLowerCase "Foo.Base") <-> baseSubdomain ∈ subdomains demo_doc) /\
    ((assertSubdomain (JS.Str "Foo.Base") (demo_this, demo_world)).1 =
       Throw OwnershipMismatch <-> baseSubdomain ∉ subdomains demo_doc) /\
    (assertSubdomain (JS.Str "Foo.Base") (demo_this, demo_world)).2.2 = demo_world.
Proof.
  apply (assertSubdomain_iff_base_tracked demo_this demo_world demo_doc "Foo.Base").
  - exact I.
  - reflexivity.
Defined.

(** ** removeSubdomain *)

(** C8. For every tenant and every name, [removeSubdomain] lower-cases the
    name; a name with a dot is removed from the tenant's tracked list (all
    other names and all other tenants stay, the cached list is dropped),
    and a bare label leaves the instance and the stores untouched. *)
Theorem removeSubdomain_leaf_only
  (this : Subdomain) (w : World) (d : Doc) (subdomain : string) :
  domains w !! _docRef this = Some d ->
  let after := removeSubdomain (JS.Str subdomain) (this, w) in
  after.1 = Ok tt /\
  (JS.includes_char "." subdomain = true ->
   domains after.2.2 !! _docRef this =
     Some (mkDoc (created_by d) (created_date d)
             (Firestore.arrayRemove (JS.toLowerCase subdomain) (subdomains d))) /\
   (forall x, x ∈ Firestore.arrayRemove (JS.toLowerCase subdomain) (subdomains d)
              <-> x ∈ subdomains d /\ x <> JS.toLowerCase subdomain) /\
   (forall id, id <> _docRef this -> domains after.2.2 !! id = domains w !! id) /\
   after.2.1 = mkSubdomain (_docRef this) None /\
   rrsets after.2.2 = rrsets w /\ changes after.2.2 = changes w) /\
  (JS.includes_char "." subdomain = false -> after.2 = (this, w)).
Proof.
  intros Hd after. subst after. rewrite removeSubdomain_run, Hd.
  destruct (JS.includes_char "." subdomain); cbn [fst snd].
  - split; [reflexivity|]. split; [intros _|discriminate].
    cbn. rewrite lookup_insert_eq. split_and!; try done.
    + intros x. apply arrayRemove_spec.
    + intros id Hid. by rewrite lookup_insert_ne.
  - split; [reflexivity|]. split; [discriminate|reflexivity].
Qed.

Lemma removeSubdomain_leaf_only_witness :
  let after := removeSubdomain (JS.Str "WWW.base") (demo_this, demo_world) in
  after.1 = Ok tt /\
  (JS.includes_char "." "WWW.base" = true ->
   domains after.2.2 !! "tenant-1" =
     Some (mkDoc (created_by demo_doc) (created_date demo_doc)
             (Firestore.arrayRemove (JS.toLowerCase "WWW.base")
                (subdomains demo_doc))) /\
   (forall x, x ∈ Firestore.arrayRemove (JS.toLowerCase "WWW.base")
                    (subdomains demo_doc)
              <-> x ∈ subdomains demo_doc /\ x <> JS.toLowerCase "WWW.base") /\
   (forall id, id <> "tenant-1" ->
               domains after.2.2 !! id = domains demo_world !! id) /\
   after.2.1 = mkSubdomain "tenant-1" None /\
   rrsets after.2.2 = rrsets demo_world /\
   changes after.2.2 = changes demo_world) /\
  (JS.includes_char "." "WWW.base" = false -> after.2 = (demo_this, demo_world)).
Proof.
  apply (removeSubdomain_leaf_only demo_this demo_world demo_doc "WWW.base").
  reflexivity.
Defined.

(** C10 as stated fails: a truthy argument that is not a string has no
    [toLowerCase], the call throws, so [removeSubdomain] does not return
    normally on every input. *)
Lemma removeSubdomain_not_total :
  (removeSubdomain (JS.Bool true) (demo_this, demo_world)).1 = Throw NotAFunction /\
  ~ (forall (subdomain : JS.value) (this : Subdomain) (w : World) (d : Doc),
       domains w !! _docRef this = Some d ->
       (removeSubdomain subdomain (this, w)).1 = Ok tt).
Proof.
  split; [reflexivity|].
  intros H. specialize (H (JS.Bool true) demo_this demo_world demo_doc eq_refl).
  discriminate H.
Qed.

(** C10, amended. [removeSubdomain] checks neither ownership nor
    membership.  On the document of an existing tenant it returns normally
    for every string and for every falsy argument ([undefined], [null],
    [false], the empty string): a string with a dot always has its removal
    written to the document and the cached list dropped, whether or not the
    name or its base was tracked; a bare label or a falsy argument changes
    nothing. *)
Theorem removeSubdomain_no_check
  (this : Subdomain) (w : World) (d : Doc) (subdomain : JS.value) :
  domains w !! _docRef this = Some d ->
  JS.truthy subdomain = false \/ (exists s, subdomain = JS.Str s) ->
  let after := removeSubdomain subdomain (this, w) in
  after.1 = Ok tt /\
  (forall s, subdomain = JS.Str s -> JS.includes_char "." s = true ->
     after.2 =
       (mkSubdomain (_docRef this) None,
        mkWorld
          (<[_docRef this :=
               mkDoc (created_by d) (created_date d)
                 (Firestore.arrayRemove (JS.toLowerCase s) (subdomains d))]>
             (domains w))
          (rrsets w) (changes w))) /\
  (forall s, subdomain = JS.Str s -> JS.includes_char "." s = false ->
     after.2 = (this, w)) /\
  (JS.truthy subdomain = false -> after.2 = (this, w)).
Proof.
  intros Hd Hv after. subst after.
  assert (exists s, removeSubdomain subdomain (this, w) =
                    removeSubdomain (JS.Str s) (this, w) /\
                    (forall s', subdomain = JS.Str s' -> s' = s) /\
                    (JS.truthy subdomain = false -> s = EmptyString))
    as (s & -> & Hs & Hf).
  { destruct Hv as [Hv|[s ->]].
    - exists EmptyString. split; [|split; [|done]].
      + unfold removeSubdomain, JS.or_empty. by rewrite Hv.
      + intros s' ->. cbn in Hv. apply negb_false_iff in Hv.
        by apply String.eqb_eq in Hv.
    - exists s. split; [done|]. split; [by intros s' [= ->]|].
      cbn. intros Hv%negb_false_iff. by apply String.eqb_eq in Hv. }
  rewrite removeSubdomain_run, Hd.
  split; [by destruct (JS.includes_char "." s)|].
  split; [|split].
  - intros s' ->%Hs ->. reflexivity.
  - intros s' ->%Hs ->. reflexivity.
  - intros ->%Hf. reflexivity.
Qed.

Lemma removeSubdomain_no_check_witness :
  let after := removeSubdomain (JS.Str "never.tracked") (demo_this, demo_world) in
  after.1 = Ok tt /\
  (forall s, JS.Str "never.tracked" = JS.Str s -> JS.includes_char "." s = true ->
     after.2 =
       (mkSubdomain "tenant-1" None,
        mkWorld
          (<["tenant-1" :=
               mkDoc (created_by demo_doc) (created_date demo_doc)
                 (Firestore.arrayRemove (JS.toLowerCase s) (subdomains demo_doc))]>
             (domains demo_world))
          (rrsets demo_world) (changes demo_world))) /\
  (forall s, JS.Str "never.tracked" = JS.Str s -> JS.includes_char "." s = false ->
     after.2 = (demo_this, demo_world)) /\
  (JS.truthy (JS.Str "never.tracked") = false -> after.2 = (demo_this, demo_world)).
Proof.
  apply (removeSubdomain_no_check demo_this demo_world demo_doc
           (JS.Str "never.tracked")).
  - reflexivity.
  - right. by exists "never.tracked".
Defined.

(** ** domainExists and createSubdomain *)

Lemma snapshot_empty_false x (m : gmap string Doc) :
  Firestore.empty (filter (fun kv : string * Doc => x ∈ subdomains kv.2) m) = false
  <-> exists id d, m !! id = Some d /\ x ∈ subdomains d.
Proof.
  unfold Firestore.empty. rewrite bool_decide_eq_false. split.
  - intros (id & d & H)%map_choose.
    apply map_lookup_filter_Some in H as [H1 H2]. eauto.
  - intros (id & d & H1 & H2) He.
    by eapply (map_filter_empty_not_lookup _ _ id d He).
Qed.

Lemma domainExists_run aName w :
  JS.includes_char "." (JS.toLowerCase (JS.ToString aName)) = false ->
  domainExists aName w =
    (Ok (negb (Firestore.empty
                 (filter (fun kv : string * Doc =>
                            JS.toLowerCase (JS.ToString aName) ∈ subdomains kv.2)
                    (domains w)))), w).
Proof. intros H. unfold domainExists. by rewrite H. Qed.

Lemma createSubdomain_run aName aOwner id now w :
  let name := JS.toLowerCase (JS.ToString aName) in
  createSubdomain aName aOwner id now w =
    if negb (Regex.matches Regex.LABEL name) then (Throw InvalidName, w)
    else if negb (Firestore.empty
                    (filter (fun kv : string * Doc => name ∈ subdomains kv.2)
                       (domains w)))
         then (Throw AlreadyExists, w)
         else (Ok id,
               mkWorld (<[id := mkDoc aOwner now [name]]> (domains w))
                 (rrsets w) (changes w)).
Proof.
  intros name. unfold createSubdomain. fold name.
  destruct (Regex.matches Regex.LABEL name) eqn:Hm; [|reflexivity].
  cbn [negb]. unfold bind.
  rewrite domainExists_run; cbn [JS.ToString]; rewrite (label_lower _ Hm);
    [|by apply label_no_dot].
  by destruct (Firestore.empty _).
Qed.

(** C2 as stated fails: ["UP"] is not in the language of the pattern, yet
    [createSubdomain] accepts it, because the name is lower-cased before it
    is matched. *)
Lemma createSubdomain_accepts_UP :
  Regex.matches Regex.LABEL "UP" = false /\
  createSubdomain (JS.Str "UP") (JS.Str "0123456789") "id-1" 0 (mkWorld ∅ [] []) =
    (Ok "id-1",
     mkWorld {[ "id-1" := mkDoc (JS.Str "0123456789") 0 ["up"] ]} [] []).
Proof. split; reflexivity. Qed.

(** C2, amended. Every name whose lower-cased form is outside the label
    pattern is refused with [InvalidName] and no document is written; so are
    ["-bad"] and ["a..b"].  (["UP"] is lower-cased to ["up"] and accepted.) *)
Theorem createSubdomain_invalid_name
  (aName aOwner : JS.value) (id : string) (now : N) (w : World) :
  Regex.matches Regex.LABEL (JS.toLowerCase (JS.ToString aName)) = false ->
  createSubdomain aName aOwner id now w = (Throw InvalidName, w) /\
  createSubdomain (JS.Str "-bad") aOwner id now w = (Throw InvalidName, w) /\
  createSubdomain (JS.Str "a..b") aOwner id now w = (Throw InvalidName, w).
Proof.
  intros H. rewrite !createSubdomain_run. cbn zeta. rewrite H.
  split; [reflexivity|]. split; reflexivity.
Qed.

Lemma createSubdomain_invalid_name_witness :
  createSubdomain (JS.Str "no_underscore") (JS.Str "0123456789") "id-1" 0 demo_world =
    (Throw InvalidName, demo_world) /\
  createSubdomain (JS.Str "-bad") (JS.Str "0123456789") "id-1" 0 demo_world =
    (Throw InvalidName, demo_world) /\
  createSubdomain (JS.Str "a..b") (JS.Str "0123456789") "id-1" 0 demo_world =
    (Throw InvalidName, demo_world).
Proof.
  apply (createSubdomain_invalid_name (JS.Str "no_underscore")
           (JS.Str "0123456789") "id-1" 0 demo_world).
  reflexivity.
Defined.

Lemma createSubdomain_bases_unique aName aOwner id now w :
  bases_unique w -> bases_unique (createSubdomain aName aOwner id now w).2.
Proof.
  intros Hu. rewrite createSubdomain_run. cbn zeta.
  set (name := JS.toLowerCase (JS.ToString aName)).
  destruct (Regex.matches Regex.LABEL name); [|exact Hu]. cbn [negb].
  destruct (Firestore.empty _) eqn:He; [|exact Hu]. cbn [negb snd].
  assert (forall i d, domains w !! i = Some d -> name ∉ subdomains d) as Hfree.
  { intros i d Hd Hin.
    assert (Firestore.empty
              (filter (fun kv : string * Doc => name ∈ subdomains kv.2)
                 (domains w)) = false) as Hf
      by (apply snapshot_empty_false; eauto).
    congruence. }
  intros i1 i2 d1 d2 x. cbn [domains].
  rewrite !lookup_insert_Some.
  intros [[<- <-]|[Hn1 H1]] [[<- <-]|[Hn2 H2]] Hx; cbn [subdomains].
  - done.
  - intros ->%list_elem_of_singleton Hin. by destruct (Hfree _ _ H2).
  - intros Hin ->%list_elem_of_singleton. by destruct (Hfree _ _ H1).
  - by apply (Hu i1 i2 d1 d2 x).
Qed.

(** C5. For every name [N] of the label pattern, after
    [createSubdomain(N, owner)] the query [domainExists(N)] answers [true],
    and a further [createSubdomain(N, owner2)], by whatever owner, throws
    [AlreadyExists] and writes nothing.  The first call either registers
    [N] or finds it taken, and it keeps bare labels unique across tenants. *)
Theorem createSubdomain_then_exists
  (N_ : string) (aOwner aOwner2 : JS.value) (id id2 : string) (now now2 : N)
  (w : World) :
  Regex.matches Regex.LABEL N_ = true ->
  let first := createSubdomain (JS.Str N_) aOwner id now w in
  (first.1 = Ok id \/ first.1 = Throw AlreadyExists) /\
  domainExists (JS.Str N_) first.2 = (Ok true, first.2) /\
  createSubdomain (JS.Str N_) aOwner2 id2 now2 first.2 =
    (Throw AlreadyExists, first.2) /\
  (bases_unique w -> bases_unique first.2).
Proof.
  intros Hm first.
  assert (Firestore.empty
            (filter (fun kv : string * Doc => N_ ∈ subdomains kv.2)
               (domains first.2)) = false /\
          (first.1 = Ok id \/ first.1 = Throw AlreadyExists)) as [He Hr].
  { subst first. rewrite createSubdomain_run. cbn zeta. cbn [JS.ToString].
    rewrite (label_lower _ Hm), Hm. cbn [negb].
    destruct (Firestore.empty (filter _ (domains w))) eqn:He;
      cbn [negb fst snd]; (split; [|by auto]); [|exact He].
    apply snapshot_empty_false.
    exists id, (mkDoc aOwner now [N_]). cbn.
    rewrite lookup_insert_eq. split; [done|]. by apply list_elem_of_singleton. }
  split; [exact Hr|]. split; [|split].
  - rewrite domainExists_run; cbn [JS.ToString]; rewrite (label_lower _ Hm);
      [|by apply label_no_dot].
    by rewrite He.
  - rewrite createSubdomain_run. cbn zeta. cbn [JS.ToString].
    by rewrite (label_lower _ Hm), Hm, He.
  - apply createSubdomain_bases_unique.
Qed.

Lemma createSubdomain_then_exists_witness :
  let first :=
    createSubdomain (JS.Str "my-site") (JS.Str "0123456789") "id-1" 0 demo_world in
  (first.1 = Ok "id-1" \/ first.1 = Throw AlreadyExists) /\
  domainExists (JS.Str "my-site") first.2 = (Ok true, first.2) /\
  createSubdomain (JS.Str "my-site") (JS.Str "9876543210") "id-2" 1 first.2 =
    (Throw AlreadyExists, first.2) /\
  (bases_unique demo_world -> bases_unique first.2).
Proof.
  apply (createSubdomain_then_exists "my-site" (JS.Str "0123456789")
           (JS.Str "9876543210") "id-1" "id-2" 0 1 demo_world).
  reflexivity.
Defined.

(** ** addSubdomain and the shape of tracked lists *)

Lemma or_empty_cases v :
  (exists s, JS.or_empty v = JS.Str s) \/ JS.or_empty v = JS.Bool true.
Proof.
  destruct v as [| |[]|s]; cbn; eauto. left. rewrite or_empty_Str. eauto.
Qed.

Lemma or_empty_or_empty v : JS.or_empty (JS.or_empty v) = JS.or_empty v.
Proof. destruct (or_empty_cases v) as [[s ->]| ->]; [apply or_empty_Str|done]. Qed.

Lemma getAllSubdomains_missing this w :
  coherent (this, w) -> domains w !! _docRef this = None ->
  getAllSubdomains (this, w) = (Throw TenantNotFound, (this, w)).
Proof.
  destruct this as [id [l|]]; unfold coherent, getAllSubdomains, bind; cbn.
  - intros (d & Hd & _) Hn. congruence.
  - intros _ ->. reflexivity.
Qed.

Lemma addSubdomain_run this w d aSubdomain :
  coherent (this, w) -> domains w !! _docRef this = Some d ->
  addSubdomain (JS.Str aSubdomain) (this, w) =
    let subdomain := JS.toLowerCase aSubdomain in
    if includes_opt (JS.pop (JS.split "." subdomain)) (subdomains d) then
      if JS.includes subdomain (subdomains d)
      then (Ok tt, (mkSubdomain (_docRef this) (Some (subdomains d)), w))
      else (Ok tt,
            (mkSubdomain (_docRef this) None,
             mkWorld
               (<[_docRef this :=
                    mkDoc (created_by d) (created_date d)
                      (Firestore.arrayUnion subdomain (subdomains d))]>
                  (domains w))
               (rrsets w) (changes w)))
    else (Throw OwnershipMismatch,
          (mkSubdomain (_docRef this) (Some (subdomains d)), w)).
Proof.
  intros Hc Hd. unfold addSubdomain. unfold bind at 1.
  rewrite (assertSubdomain_run _ _ _ _ Hc Hd). cbn zeta.
  destruct (includes_opt _ _); [|reflexivity].
  unfold bind at 1.
  rewrite (getAllSubdomains_run (mkSubdomain _ _) w d (coherent_cached _ _ _ Hd) Hd).
  cbn [_docRef].
  destruct (JS.includes _ _); [reflexivity|]. cbn [negb].
  unfold bind, io, Firestore.doc_update. cbn. by rewrite Hd.
Qed.

Lemma addSubdomain_missing this w aSubdomain :
  coherent (this, w) -> domains w !! _docRef this = None ->
  addSubdomain (JS.Str aSubdomain) (this, w) = (Throw TenantNotFound, (this, w)).
Proof.
  intros Hc Hd. unfold addSubdomain, assertSubdomain. rewrite or_empty_Str.
  unfold bind at 1 2. cbn [call_toLowerCase lift_result].
  unfold bind at 1. by rewrite (getAllSubdomains_missing _ _ Hc Hd).
Qed.

Lemma tracked_ok_spec l :
  tracked_ok l = true <->
  forall x, x ∈ l ->
    JS.includes_char "." x = false \/
    exists b, JS.pop (JS.split "." x) = Some b /\ b ∈ l.
Proof.
  unfold tracked_ok. rewrite forallb_forall.
  split; intros H x Hx.
  - apply list_elem_of_In, H, orb_true_iff in Hx as [Hx|Hx].
    + left. by apply negb_true_iff.
    + right. destruct (JS.pop _) as [b|]; [|discriminate].
      exists b. split; [done|]. by apply includes_spec.
  - apply list_elem_of_In, H in Hx as [Hx|(b & Hb & Hin)]; apply orb_true_iff.
    + left. by apply negb_true_iff.
    + right. rewrite Hb. by apply includes_spec.
Qed.

Lemma tracked_ok_arrayUnion x l :
  tracked_ok l = true ->
  includes_opt (JS.pop (JS.split "." x)) l = true ->
  tracked_ok (Firestore.arrayUnion x l) = true.
Proof.
  rewrite !tracked_ok_spec. intros Hl Hb y [Hy| ->]%arrayUnion_spec.
  - destruct (Hl y Hy) as [?|(b & ? & ?)]; [by left|right].
    exists b. split; [done|]. apply arrayUnion_spec. by left.
  - right. destruct (JS.pop _) as [b|]; [|discriminate].
    exists b. split; [done|]. apply arrayUnion_spec. left. by apply includes_spec.
Qed.

Lemma tracked_ok_arrayRemove x l :
  tracked_ok l = true ->
  JS.includes_char "." x = true ->
  tracked_ok (Firestore.arrayRemove x l) = true.
Proof.
  rewrite !tracked_ok_spec. intros Hl Hx y [Hy Hne]%arrayRemove_spec.
  destruct (Hl y Hy) as [?|(b & Hb & Hin)]; [by left|right].
  exists b. split; [done|]. apply arrayRemove_spec. split; [done|].
  intros ->. destruct (pop_split "." y) as (b' & Hb' & Hn & _).
  congruence.
Qed.

Lemma tenants_ok_update w id d l :
  tenants_ok w -> tracked_ok l = true ->
  tenants_ok (mkWorld (<[id := mkDoc (created_by d) (created_date d) l]> (domains w))
                (rrsets w) (changes w)).
Proof. intros Hw Hl. by apply map_Forall_insert_2. Qed.

Lemma createSubdomain_tenants_ok aName aOwner id now w :
  tenants_ok w -> tenants_ok (createSubdomain aName aOwner id now w).2.
Proof.
  intros Hw. rewrite createSubdomain_run. cbn zeta.
  destruct (Regex.matches _ _) eqn:Hm; [|exact Hw]. cbn [negb].
  destruct (Firestore.empty _); [|exact Hw]. cbn [negb snd].
  apply map_Forall_insert_2; [|exact Hw]. cbn.
  by rewrite (label_no_dot _ Hm).
Qed.

Lemma addSubdomain_Str_invariant this w aSubdomain :
  tenants_ok w -> coherent (this, w) ->
  tenants_ok (addSubdomain (JS.Str aSubdomain) (this, w)).2.2 /\
  coherent (addSubdomain (JS.Str aSubdomain) (this, w)).2.
Proof.
  intros Hw Hc. destruct (domains w !! _docRef this) as [d|] eqn:Hd.
  - rewrite (addSubdomain_run _ _ _ _ Hc Hd). cbn zeta.
    destruct (includes_opt _ _) eqn:Hb;
      [|split; [exact Hw|exact (coherent_cached _ _ _ Hd)]].
    destruct (JS.includes _ _);
      [split; [exact Hw|exact (coherent_cached _ _ _ Hd)]|].
    split; [|exact I]. cbn [snd]. apply tenants_ok_update; [done|].
    apply tracked_ok_arrayUnion; [|done]. exact (Hw _ _ Hd).
  - rewrite (addSubdomain_missing _ _ _ Hc Hd). by split.
Qed.

Lemma removeSubdomain_Str_invariant this w subdomain :
  tenants_ok w -> coherent (this, w) ->
  tenants_ok (removeSubdomain (JS.Str subdomain) (this, w)).2.2 /\
  coherent (removeSubdomain (JS.Str subdomain) (this, w)).2.
Proof.
  intros Hw Hc. rewrite removeSubdomain_run.
  destruct (JS.includes_char "." subdomain) eqn:E; [|done].
  destruct (domains w !! _docRef this) as [d|] eqn:Hd; [|done].
  split; [|exact I]. cbn [snd]. apply tenants_ok_update; [done|].
  apply tracked_ok_arrayRemove; [exact (Hw _ _ Hd)|].
  by rewrite includes_dot_toLowerCase.
Qed.

(** The two instance methods add and remove dotted names only, so they
    keep bare labels unique across tenants as well. *)
Lemma instance_methods_bases_unique this w aSubdomain :
  bases_unique w -> coherent (this, w) ->
  bases_unique (addSubdomain (JS.Str aSubdomain) (this, w)).2.2 /\
  bases_unique (removeSubdomain (JS.Str aSubdomain) (this, w)).2.2.
Proof.
  intros Hu Hc.
  assert (forall d l,
            domains w !! _docRef this = Some d ->
            (forall x, JS.includes_char "." x = false ->
                       x ∈ l -> x ∈ subdomains d) ->
            bases_unique
              (mkWorld
                 (<[_docRef this := mkDoc (created_by d) (created_date d) l]>
                    (domains w))
                 (rrsets w) (changes w))) as Hsub.
  { intros d l Hd Hl i1 i2 d1 d2 x. cbn [domains].
    rewrite !lookup_insert_Some.
    intros [[<- <-]|[Hn1 H1]] [[<- <-]|[Hn2 H2]] Hx; cbn [subdomains];
      intros Hx1 Hx2; eauto. }
  split.
  - destruct (domains w !! _docRef this) as [d|] eqn:Hd;
      [|by rewrite (addSubdomain_missing _ _ _ Hc Hd)].
    rewrite (addSubdomain_run _ _ _ _ Hc Hd). cbn zeta.
    destruct (includes_opt _ _) eqn:Hb; [|exact Hu].
    destruct (JS.includes _ _) eqn:Hin; [exact Hu|]. cbn [snd].
    apply Hsub; [done|]. intros x Hx [?| ->]%arrayUnion_spec; [done|].
    rewrite (split_no_sep _ _ Hx) in Hb. cbn in Hb. congruence.
  - rewrite removeSubdomain_run.
    destruct (JS.includes_char "." aSubdomain); [|exact Hu].
    destruct (domains w !! _docRef this) as [d|] eqn:Hd; [|exact Hu].
    cbn [snd]. apply Hsub; [done|]. by intros x _ [? _]%arrayRemove_spec.
Qed.

(** C9. [createSubdomain], [addSubdomain] and [removeSubdomain], on any
    arguments, keep every tenant's tracked list well formed: each name is a
    bare label or ends in a bare label tracked in the same list.  The
    instance starts from a cached list that, if present, is the stored one,
    and the two instance methods leave it so. *)
Theorem mutations_preserve_tracked_ok
  (this : Subdomain) (w : World) (aName aOwner aSubdomain : JS.value)
  (id : string) (now : N) :
  tenants_ok w ->
  coherent (this, w) ->
  tenants_ok (createSubdomain aName aOwner id now w).2 /\
  (tenants_ok (addSubdomain aSubdomain (this, w)).2.2 /\
   coherent (addSubdomain aSubdomain (this, w)).2) /\
  (tenants_ok (removeSubdomain aSubdomain (this, w)).2.2 /\
   coherent (removeSubdomain aSubdomain (this, w)).2).
Proof.
  intros Hw Hc. split; [by apply createSubdomain_tenants_ok|].
  destruct (or_empty_cases aSubdomain) as [[s Hs]|Hs].
  - replace (addSubdomain aSubdomain) with (addSubdomain (JS.Str s))
      by (unfold addSubdomain, assertSubdomain; by rewrite Hs, or_empty_Str).
    replace (removeSubdomain aSubdomain) with (removeSubdomain (JS.Str s))
      by (unfold removeSubdomain; by rewrite Hs, or_empty_Str).
    split; [by apply addSubdomain_Str_invariant
           |by apply removeSubdomain_Str_invariant].
  - unfold addSubdomain, assertSubdomain, removeSubdomain. rewrite Hs.
    unfold bind. cbn. done.
Qed.

Lemma mutations_preserve_tracked_ok_witness :
  tenants_ok
    (createSubdomain (JS.Str "site") (JS.Str "0123456789") "id-2" 1 demo_world).2 /\
  (tenants_ok (addSubdomain (JS.Str "www.base") (demo_this, demo_world)).2.2 /\
   coherent (addSubdomain (JS.Str "www.base") (demo_this, demo_world)).2) /\
  (tenants_ok (removeSubdomain (JS.Str "www.base") (demo_this, demo_world)).2.2 /\
   coherent (removeSubdomain (JS.Str "www.base") (demo_this, demo_world)).2).
Proof.
  apply (mutations_preserve_tracked_ok demo_this demo_world (JS.Str "site")
           (JS.Str "0123456789") (JS.Str "www.base") "id-2" 1).
  - unfold tenants_ok, demo_world. cbn. by apply map_Forall_singleton.
  - exact I.
Defined.

(** ** The zone *)

Lemma toJSON_selected fqdn ty r :
  JS.toUpperCase ty = ty -> selects fqdn ty r = true -> Zone.toJSON r = r.
Proof.
  intros Hty [_ Ht%String.eqb_eq]%andb_true_iff.
  destruct r as [n dt t tl]. unfold Zone.toJSON.
  cbn [rname rdata rtype rttl] in *. subst t. by rewrite Hty.
Qed.

Lemma map_toJSON_selected fqdn ty rs :
  JS.toUpperCase ty = ty ->
  map Zone.toJSON (List.filter (selects fqdn ty) rs) = List.filter (selects fqdn ty) rs.
Proof.
  intros Hty. induction rs as [|r rs IH]; [reflexivity|]. cbn.
  destruct (selects fqdn ty r) eqn:E; [|exact IH].
  cbn. by rewrite IH, (toJSON_selected _ _ _ Hty E).
Qed.

(** Deleting what a query selected leaves exactly what it did not select. *)
Lemma delete_selected fqdn ty rs :
  List.filter
    (fun r => negb (bool_decide (r ∈ List.filter (selects fqdn ty) rs))) rs =
  List.filter (fun r => negb (selects fqdn ty r)) rs.
Proof.
  apply filter_ext_in. intros r Hr. f_equal.
  destruct (selects fqdn ty r) eqn:E.
  - apply bool_decide_eq_true. apply list_elem_of_In, filter_In. by split.
  - apply bool_decide_eq_false. intros [_ H]%list_elem_of_In%filter_In. congruence.
Qed.

Lemma filter_selects_rest fqdn ty rs :
  List.filter (selects fqdn ty)
    (List.filter (fun r => negb (selects fqdn ty r)) rs) = [].
Proof.
  induction rs as [|r rs IH]; [reflexivity|]. cbn.
  destruct (selects fqdn ty r) eqn:E; cbn; [exact IH|]. by rewrite E.
Qed.

Lemma getRecordsByType_run aType ty aName this w :
  validateType (JS.Str aType) = Ok ty ->
  getRecordsByType (JS.Str aType) (JS.Str aName) (this, w) =
    (Ok (List.filter (selects (aName +:+ "." +:+ DOMAIN) (JS.toUpperCase ty))
           (rrsets w)), (this, w)).
Proof. intros H. unfold getRecordsByType, bind. rewrite H. reflexivity. Qed.

Lemma createRecord_run aType ty aName aValue :
  validateType (JS.Str aType) = Ok ty ->
  createRecord (JS.Str aType) (JS.Str aName) aValue =
    Ok (mkRecord (JS.toLowerCase aName +:+ "." +:+ DOMAIN)
          (List.filter (fun value => negb (String.eqb EmptyString value))
             (map JS.trim (JS.split JS.LF (JS.ToString (JS.or_empty aValue)))))
          ty DEFAULT_TTL).
Proof.
  intros H. unfold createRecord. rewrite H, or_empty_Str. cbn [JS.ToString].
  by rewrite !append_empty_r.
Qed.

(** What a change that replaces the record sets selected by [(fqdn, ty)]
    with [r] leaves in the zone. *)
Lemma createChange_replace fqdn ty r w :
  JS.toUpperCase ty = ty ->
  (Zone.createChange (mkChange [r] (List.filter (selects fqdn ty) (rrsets w))) w) =
    (Ok tt,
     mkWorld (domains w)
       (List.filter (fun r' => negb (selects fqdn ty r')) (rrsets w) ++ [Zone.toJSON r])
       (changes w ++
          [mkChange [Zone.toJSON r] (List.filter (selects fqdn ty) (rrsets w))])).
Proof.
  intros Hty. unfold Zone.createChange. cbn [add delete map].
  by rewrite (map_toJSON_selected _ _ _ Hty), delete_selected.
Qed.

Lemma deleteRecords_selected fqdn ty w :
  JS.toUpperCase ty = ty ->
  (Zone.deleteRecords (List.filter (selects fqdn ty) (rrsets w)) w) =
    (Ok tt,
     mkWorld (domains w)
       (List.filter (fun r' => negb (selects fqdn ty r')) (rrsets w))
       (changes w ++ [mkChange [] (List.filter (selects fqdn ty) (rrsets w))])).
Proof.
  intros Hty. unfold Zone.deleteRecords, Zone.createChange. cbn [add delete map].
  by rewrite (map_toJSON_selected _ _ _ Hty), delete_selected, app_nil_r.
Qed.

(** ** updateRecord *)

Section UpdateRecord.

Variables (this : Subdomain) (w : World) (d : Doc).
Variables (aType ty aName : string).
Hypothesis Hcoherent : coherent (this, w).
Hypothesis Hdoc : domains w !! _docRef this = Some d.
Hypothesis Htype : validateType (JS.Str aType) = Ok ty.
Hypothesis Howned :
  includes_opt (JS.pop (JS.split "." (JS.toLowerCase aName))) (subdomains d) = true.

Let fqdn : string := aName +:+ "." +:+ DOMAIN.
Let TY : string := JS.toUpperCase ty.

(** The state [updateRecord] leaves: the name is tracked, the record sets
    selected by the raw name and the type are gone, the new one is there,
    and the zone has been sent one change that deletes the former and adds
    the latter. *)
Lemma updateRecord_run (aNewValue : JS.value) (r : Record_) :
  createRecord (JS.Str aType) (JS.Str aName) aNewValue = Ok r ->
  exists this' d',
    updateRecord (JS.Str aType) (JS.Str aName) aNewValue (this, w) =
      (Ok tt,
       (this',
        mkWorld (<[_docRef this := d']> (domains w))
          (List.filter (fun r' => negb (selects fqdn TY r')) (rrsets w)
             ++ [Zone.toJSON r])
          (changes w ++
             [mkChange [Zone.toJSON r] (List.filter (selects fqdn TY) (rrsets w))])))
    /\ _docRef this' = _docRef this
    /\ created_by d' = created_by d /\ created_date d' = created_date d
    /\ (forall x, x ∈ subdomains d' <->
                  x ∈ subdomains d \/ x = JS.toLowerCase aName).
Proof.
  intros Hr. unfold updateRecord. unfold bind at 1.
  rewrite (addSubdomain_run _ _ _ _ Hcoherent Hdoc). cbn zeta. rewrite Howned.
  assert (JS.toUpperCase TY = TY) as HTY by apply toUpperCase_idem.
  unfold fqdn, TY in *.
  destruct (JS.includes (JS.toLowerCase aName) (subdomains d)) eqn:Hin.
  - exists (mkSubdomain (_docRef this) (Some (subdomains d))), d.
    unfold bind at 1. rewrite (getRecordsByType_run _ _ _ _ _ Htype).
    unfold bind. rewrite Hr. cbn [lift_result io rrsets].
    rewrite (createChange_replace _ _ r w HTY).
    rewrite (insert_id _ _ _ Hdoc). destruct w; cbn.
    split_and!; try done.
    intros x. apply includes_spec in Hin. split; [by left|].
    intros [?| ->]; done.
  - exists (mkSubdomain (_docRef this) None),
      (mkDoc (created_by d) (created_date d)
         (Firestore.arrayUnion (JS.toLowerCase aName) (subdomains d))).
    unfold bind at 1. rewrite (getRecordsByType_run _ _ _ _ _ Htype).
    unfold bind. rewrite Hr. cbn [lift_result io rrsets].
    match goal with
    | |- context [Zone.createChange _ ?w'] =>
        rewrite (createChange_replace _ _ r w' HTY)
    end.
    cbn. split_and!; try done. intros x. apply arrayUnion_spec.
Qed.

End UpdateRecord.

(** C3. For a tenant that owns ["base"] and any whitelisted type, after
    [updateRecord(type, "www.base", "1.2.3.4")] the query
    [getRecordsByType(type, "www.base")] returns exactly one record set,
    with data [["1.2.3.4"]], and ["www.base"] is tracked by the tenant.
    Whatever the new value, the zone is sent one change that deletes every
    record set the query selected before and adds the new one; nothing is
    compared with the old value. *)
Theorem updateRecord_then_getRecordsByType
  (this : Subdomain) (w : World) (d : Doc) (aType ty : string) :
  coherent (this, w) ->
  domains w !! _docRef this = Some d ->
  "base" ∈ subdomains d ->
  validateType (JS.Str aType) = Ok ty ->
  let fqdn := "www.base.u-tokyo.app." in
  let TY := JS.toUpperCase ty in
  let update v := updateRecord (JS.Str aType) (JS.Str "www.base") v (this, w) in
  (update (JS.Str "1.2.3.4")).1 = Ok tt /\
  (getRecordsByType (JS.Str aType) (JS.Str "www.base")
     (update (JS.Str "1.2.3.4")).2).1 =
    Ok [mkRecord fqdn ["1.2.3.4"] TY DEFAULT_TTL] /\
  (exists d', domains (update (JS.Str "1.2.3.4")).2.2 !! _docRef this = Some d' /\
              "www.base" ∈ subdomains d') /\
  (forall aNewValue r,
     createRecord (JS.Str aType) (JS.Str "www.base") aNewValue = Ok r ->
     (update aNewValue).1 = Ok tt /\
     changes (update aNewValue).2.2 =
       changes w ++
       [mkChange [Zone.toJSON r] (List.filter (selects fqdn TY) (rrsets w))] /\
     rrsets (update aNewValue).2.2 =
       List.filter (fun r' => negb (selects fqdn TY r')) (rrsets w) ++
       [Zone.toJSON r]).
Proof.
  intros Hc Hd Hbase Hty fqdn TY update.
  assert (includes_opt (JS.pop (JS.split "." (JS.toLowerCase "www.base")))
            (subdomains d) = true) as Howned
    by (change (JS.includes "base" (subdomains d) = true); by apply includes_spec).
  pose proof (updateRecord_run this w d aType ty "www.base" Hc Hd Hty Howned)
    as Hrun. cbv zeta in Hrun.
  change ("www.base" +:+ "." +:+ DOMAIN) with fqdn in Hrun. fold TY in Hrun.
  assert (forall aNewValue r,
            createRecord (JS.Str aType) (JS.Str "www.base") aNewValue = Ok r ->
            (update aNewValue).1 = Ok tt /\
            changes (update aNewValue).2.2 =
              changes w ++
              [mkChange [Zone.toJSON r] (List.filter (selects fqdn TY) (rrsets w))] /\
            rrsets (update aNewValue).2.2 =
              List.filter (fun r' => negb (selects fqdn TY r')) (rrsets w) ++
              [Zone.toJSON r]) as Hany.
  { intros v r Hr. destruct (Hrun v r Hr) as (this' & d' & Heq & _).
    subst update. cbv beta. by rewrite Heq. }
  pose proof (createRecord_run aType ty "www.base" (JS.Str "1.2.3.4") Hty) as Hr.
  change (createRecord (JS.Str aType) (JS.Str "www.base") (JS.Str "1.2.3.4") =
          Ok (mkRecord fqdn ["1.2.3.4"] ty DEFAULT_TTL)) in Hr.
  destruct (Hrun _ _ Hr) as (this' & d' & Heq & Hid & _ & _ & Hsub).
  split_and!; [exact (proj1 (Hany _ _ Hr))| | |exact Hany].
  - subst update. cbv beta. rewrite Heq. cbn [snd].
    rewrite (getRecordsByType_run _ _ _ _ _ Hty). cbn [fst rrsets].
    change ("www.base" +:+ "." +:+ DOMAIN) with fqdn. fold TY.
    rewrite List.filter_app, filter_selects_rest. cbn.
    by rewrite !String.eqb_refl.
  - exists d'. subst update. cbv beta. rewrite Heq. cbn.
    rewrite lookup_insert_eq. split; [done|]. apply Hsub. by right.
Qed.

Lemma updateRecord_then_getRecordsByType_witness :
  let fqdn := "www.base.u-tokyo.app." in
  let TY := JS.toUpperCase "a" in
  let update v :=
    updateRecord (JS.Str "A") (JS.Str "www.base") v (demo_this, demo_world) in
  (update (JS.Str "1.2.3.4")).1 = Ok tt /\
  (getRecordsByType (JS.Str "A") (JS.Str "www.base")
     (update (JS.Str "1.2.3.4")).2).1 =
    Ok [mkRecord fqdn ["1.2.3.4"] TY DEFAULT_TTL] /\
  (exists d', domains (update (JS.Str "1.2.3.4")).2.2 !! "tenant-1" = Some d' /\
              "www.base" ∈ subdomains d') /\
  (forall aNewValue r,
     createRecord (JS.Str "A") (JS.Str "www.base") aNewValue = Ok r ->
     (update aNewValue).1 = Ok tt /\
     changes (update aNewValue).2.2 =
       changes demo_world ++
       [mkChange [Zone.toJSON r]
          (List.filter (selects fqdn TY) (rrsets demo_world))] /\
     rrsets (update aNewValue).2.2 =
       List.filter (fun r' => negb (selects fqdn TY r')) (rrsets demo_world) ++
       [Zone.toJSON r]).
Proof.
  apply (updateRecord_then_getRecordsByType demo_this demo_world demo_doc "A" "a").
  - exact I.
  - reflexivity.
  - constructor.
  - reflexivity.
Defined.

(** ** deleteRecord *)

Lemma getRecords_run subdomain this w :
  getRecords subdomain (this, w) =
    (Ok (List.filter
           (fun r => String.eqb (rname r) (subdomain +:+ "." +:+ DOMAIN) && true)
           (rrsets w)), (this, w)).
Proof. reflexivity. Qed.

Lemma getAllSubdomains_world s : (getAllSubdomains s).2.2 = s.2.
Proof.
  destruct s as [[id [l|]] w]; unfold getAllSubdomains, bind; cbn; [reflexivity|].
  by destruct (domains w !! id).
Qed.

(** On a bare label [deleteRecord] writes nothing to the tenant documents,
    whatever the type, the instance and the zone. *)
Lemma deleteRecord_base_domains aType aName s :
  JS.includes_char "." aName = false ->
  domains (deleteRecord aType (JS.Str aName) s).2.2 = domains s.2.
Proof.
  intros Hbase. destruct s as [[id cache] w].
  unfold deleteRecord, assertSubdomain. rewrite or_empty_Str.
  unfold bind at 1 2. cbn [call_toLowerCase lift_result].
  unfold bind at 1.
  pose proof (getAllSubdomains_world (mkSubdomain id cache, w)) as Hw.
  destruct (getAllSubdomains (mkSubdomain id cache, w)) as [[l|e] [this1 w1]].
  - cbn in Hw. subst w1.
    destruct (negb (includes_opt _ l)); [reflexivity|].
    unfold ret at 1. unfold bind at 1, getRecordsByType, bind at 1.
    destruct (validateType aType) as [ty|e]; [|reflexivity].
    cbn [lift_result]. unfold bind at 1. cbn [io Zone.getRecords].
    unfold bind at 1. cbn [io Zone.deleteRecords Zone.createChange].
    rewrite split_short, includes_dot_toLowerCase, Hbase. reflexivity.
  - cbn in Hw. by subst w1.
Qed.

Section DeleteRecord.

Variables (this : Subdomain) (w : World) (d : Doc).
Variables (aType ty aName : string).
Hypothesis Hcoherent : coherent (this, w).
Hypothesis Hdoc : domains w !! _docRef this = Some d.
Hypothesis Htype : validateType (JS.Str aType) = Ok ty.
Hypothesis Howned :
  includes_opt (JS.pop (JS.split "." (JS.toLowerCase aName))) (subdomains d) = true.

Lemma deleteRecord_run :
  let leaf := JS.toLowerCase aName in
  let rest :=
    List.filter
      (fun r => negb (selects (aName +:+ "." +:+ DOMAIN) (JS.toUpperCase ty) r))
      (rrsets w) in
  let log :=
    changes w ++
    [mkChange []
       (List.filter (selects (aName +:+ "." +:+ DOMAIN) (JS.toUpperCase ty))
          (rrsets w))] in
  let left :=
    List.filter
      (fun r => String.eqb (rname r) (leaf +:+ "." +:+ DOMAIN) && true) rest in
  deleteRecord (JS.Str aType) (JS.Str aName) (this, w) =
    if JS.includes_char "." aName && (length left <? 1)%nat then
      (Ok tt,
       (mkSubdomain (_docRef this) None,
        mkWorld
          (<[_docRef this :=
               mkDoc (created_by d) (created_date d)
                 (Firestore.arrayRemove leaf (subdomains d))]> (domains w))
          rest log))
    else
      (Ok tt,
       (mkSubdomain (_docRef this) (Some (subdomains d)),
        mkWorld (domains w) rest log)).
Proof.
  intros leaf rest log left. unfold deleteRecord. unfold bind at 1.
  rewrite (assertSubdomain_run _ _ _ _ Hcoherent Hdoc), Howned.
  unfold bind at 1. rewrite (getRecordsByType_run _ _ _ _ _ Htype).
  unfold bind at 1. unfold io at 1.
  rewrite (deleteRecords_selected _ _ w (toUpperCase_idem ty)).
  fold leaf rest log.
  rewrite split_short. unfold leaf at 1. rewrite includes_dot_toLowerCase.
  destruct (JS.includes_char "." aName) eqn:Hdot; [|reflexivity].
  cbn [negb andb]. unfold bind. rewrite getRecords_run. cbn [rrsets].
  fold left. destruct (length left <? 1)%nat; [|reflexivity].
  unfold unawaited. rewrite removeSubdomain_run.
  unfold leaf at 1. rewrite includes_dot_toLowerCase, Hdot.
  cbn [_docRef domains]. rewrite Hdoc.
  unfold leaf. by rewrite toLowerCase_idem.
Qed.

End DeleteRecord.

(** C4. For a tenant and a name it owns, [deleteRecord(type, name)] with a
    whitelisted type deletes every record set of that name and type and no
    other.  When the name holds a dot and no record set is left under the
    lower-cased name, that name is taken out of the tracked list; when some
    are left, the list stays.  A name without a dot never changes any
    tenant document, whatever the type and however many records remain. *)
Theorem deleteRecord_leaf_and_base
  (this : Subdomain) (w : World) (d : Doc) (aType ty aName : string) :
  coherent (this, w) ->
  domains w !! _docRef this = Some d ->
  validateType (JS.Str aType) = Ok ty ->
  includes_opt (JS.pop (JS.split "." (JS.toLowerCase aName))) (subdomains d) = true ->
  let leaf := JS.toLowerCase aName in
  let after := deleteRecord (JS.Str aType) (JS.Str aName) (this, w) in
  after.1 = Ok tt /\
  rrsets after.2.2 =
    List.filter
      (fun r => negb (selects (aName +:+ "." +:+ DOMAIN) (JS.toUpperCase ty) r))
      (rrsets w) /\
  (getRecordsByType (JS.Str aType) (JS.Str aName) after.2).1 = Ok [] /\
  (JS.includes_char "." aName = true ->
   ((getRecords leaf after.2).1 = Ok [] ->
    domains after.2.2 =
      <[_docRef this :=
          mkDoc (created_by d) (created_date d)
            (Firestore.arrayRemove leaf (subdomains d))]> (domains w) /\
    leaf ∉ Firestore.arrayRemove leaf (subdomains d)) /\
   ((getRecords leaf after.2).1 <> Ok [] -> domains after.2.2 = domains w)) /\
  (forall aType' s, JS.includes_char "." aName = false ->
     domains (deleteRecord aType' (JS.Str aName) s).2.2 = domains s.2).
Proof.
  intros Hc Hd Hty Hown leaf after.
  pose proof (deleteRecord_run this w d aType ty aName Hc Hd Hty Hown) as Hrun.
  cbv zeta in Hrun. fold leaf in Hrun.
  set (rest := List.filter _ (rrsets w)) in Hrun |- *.
  set (left := List.filter _ rest) in Hrun.
  assert (rrsets after.2.2 = rest /\ after.1 = Ok tt) as [Hrest Hok].
  { subst after. rewrite Hrun. by destruct (_ && _). }
  assert (forall t, (getRecords leaf (t, after.2.2)).1 = Ok left) as Hleft.
  { intros t. rewrite getRecords_run. cbn [fst]. by rewrite Hrest. }
  split_and!; [exact Hok|exact Hrest| | |].
  - destruct after.2 as [t w'] eqn:E. cbn [snd] in Hrest.
    rewrite (getRecordsByType_run _ _ _ _ _ Hty). cbn [fst]. rewrite Hrest.
    unfold rest. by rewrite filter_selects_rest.
  - intros Hdot. destruct after.2 as [t w'] eqn:E. cbn [snd] in *.
    rewrite (Hleft t). subst after. rewrite Hrun, Hdot in E. cbn [andb] in E.
    destruct left as [|r left']; cbn in E; injection E as <- <-; cbn [domains].
    + split; [intros _|done]. split; [reflexivity|].
      intros [_ Hne]%arrayRemove_spec. done.
    + split; [discriminate|done].
  - intros aType' s. apply deleteRecord_base_domains.
Qed.

Lemma deleteRecord_leaf_and_base_witness :
  let leaf := JS.toLowerCase "www.base" in
  let after :=
    deleteRecord (JS.Str "a") (JS.Str "www.base") (demo_this, demo_leaf_world) in
  after.1 = Ok tt /\
  rrsets after.2.2 =
    List.filter
      (fun r => negb (selects ("www.base" +:+ "." +:+ DOMAIN) (JS.toUpperCase "a") r))
      (rrsets demo_leaf_world) /\
  (getRecordsByType (JS.Str "a") (JS.Str "www.base") after.2).1 = Ok [] /\
  (JS.includes_char "." "www.base" = true ->
   ((getRecords leaf after.2).1 = Ok [] ->
    domains after.2.2 =
      <["tenant-1" :=
          mkDoc (created_by demo_leaf_doc) (created_date demo_leaf_doc)
            (Firestore.arrayRemove leaf (subdomains demo_leaf_doc))]>
        (domains demo_leaf_world) /\
    leaf ∉ Firestore.arrayRemove leaf (subdomains demo_leaf_doc)) /\
   ((getRecords leaf after.2).1 <> Ok [] ->
    domains after.2.2 = domains demo_leaf_world)) /\
  (forall aType' s, JS.includes_char "." "www.base" = false ->
     domains (deleteRecord aType' (JS.Str "www.base") s).2.2 = domains s.2).
Proof.
  apply (deleteRecord_leaf_and_base demo_this demo_leaf_world demo_leaf_doc
           "a" "a" "www.base").
  - exact I.
  - reflexivity.
  - reflexivity.
  - reflexivity.
Defined.

(** ** Formatting records *)

Lemma endsWith_app x suffix : JS.endsWith (x +:+ suffix) suffix = true.
Proof.
  induction x as [|c x IH].
  - rewrite app_nil_l. destruct suffix; cbn; by rewrite ?String.eqb_refl, ?Ascii.eqb_refl.
  - rewrite app_cons. cbn. rewrite IH. apply orb_true_r.
Qed.

Lemma take_app x suffix : JS.take (String.length x) (x +:+ suffix) = x.
Proof.
  induction x as [|c x IH]; [by destruct suffix|].
  rewrite app_cons. cbn. by rewrite IH.
Qed.

Lemma length_app x y :
  String.length (x +:+ y) = (String.length x + String.length y)%nat.
Proof.
  induction x as [|c x IH]; [reflexivity|]. rewrite app_cons. cbn. by rewrite IH.
Qed.

(** Cutting a suffix off, provided there is one: [s.slice(0, -0)] is empty. *)
Lemma slice0_app x suffix :
  suffix <> EmptyString ->
  JS.slice0 (x +:+ suffix) (- Z.of_nat (String.length suffix)) = x.
Proof.
  intros Hne. unfold JS.slice0. cbv zeta. rewrite length_app.
  replace (Z.to_nat _) with (String.length x); [apply take_app|].
  assert (0 < String.length suffix)%nat by (destruct suffix; [done|cbn; lia]).
  destruct (Z.ltb_spec (- Z.of_nat (String.length suffix)) 0); lia.
Qed.

Lemma formatRecord_qualified n dat t tl :
  formatRecord (mkRecord (n +:+ "." +:+ DOMAIN) dat t tl) =
    mkFormatted (JS.toLowerCase n) (JS.join JS.NL dat) (JS.toUpperCase t).
Proof.
  unfold formatRecord. cbn [rname rdata rtype].
  by rewrite endsWith_app, slice0_app.
Qed.

Lemma trimEnd_idem s : JS.trimEnd (JS.trimEnd s) = JS.trimEnd s.
Proof.
  induction s as [|c s IH]; [reflexivity|]. cbn.
  destruct (JS.trimEnd s) as [|a t] eqn:E.
  - destruct (JS.is_space c) eqn:Hc; [reflexivity|]. cbn. by rewrite Hc.
  - cbn. cbn in IH. by rewrite IH.
Qed.

Lemma trimStart_head s :
  JS.trimStart s = EmptyString \/
  exists c t, JS.trimStart s = String c t /\ JS.is_space c = false.
Proof.
  induction s as [|c s IH]; [by left|]. cbn.
  destruct (JS.is_space c) eqn:Hc; [exact IH|]. right. eauto.
Qed.

Lemma trimEnd_head c t :
  JS.is_space c = false -> exists t', JS.trimEnd (String c t) = String c t'.
Proof. intros Hc. cbn. rewrite Hc. destruct (JS.trimEnd t); eauto. Qed.

Lemma trim_idem s : JS.trim (JS.trim s) = JS.trim s.
Proof.
  unfold JS.trim.
  assert (JS.trimStart (JS.trimEnd (JS.trimStart s)) = JS.trimEnd (JS.trimStart s))
    as ->; [|apply trimEnd_idem].
  destruct (trimStart_head s) as [->|(c & t & -> & Hc)]; [reflexivity|].
  destruct (trimEnd_head c t Hc) as (t' & ->). cbn. by rewrite Hc.
Qed.

Lemma trim_no_char c s :
  JS.includes_char c s = false -> JS.includes_char c (JS.trim s) = false.
Proof.
  intros H. unfold JS.trim.
  assert (JS.includes_char c (JS.trimStart s) = false) as H'.
  { induction s as [|a s IH]; [reflexivity|]. cbn in *.
    apply orb_false_iff in H as [Ha Hs].
    destruct (JS.is_space a); [by apply IH|]. cbn. by rewrite Ha, Hs. }
  clear H. induction (JS.trimStart s) as [|a t IH]; [reflexivity|].
  cbn in *. apply orb_false_iff in H' as [Ha Ht]. specialize (IH Ht).
  destruct (JS.trimEnd t); [destruct (JS.is_space a)|]; cbn in *;
    rewrite ?Ha, ?IH; reflexivity.
Qed.

Lemma lines_are_lines value : Forall is_line (lines value).
Proof.
  unfold lines. apply List.Forall_forall. intros x [Hx Hne]%filter_In.
  apply in_map_iff in Hx as (y & <- & Hy).
  split_and!.
  - intros E. rewrite E in Hne. discriminate.
  - apply trim_no_char.
    pose proof (split_segments JS.LF value) as HF.
    rewrite List.Forall_forall in HF. by apply HF.
  - apply trim_idem.
Qed.

Lemma split_app_sep sep x t :
  JS.includes_char sep x = false ->
  JS.split sep (x +:+ String sep t) = x :: JS.split sep t.
Proof.
  induction x as [|c x IH]; intros H.
  - rewrite app_nil_l. cbn. by rewrite Ascii.eqb_refl.
  - rewrite app_cons. cbn in *. apply orb_false_iff in H as [Hc Hx].
    by rewrite Hc, (IH Hx).
Qed.

(** Joining lines with line feeds and splitting them again is the identity. *)
Lemma lines_join l : Forall is_line l -> lines (JS.join JS.NL l) = l.
Proof.
  unfold lines. induction l as [|x l IH]; intros HF; [reflexivity|].
  inversion HF as [|? ? (Hne & Hlf & Htrim) HF']; subst.
  assert (negb (String.eqb EmptyString x) = true) as Hkeep.
  { apply negb_true_iff, String.eqb_neq. congruence. }
  destruct l as [|y l'].
  - cbn [JS.join]. rewrite (split_no_sep _ _ Hlf). cbn [map List.filter].
    by rewrite Htrim, Hkeep.
  - change (JS.join JS.NL (x :: y :: l'))
      with (x +:+ String JS.LF (JS.join JS.NL (y :: l'))).
    rewrite (split_app_sep _ _ _ Hlf). cbn [map List.filter].
    by rewrite Htrim, Hkeep, (IH HF').
Qed.

Lemma whitelisted_case ty :
  JS.includes ty TYPE_WHITELIST = true ->
  JS.toLowerCase (JS.toUpperCase ty) = ty.
Proof.
  intros H%includes_spec. unfold TYPE_WHITELIST in H.
  repeat (apply elem_of_cons in H as [->|H]; [reflexivity|]).
  by apply elem_of_nil in H.
Qed.

Lemma validateType_Ok_includes aType ty :
  validateType aType = Ok ty -> JS.includes ty TYPE_WHITELIST = true.
Proof.
  unfold validateType. destruct (JS.includes _ _) eqn:E; [|discriminate].
  cbn. by intros [= <-].
Qed.

(** C6. Formatting undoes what writing did to a record: the suffix
    [".u-tokyo.app."] is cut from the name, the name is lower-cased, the
    data are joined with line feeds and the type is upper-cased.  The
    record of the example formats as stated, and writing the formatted
    fields again gives back the very record [createRecord] had built. *)
Theorem formatRecord_inverts_createRecord :
  formatRecord
    (mkRecord "www.base.u-tokyo.app." ["1.2.3.4"; "5.6.7.8"] "A" 300) =
    mkFormatted "www.base" ("1.2.3.4" +:+ JS.NL +:+ "5.6.7.8") "A" /\
  (getRecordsByTypeFormatted (JS.Str "a") (JS.Str "www.base")
     (demo_this,
      mkWorld ∅
        [mkRecord "www.base.u-tokyo.app." ["1.2.3.4"; "5.6.7.8"] "A" 300] [])).1 =
    Ok [mkFormatted "www.base" ("1.2.3.4" +:+ JS.NL +:+ "5.6.7.8") "A"] /\
  (forall n dat t tl,
     formatRecord (mkRecord (n +:+ "." +:+ DOMAIN) dat t tl) =
       mkFormatted (JS.toLowerCase n) (JS.join JS.NL dat) (JS.toUpperCase t)) /\
  (forall aType aName aValue r,
     createRecord aType aName aValue = Ok r ->
     createRecord (JS.Str (type (formatRecord r)))
       (JS.Str (name (formatRecord r))) (JS.Str (data (formatRecord r))) = Ok r).
Proof.
  split; [reflexivity|]. split; [reflexivity|].
  split; [exact formatRecord_qualified|].
  intros aType aName aValue r. unfold createRecord at 1.
  destruct (validateType aType) as [ty|] eqn:Hty; [|discriminate].
  intros [= <-]. unfold Zone.record. rewrite formatRecord_qualified.
  cbn [type name data].
  pose proof (validateType_Ok_includes _ _ Hty) as Hwl.
  assert (validateType (JS.Str (JS.toUpperCase ty)) = Ok ty) as Hty'.
  { by rewrite validateType_Str, (whitelisted_case _ Hwl), Hwl. }
  rewrite (createRecord_run _ _ _ _ Hty'), or_empty_Str. cbn [JS.ToString].
  rewrite !toLowerCase_idem.
  pose proof (lines_join _
                (lines_are_lines (JS.ToString (JS.or_empty aValue) +:+ EmptyString)))
    as Hlines.
  unfold lines in Hlines. do 2 f_equal. exact Hlines.
Qed.

(** * Further properties of the class *)

(** ** The cached list *)

Lemma getAllSubdomains_view s :
  getAllSubdomains s =
    match view s with
    | Some l => (Ok l, (mkSubdomain (_docRef s.1) (Some l), s.2))
    | None => (Throw TenantNotFound, s)
    end.
Proof.
  destruct s as [[id [l|]] w]; unfold view, getAllSubdomains, bind; cbn;
    [reflexivity|].
  by destruct (domains w !! id).
Qed.

Lemma view_cached id l w : view (mkSubdomain id (Some l), w) = Some l.
Proof. reflexivity. Qed.

Lemma view_coherent this w d :
  coherent (this, w) -> domains w !! _docRef this = Some d ->
  view (this, w) = Some (subdomains d).
Proof.
  destruct this as [id [l|]]; unfold coherent, view; cbn.
  - intros (d' & Hd' & <-) Hd. congruence.
  - by intros _ ->.
Qed.

Lemma view_missing this w :
  coherent (this, w) -> domains w !! _docRef this = None -> view (this, w) = None.
Proof.
  destruct this as [id [l|]]; unfold coherent, view; cbn.
  - intros (d & Hd & _) Hn. congruence.
  - by intros _ ->.
Qed.

Lemma assertSubdomain_view s aSubdomain :
  assertSubdomain (JS.Str aSubdomain) s =
    match view s with
    | Some l =>
        (if owns l aSubdomain then Ok (JS.toLowerCase aSubdomain)
         else Throw OwnershipMismatch,
         (mkSubdomain (_docRef s.1) (Some l), s.2))
    | None => (Throw TenantNotFound, s)
    end.
Proof.
  unfold assertSubdomain. rewrite or_empty_Str.
  unfold bind at 1. cbn [call_toLowerCase lift_result].
  unfold bind. rewrite getAllSubdomains_view.
  destruct (view s) as [l|]; [|reflexivity].
  unfold owns. by destruct (includes_opt _ _).
Qed.

Lemma addSubdomain_view s aSubdomain :
  addSubdomain (JS.Str aSubdomain) s =
    match view s with
    | Some l =>
        let this' := mkSubdomain (_docRef s.1) (Some l) in
        if owns l aSubdomain then
          if JS.includes (JS.toLowerCase aSubdomain) l then (Ok tt, (this', s.2))
          else
            match domains s.2 !! _docRef s.1 with
            | Some d =>
                (Ok tt,
                 (mkSubdomain (_docRef s.1) None,
                  mkWorld
                    (<[_docRef s.1 :=
                         mkDoc (created_by d) (created_date d)
                           (Firestore.arrayUnion (JS.toLowerCase aSubdomain)
                              (subdomains d))]> (domains s.2))
                    (rrsets s.2) (changes s.2)))
            | None => (Throw StoreNotFound, (this', s.2))
            end
        else (Throw OwnershipMismatch, (this', s.2))
    | None => (Throw TenantNotFound, s)
    end.
Proof.
  unfold addSubdomain. unfold bind at 1. rewrite assertSubdomain_view.
  destruct (view s) as [l|]; [|reflexivity]. cbn zeta.
  destruct (owns l aSubdomain); [|reflexivity].
  unfold bind at 1. rewrite getAllSubdomains_view, view_cached. cbn [fst snd _docRef].
  destruct (JS.includes _ l); [reflexivity|]. cbn [negb].
  unfold bind, io, Firestore.doc_update. cbn.
  by destruct (domains s.2 !! _docRef s.1).
Qed.

(** X1. A first [getAllSubdomains] on a fresh instance of an existing
    tenant returns the stored list; from then on the instance answers with
    that list whatever the store holds, even if the document is gone.  For a
    missing document it throws and caches nothing. *)
Theorem getAllSubdomains_reads_once (id : string) (w : World) (d : Doc) :
  domains w !! id = Some d ->
  let first := getAllSubdomains (mkSubdomain id None, w) in
  first.1 = Ok (subdomains d) /\
  first.2.2 = w /\
  (forall w', getAllSubdomains (first.2.1, w') = (Ok (subdomains d), (first.2.1, w'))) /\
  (forall w', domains w' !! id = None ->
     getAllSubdomains (mkSubdomain id None, w') =
       (Throw TenantNotFound, (mkSubdomain id None, w'))).
Proof.
  intros Hd first.
  assert (first = (Ok (subdomains d), (mkSubdomain id (Some (subdomains d)), w)))
    as ->.
  { subst first. rewrite getAllSubdomains_view. unfold view. cbn. by rewrite Hd. }
  split_and!; try reflexivity.
  intros w' Hw'. rewrite getAllSubdomains_view. unfold view. cbn. by rewrite Hw'.
Qed.

Lemma getAllSubdomains_reads_once_witness :
  let first := getAllSubdomains (demo_this, demo_world) in
  first.1 = Ok (subdomains demo_doc) /\
  first.2.2 = demo_world /\
  (forall w', getAllSubdomains (first.2.1, w') =
              (Ok (subdomains demo_doc), (first.2.1, w'))) /\
  (forall w', domains w' !! "tenant-1" = None ->
     getAllSubdomains (mkSubdomain "tenant-1" None, w') =
       (Throw TenantNotFound, (mkSubdomain "tenant-1" None, w'))).
Proof.
  apply (getAllSubdomains_reads_once "tenant-1" demo_world demo_doc).
  reflexivity.
Defined.

(** ** Ownership *)

Lemma bare_spec l x : x ∈ bare l <-> x ∈ l /\ JS.includes_char "." x = false.
Proof.
  unfold bare. rewrite !list_elem_of_In, filter_In, negb_true_iff. reflexivity.
Qed.

Lemma owns_spec l aSubdomain :
  owns l aSubdomain = true <->
  exists b, JS.pop (JS.split "." (JS.toLowerCase aSubdomain)) = Some b /\ b ∈ l.
Proof.
  unfold owns. destruct (JS.pop _) as [b|]; cbn.
  - rewrite includes_spec. split; [eauto|]. by intros (b' & [= <-] & ?).
  - split; [discriminate|]. by intros (b' & ? & _).
Qed.

Lemma owns_bare l aSubdomain : owns (bare l) aSubdomain = owns l aSubdomain.
Proof.
  apply eq_true_iff_eq. rewrite !owns_spec.
  destruct (pop_split "." (JS.toLowerCase aSubdomain)) as (b & Hb & Hn & _).
  split; intros (b' & Hb' & Hin); exists b'; (split; [done|]).
  - by apply bare_spec in Hin as [? _].
  - apply bare_spec. split; [done|]. congruence.
Qed.

(** X2. Ownership is decided by the base subdomains alone:
    [assertSubdomain] accepts a name exactly when what follows its last dot
    is one of the names [getBaseSubdomains] returns, and those are the
    tracked names without a dot, in their stored order. *)
Theorem ownership_by_base_subdomains
  (this : Subdomain) (w : World) (d : Doc) (aSubdomain : string) :
  coherent (this, w) ->
  domains w !! _docRef this = Some d ->
  (getBaseSubdomains (this, w)).1 = Ok (bare (subdomains d)) /\
  (forall x, x ∈ bare (subdomains d) <->
             x ∈ subdomains d /\ JS.includes_char "." x = false) /\
  ((assertSubdomain (JS.Str aSubdomain) (this, w)).1 =
     Ok (JS.toLowerCase aSubdomain) <->
   exists b, JS.pop (JS.split "." (JS.toLowerCase aSubdomain)) = Some b /\
             b ∈ bare (subdomains d)).
Proof.
  intros Hc Hd. split_and!.
  - unfold getBaseSubdomains, bind. rewrite getAllSubdomains_view.
    by rewrite (view_coherent _ _ _ Hc Hd).
  - intros x. apply bare_spec.
  - rewrite assertSubdomain_view, (view_coherent _ _ _ Hc Hd).
    rewrite <- owns_spec, owns_bare. cbn [fst].
    by destruct (owns (subdomains d) aSubdomain).
Qed.

Lemma ownership_by_base_subdomains_witness :
  (getBaseSubdomains (demo_this, demo_leaf_world)).1 =
    Ok (bare (subdomains demo_leaf_doc)) /\
  (forall x, x ∈ bare (subdomains demo_leaf_doc) <->
             x ∈ subdomains demo_leaf_doc /\ JS.includes_char "." x = false) /\
  ((assertSubdomain (JS.Str "Mail.Base") (demo_this, demo_leaf_world)).1 =
     Ok (JS.toLowerCase "Mail.Base") <->
   exists b, JS.pop (JS.split "." (JS.toLowerCase "Mail.Base")) = Some b /\
             b ∈ bare (subdomains demo_leaf_doc)).
Proof.
  apply (ownership_by_base_subdomains demo_this demo_leaf_world demo_leaf_doc
           "Mail.Base").
  - exact I.
  - reflexivity.
Defined.

(** ** The steps of updateRecord and deleteRecord *)

Lemma createRecord_lines aType ty aName aValue :
  validateType (JS.Str aType) = Ok ty ->
  createRecord (JS.Str aType) (JS.Str aName) aValue =
    Ok (mkRecord (qualified (JS.toLowerCase aName))
          (lines (JS.ToString (JS.or_empty aValue))) ty DEFAULT_TTL).
Proof. apply createRecord_run. Qed.

Lemma createRecord_Throw aType e aName aValue :
  validateType aType = Throw e -> createRecord aType aName aValue = Throw e.
Proof. intros H. unfold createRecord. by rewrite H. Qed.


Lemma createChange_run c w :
  Zone.createChange c w =
    (Ok tt,
     mkWorld (domains w)
       (List.filter
          (fun r => negb (bool_decide (r ∈ map Zone.toJSON (delete c))))
          (rrsets w) ++ map Zone.toJSON (add c))
       (changes w ++ [mkChange (map Zone.toJSON (add c)) (map Zone.toJSON (delete c))])).
Proof. reflexivity. Qed.

(** [updateRecord] is [addSubdomain], then the type check, then one change
    of the zone. *)
Lemma updateRecord_steps aType aName aNewValue s :
  updateRecord (JS.Str aType) (JS.Str aName) aNewValue s =
    match addSubdomain (JS.Str aName) s with
    | (Throw e, s') => (Throw e, s')
    | (Ok _, (this', w')) =>
        match validateType (JS.Str aType) with
        | Throw e => (Throw e, (this', w'))
        | Ok ty =>
            let TY := JS.toUpperCase ty in
            let r := mkRecord (qualified (JS.toLowerCase aName))
                       (lines (JS.ToString (JS.or_empty aNewValue))) TY
                       DEFAULT_TTL in
            (Ok tt,
             (this',
              mkWorld (domains w')
                (List.filter (fun r' => negb (selects (qualified aName) TY r'))
                   (rrsets w') ++ [r])
                (changes w' ++
                   [mkChange [r]
                      (List.filter (selects (qualified aName) TY) (rrsets w'))])))
        end
    end.
Proof.
  unfold updateRecord. unfold bind at 1.
  destruct (addSubdomain (JS.Str aName) s) as [[[]|e] [this' w']]; [|reflexivity].
  destruct (validateType (JS.Str aType)) as [ty|e] eqn:Hty.
  - unfold bind at 1. rewrite (getRecordsByType_run _ _ _ _ _ Hty).
    unfold bind. rewrite (createRecord_lines _ _ _ _ Hty).
    cbn [lift_result io]. fold (qualified aName).
    by rewrite (createChange_replace _ _ _ w' (toUpperCase_idem ty)).
  - unfold bind at 1, getRecordsByType, bind at 1. by rewrite Hty.
Qed.

(** [deleteRecord] is the ownership check, then the type check, then one
    deletion in the zone, then for a dotted name with nothing left under it
    the removal of the name. *)
Lemma deleteRecord_steps aType aName s :
  deleteRecord (JS.Str aType) (JS.Str aName) s =
    match assertSubdomain (JS.Str aName) s with
    | (Throw e, s') => (Throw e, s')
    | (Ok _, (this', w')) =>
        match validateType (JS.Str aType) with
        | Throw e => (Throw e, (this', w'))
        | Ok ty =>
            let TY := JS.toUpperCase ty in
            let w1 :=
              mkWorld (domains w')
                (List.filter (fun r' => negb (selects (qualified aName) TY r'))
                   (rrsets w'))
                (changes w' ++
                   [mkChange []
                      (List.filter (selects (qualified aName) TY) (rrsets w'))]) in
            if JS.includes_char "." aName &&
               (length
                  (List.filter
                     (fun r => String.eqb (rname r)
                                 (qualified (JS.toLowerCase aName)) && true)
                     (rrsets w1)) <? 1)%nat
            then (Ok tt, (removeSubdomain (JS.Str aName) (this', w1)).2)
            else (Ok tt, (this', w1))
        end
    end.
Proof.
  unfold deleteRecord. unfold bind at 1.
  pose proof (assertSubdomain_view s aName) as Hv.
  destruct (assertSubdomain (JS.Str aName) s) as [[sub|e] [this' w']];
    [|reflexivity].
  assert (sub = JS.toLowerCase aName) as ->.
  { destruct (view s); [|discriminate]. destruct (owns _ _); congruence. }
  destruct (validateType (JS.Str aType)) as [ty|e] eqn:Hty.
  - unfold bind at 1. rewrite (getRecordsByType_run _ _ _ _ _ Hty).
    unfold bind at 1. unfold io at 1. fold (qualified aName).
    rewrite (deleteRecords_selected _ _ w' (toUpperCase_idem ty)).
    rewrite split_short, includes_dot_toLowerCase.
    destruct (JS.includes_char "." aName) eqn:Hdot; [|reflexivity].
    cbn [negb andb]. unfold bind. rewrite getRecords_run.
    cbn [rrsets]. fold (qualified (JS.toLowerCase aName)).
    destruct (length _ <? 1)%nat; [|reflexivity].
    unfold unawaited. rewrite !removeSubdomain_run.
    rewrite includes_dot_toLowerCase, Hdot, toLowerCase_idem.
    cbn [domains]. by destruct (domains w' !! _docRef this').
  - unfold bind at 1, getRecordsByType, bind at 1. by rewrite Hty.
Qed.

(** ** What every mutation keeps *)

Lemma store_ok_domains w w' : domains w' = domains w -> store_ok w -> store_ok w'.
Proof.
  unfold store_ok, tenants_ok, bases_unique. intros ->. done.
Qed.

Lemma owns_dotted l aSubdomain :
  owns l aSubdomain = true ->
  JS.includes (JS.toLowerCase aSubdomain) l = false ->
  JS.includes_char "." (JS.toLowerCase aSubdomain) = true.
Proof.
  unfold owns. intros Ho Hin.
  destruct (JS.includes_char "." (JS.toLowerCase aSubdomain)) eqn:E; [done|].
  rewrite (split_no_sep _ _ E) in Ho. cbn in Ho. congruence.
Qed.

Lemma owns_dotted_raw l aSubdomain :
  owns l aSubdomain = true ->
  JS.includes (JS.toLowerCase aSubdomain) l = false ->
  JS.includes_char "." aSubdomain = true.
Proof.
  intros Ho Hin. rewrite <- includes_dot_toLowerCase. by eapply owns_dotted.
Qed.

Lemma clean_arrayUnion x l :
  clean l -> JS.toLowerCase x = x -> clean (Firestore.arrayUnion x l).
Proof.
  intros Hcl Hx. unfold Firestore.arrayUnion.
  destruct (JS.includes x l) eqn:Hin; [done|].
  destruct Hcl as (Hnd & Hlow & y & Hy & Hbare).
  assert (x ∉ l) by (intros ?%includes_spec; congruence).
  split_and!.
  - apply NoDup_app. split_and!; [done| |apply NoDup_singleton].
    intros z Hz ->%list_elem_of_singleton. done.
  - apply Forall_app. split; [done|]. by apply Forall_singleton.
  - exists y. split; [|done]. apply elem_of_app. by left.
Qed.

Lemma clean_arrayRemove x l :
  clean l -> JS.includes_char "." x = true -> clean (Firestore.arrayRemove x l).
Proof.
  intros (Hnd & Hlow & y & Hy & Hbare) Hx. split_and!.
  - unfold Firestore.arrayRemove. apply NoDup_ListNoDup, List.NoDup_filter.
    by apply NoDup_ListNoDup.
  - apply Forall_forall. intros z [Hz _]%arrayRemove_spec.
    rewrite Forall_forall in Hlow. by apply Hlow.
  - exists y. split; [|done]. apply arrayRemove_spec. split; [done|].
    intros ->. congruence.
Qed.

Lemma store_ok_arrayUnion this w d aSubdomain :
  store_ok w -> coherent (this, w) -> domains w !! _docRef this = Some d ->
  owns (subdomains d) aSubdomain = true ->
  store_ok
    (mkWorld
       (<[_docRef this :=
            mkDoc (created_by d) (created_date d)
              (Firestore.arrayUnion (JS.toLowerCase aSubdomain) (subdomains d))]>
          (domains w)) (rrsets w) (changes w)).
Proof.
  intros (Ht & Hu & Hcl) Hc Hd Ho.
  destruct (JS.includes (JS.toLowerCase aSubdomain) (subdomains d)) eqn:Hin.
  { eapply store_ok_domains; [|by split_and!]. cbn [domains].
    unfold Firestore.arrayUnion. rewrite Hin.
    destruct d. by apply insert_id. }
  pose proof (addSubdomain_run _ _ _ aSubdomain Hc Hd) as Hrun. cbn zeta in Hrun.
  unfold owns in Ho. rewrite Ho, Hin in Hrun.
  split_and!.
  - pose proof (addSubdomain_Str_invariant this w aSubdomain Ht Hc) as [H _].
    by rewrite Hrun in H.
  - pose proof (instance_methods_bases_unique this w aSubdomain Hu Hc) as [H _].
    by rewrite Hrun in H.
  - apply map_Forall_insert_2; [|done]. cbn [subdomains].
    apply clean_arrayUnion; [exact (Hcl _ _ Hd)|apply toLowerCase_idem].
Qed.

Lemma store_ok_addSubdomain this w aSubdomain :
  store_ok w -> coherent (this, w) ->
  store_ok (addSubdomain (JS.Str aSubdomain) (this, w)).2.2.
Proof.
  intros Hok Hc. rewrite addSubdomain_view. cbn [fst snd].
  destruct (domains w !! _docRef this) as [d|] eqn:Hd.
  - rewrite (view_coherent _ _ _ Hc Hd). cbn zeta.
    destruct (owns _ _) eqn:Ho; [|done].
    destruct (JS.includes _ _); [done|]. by apply store_ok_arrayUnion.
  - by rewrite (view_missing _ _ Hc Hd).
Qed.

Lemma store_ok_removeSubdomain this w subdomain :
  store_ok w -> store_ok (removeSubdomain (JS.Str subdomain) (this, w)).2.2.
Proof.
  intros (Ht & Hu & Hcl). rewrite removeSubdomain_run.
  destruct (JS.includes_char "." subdomain) eqn:Hdot; [|done].
  destruct (domains w !! _docRef this) as [d|] eqn:Hd; [|done].
  assert (coherent (mkSubdomain (_docRef this) None, w)) as Hc by exact I.
  pose proof (removeSubdomain_run (mkSubdomain (_docRef this) None) w subdomain)
    as Hrun. cbn [_docRef] in Hrun. rewrite Hdot, Hd in Hrun.
  cbn [snd]. split_and!.
  - pose proof (removeSubdomain_Str_invariant _ w subdomain Ht Hc) as [H _].
    by rewrite Hrun in H.
  - pose proof (instance_methods_bases_unique _ w subdomain Hu Hc) as [_ H].
    by rewrite Hrun in H.
  - apply map_Forall_insert_2; [|done]. cbn [subdomains].
    apply clean_arrayRemove; [exact (Hcl _ _ Hd)|].
    by rewrite includes_dot_toLowerCase.
Qed.

Lemma store_ok_createSubdomain aName aOwner id now w :
  store_ok w -> store_ok (createSubdomain aName aOwner id now w).2.
Proof.
  intros (Ht & Hu & Hcl). split_and!.
  - by apply createSubdomain_tenants_ok.
  - by apply createSubdomain_bases_unique.
  - rewrite createSubdomain_run. cbn zeta.
    destruct (Regex.matches _ _) eqn:Hm; [|done]. cbn [negb].
    destruct (Firestore.empty _); [|done]. cbn [negb snd].
    apply map_Forall_insert_2; [|done]. cbn [subdomains]. split_and!.
    + apply NoDup_singleton.
    + apply Forall_singleton, toLowerCase_idem.
    + eexists. split; [by apply list_elem_of_singleton|].
      by apply label_no_dot.
Qed.

Lemma store_ok_updateRecord this w aType aSubdomain aNewValue :
  store_ok w -> coherent (this, w) ->
  store_ok (updateRecord (JS.Str aType) (JS.Str aSubdomain) aNewValue (this, w)).2.2.
Proof.
  intros Hok Hc. rewrite updateRecord_steps.
  pose proof (store_ok_addSubdomain this w aSubdomain Hok Hc) as H.
  destruct (addSubdomain _ _) as [[[]|e] [this' w']]; [|done].
  destruct (validateType _); [|done]. cbn [snd] in *.
  by eapply store_ok_domains; [|exact H].
Qed.

Lemma store_ok_deleteRecord this w aType aSubdomain :
  store_ok w ->
  store_ok (deleteRecord (JS.Str aType) (JS.Str aSubdomain) (this, w)).2.2.
Proof.
  intros Hok. rewrite deleteRecord_steps. rewrite assertSubdomain_view.
  destruct (view (this, w)) as [l|]; [|done]. cbn [fst snd].
  destruct (owns l aSubdomain); [|done].
  destruct (validateType _); [|done]. cbn zeta.
  destruct (_ && _); cbn [snd]; [|by eapply store_ok_domains; [|exact Hok]].
  apply store_ok_removeSubdomain. by eapply store_ok_domains; [|exact Hok].
Qed.

(** X3. Every mutation keeps the tenant documents in order: each tracked
    list stays free of duplicates, in lower case, with at least one bare
    label, every dotted name ending in a tracked bare label, and no bare
    label tracked by two tenants.  This holds for [createSubdomain] and,
    from an instance whose cached list is the stored one, for
    [addSubdomain], [removeSubdomain], [updateRecord] and [deleteRecord],
    whether they succeed or throw. *)
Theorem store_ok_preserved
  (this : Subdomain) (w : World) (aName aOwner aNewValue : JS.value)
  (id : string) (now : N) (aType aSubdomain : string) :
  store_ok w ->
  coherent (this, w) ->
  store_ok (createSubdomain aName aOwner id now w).2 /\
  store_ok (addSubdomain (JS.Str aSubdomain) (this, w)).2.2 /\
  store_ok (removeSubdomain (JS.Str aSubdomain) (this, w)).2.2 /\
  store_ok (updateRecord (JS.Str aType) (JS.Str aSubdomain) aNewValue (this, w)).2.2 /\
  store_ok (deleteRecord (JS.Str aType) (JS.Str aSubdomain) (this, w)).2.2.
Proof.
  intros Hok Hc. split_and!.
  - by apply store_ok_createSubdomain.
  - by apply store_ok_addSubdomain.
  - by apply store_ok_removeSubdomain.
  - by apply store_ok_updateRecord.
  - by apply store_ok_deleteRecord.
Qed.

Lemma store_ok_preserved_witness :
  store_ok
    (createSubdomain (JS.Str "site") (JS.Str "0123456789") "id-2" 1
       demo_leaf_world).2 /\
  store_ok (addSubdomain (JS.Str "mail.base") (demo_this, demo_leaf_world)).2.2 /\
  store_ok (removeSubdomain (JS.Str "mail.base") (demo_this, demo_leaf_world)).2.2 /\
  store_ok
    (updateRecord (JS.Str "txt") (JS.Str "mail.base") (JS.Str "hello")
       (demo_this, demo_leaf_world)).2.2 /\
  store_ok
    (deleteRecord (JS.Str "txt") (JS.Str "mail.base")
       (demo_this, demo_leaf_world)).2.2.
Proof.
  apply (store_ok_preserved demo_this demo_leaf_world (JS.Str "site")
           (JS.Str "0123456789") (JS.Str "hello") "id-2" 1 "txt" "mail.base").
  - unfold store_ok, tenants_ok, bases_unique, demo_leaf_world. cbn [domains].
    split_and!.
    + by apply map_Forall_singleton.
    + intros i1 i2 d1 d2 x [<- _]%lookup_singleton_Some [<- _]%lookup_singleton_Some.
      done.
    + apply map_Forall_singleton. cbn. split_and!.
      * apply NoDup_cons. split; [|apply NoDup_singleton].
        by intros ?%list_elem_of_singleton.
      * by repeat constructor.
      * exists "base". split; [constructor|reflexivity].
  - exact I.
Defined.

(** ** Base subdomains are fixed at creation *)

Lemma same_bases_refl w : same_bases w w.
Proof. by intros id. Qed.

Lemma same_bases_domains w w' : domains w' = domains w -> same_bases w w'.
Proof. intros H id. by rewrite H. Qed.

Lemma same_bases_trans w1 w2 w3 :
  same_bases w1 w2 -> same_bases w2 w3 -> same_bases w1 w3.
Proof. intros H12 H23 id. by rewrite H23, H12. Qed.

Lemma same_bases_update w id d l rs cs :
  domains w !! id = Some d -> bare l = bare (subdomains d) ->
  same_bases w
    (mkWorld (<[id := mkDoc (created_by d) (created_date d) l]> (domains w)) rs cs).
Proof.
  intros Hd Hl id'. cbn [domains]. destruct (decide (id = id')) as [<-|Hne].
  - rewrite lookup_insert_eq, Hd. cbn [fmap option_fmap option_map subdomains].
    by rewrite Hl.
  - by rewrite lookup_insert_ne.
Qed.

Lemma bare_app l1 l2 : bare (l1 ++ l2) = bare l1 ++ bare l2.
Proof. apply List.filter_app. Qed.

Lemma bare_arrayUnion x l :
  JS.includes_char "." x = true -> bare (Firestore.arrayUnion x l) = bare l.
Proof.
  intros Hx. unfold Firestore.arrayUnion. destruct (JS.includes x l); [done|].
  assert (bare [x] = []) as Hb by (unfold bare; cbn; by rewrite Hx).
  rewrite bare_app, Hb. apply app_nil_r.
Qed.

Lemma bare_arrayRemove x l :
  JS.includes_char "." x = true -> bare (Firestore.arrayRemove x l) = bare l.
Proof.
  intros Hx. unfold bare, Firestore.arrayRemove.
  induction l as [|y l IH]; [reflexivity|]. cbn.
  destruct (String.eqb_spec y x) as [->|Hne]; cbn.
  - by rewrite Hx.
  - by rewrite IH.
Qed.

Lemma same_bases_addSubdomain s aSubdomain :
  same_bases s.2 (addSubdomain (JS.Str aSubdomain) s).2.2.
Proof.
  rewrite addSubdomain_view. destruct (view s) as [l|]; [|apply same_bases_refl].
  cbn zeta. destruct (owns l aSubdomain) eqn:Ho; [|apply same_bases_refl].
  destruct (JS.includes _ l) eqn:Hin; [apply same_bases_refl|].
  destruct (domains s.2 !! _docRef s.1) as [d|] eqn:Hd; [|apply same_bases_refl].
  cbn [snd]. apply same_bases_update; [done|].
  apply bare_arrayUnion. by eapply owns_dotted.
Qed.

Lemma same_bases_removeSubdomain this w subdomain :
  same_bases w (removeSubdomain (JS.Str subdomain) (this, w)).2.2.
Proof.
  rewrite removeSubdomain_run.
  destruct (JS.includes_char "." subdomain) eqn:Hdot; [|apply same_bases_refl].
  destruct (domains w !! _docRef this) as [d|] eqn:Hd; [|apply same_bases_refl].
  cbn [snd]. apply same_bases_update; [done|].
  apply bare_arrayRemove. by rewrite includes_dot_toLowerCase.
Qed.

(** X4. No instance method ever adds, removes or reorders a bare label, or
    creates or deletes a tenant document: after [addSubdomain],
    [removeSubdomain], [updateRecord] or [deleteRecord], from any state and
    whether the call succeeds or throws, every tenant has the base
    subdomains it had. *)
Theorem base_subdomains_are_fixed
  (s : St) (aType aSubdomain : string) (aNewValue : JS.value) :
  same_bases s.2 (addSubdomain (JS.Str aSubdomain) s).2.2 /\
  same_bases s.2 (removeSubdomain (JS.Str aSubdomain) s).2.2 /\
  same_bases s.2 (updateRecord (JS.Str aType) (JS.Str aSubdomain) aNewValue s).2.2 /\
  same_bases s.2 (deleteRecord (JS.Str aType) (JS.Str aSubdomain) s).2.2.
Proof.
  split_and!.
  - apply same_bases_addSubdomain.
  - destruct s as [this w]. apply same_bases_removeSubdomain.
  - rewrite updateRecord_steps.
    pose proof (same_bases_addSubdomain s aSubdomain) as H.
    destruct (addSubdomain _ _) as [[[]|e] [this' w']]; [|done].
    destruct (validateType _); [|done]. cbn [snd] in *.
    eapply same_bases_trans; [exact H|]. by apply same_bases_domains.
  - rewrite deleteRecord_steps, assertSubdomain_view.
    destruct (view s) as [l|]; [|apply same_bases_refl].
    destruct (owns l aSubdomain); [|apply same_bases_refl].
    destruct (validateType _); [|apply same_bases_refl]. cbn zeta.
    destruct (_ && _); cbn [snd]; [|by apply same_bases_domains].
    eapply same_bases_trans; [|apply same_bases_removeSubdomain].
    by apply same_bases_domains.
Qed.

(** ** Refusals *)

(** X5. A name whose last segment the tenant does not track, or a tenant
    without a document, stops [addSubdomain], [updateRecord] and
    [deleteRecord] before anything is written: all three throw the same
    error, [TenantNotFound] exactly when the document is missing and
    [OwnershipMismatch] otherwise, and leave documents and zone as they
    were, whatever the type and the value. *)
Theorem unowned_name_is_refused
  (this : Subdomain) (w : World) (aType aSubdomain : string) (aNewValue : JS.value) :
  coherent (this, w) ->
  (forall d, domains w !! _docRef this = Some d ->
             owns (subdomains d) aSubdomain = false) ->
  let e :=
    match domains w !! _docRef this with
    | Some _ => OwnershipMismatch
    | None => TenantNotFound
    end in
  let added := addSubdomain (JS.Str aSubdomain) (this, w) in
  let updated :=
    updateRecord (JS.Str aType) (JS.Str aSubdomain) aNewValue (this, w) in
  let deleted := deleteRecord (JS.Str aType) (JS.Str aSubdomain) (this, w) in
  (added.1 = Throw e /\ added.2.2 = w) /\
  (updated.1 = Throw e /\ updated.2.2 = w) /\
  (deleted.1 = Throw e /\ deleted.2.2 = w).
Proof.
  intros Hc Hno e added updated deleted.
  assert (added.1 = Throw e /\ added.2.2 = w /\
          assertSubdomain (JS.Str aSubdomain) (this, w) =
            (Throw e, added.2)) as (Ha1 & Ha2 & Has).
  { subst added e. rewrite addSubdomain_view, assertSubdomain_view.
    destruct (domains w !! _docRef this) as [d|] eqn:Hd.
    - rewrite (view_coherent _ _ _ Hc Hd). cbn zeta. by rewrite (Hno d eq_refl).
    - by rewrite (view_missing _ _ Hc Hd). }
  split_and!; try done.
  - subst updated. rewrite updateRecord_steps. fold added.
    by destruct added as [[[]|e'] s'].
  - subst updated. rewrite updateRecord_steps. fold added.
    by destruct added as [[[]|e'] s'].
  - subst deleted. by rewrite deleteRecord_steps, Has.
  - subst deleted. by rewrite deleteRecord_steps, Has.
Qed.

Lemma unowned_name_is_refused_witness :
  let e :=
    match domains demo_world !! "tenant-1" with
    | Some _ => OwnershipMismatch
    | None => TenantNotFound
    end in
  let added := addSubdomain (JS.Str "www.other") (demo_this, demo_world) in
  let updated :=
    updateRecord (JS.Str "a") (JS.Str "www.other") (JS.Str "1.2.3.4")
      (demo_this, demo_world) in
  let deleted := deleteRecord (JS.Str "a") (JS.Str "www.other") (demo_this, demo_world) in
  (added.1 = Throw e /\ added.2.2 = demo_world) /\
  (updated.1 = Throw e /\ updated.2.2 = demo_world) /\
  (deleted.1 = Throw e /\ deleted.2.2 = demo_world).
Proof.
  apply (unowned_name_is_refused demo_this demo_world "a" "www.other"
           (JS.Str "1.2.3.4")).
  - exact I.
  - intros d [= <-]. reflexivity.
Defined.

Lemma doc_eta d : mkDoc (created_by d) (created_date d) (subdomains d) = d.
Proof. by destruct d. Qed.

Lemma world_eta w : mkWorld (domains w) (rrsets w) (changes w) = w.
Proof. by destruct w. Qed.

Lemma unowned_refused_world this w aType aSubdomain aNewValue :
  coherent (this, w) ->
  (forall d, domains w !! _docRef this = Some d ->
             owns (subdomains d) aSubdomain = false) ->
  (updateRecord (JS.Str aType) (JS.Str aSubdomain) aNewValue (this, w)).2.2 = w /\
  (deleteRecord (JS.Str aType) (JS.Str aSubdomain) (this, w)).2.2 = w.
Proof.
  intros Hc Hno.
  assert (exists e this',
            addSubdomain (JS.Str aSubdomain) (this, w) = (Throw e, (this', w)) /\
            assertSubdomain (JS.Str aSubdomain) (this, w) = (Throw e, (this', w)))
    as (e & this' & Ha & Has).
  { rewrite addSubdomain_view, assertSubdomain_view.
    destruct (domains w !! _docRef this) as [d|] eqn:Hd.
    - rewrite (view_coherent _ _ _ Hc Hd). cbn zeta. rewrite (Hno d eq_refl). eauto.
    - rewrite (view_missing _ _ Hc Hd). eauto. }
  by rewrite updateRecord_steps, deleteRecord_steps, Ha, Has.
Qed.

(** X6. [updateRecord] registers the name before it looks at the type: with
    an owned name and a type outside the whitelist it throws [InvalidType]
    and leaves the zone alone, yet the lower-cased name is tracked
    afterwards.  [deleteRecord] with such a type changes nothing at all. *)
Theorem invalid_type_after_registration
  (this : Subdomain) (w : World) (d : Doc) (aType aSubdomain : string)
  (aNewValue : JS.value) :
  coherent (this, w) ->
  domains w !! _docRef this = Some d ->
  owns (subdomains d) aSubdomain = true ->
  validateType (JS.Str aType) = Throw InvalidType ->
  let updated :=
    updateRecord (JS.Str aType) (JS.Str aSubdomain) aNewValue (this, w) in
  let deleted := deleteRecord (JS.Str aType) (JS.Str aSubdomain) (this, w) in
  updated.1 = Throw InvalidType /\
  rrsets updated.2.2 = rrsets w /\ changes updated.2.2 = changes w /\
  domains updated.2.2 =
    <[_docRef this :=
        mkDoc (created_by d) (created_date d)
          (Firestore.arrayUnion (JS.toLowerCase aSubdomain) (subdomains d))]>
      (domains w) /\
  JS.toLowerCase aSubdomain ∈
    Firestore.arrayUnion (JS.toLowerCase aSubdomain) (subdomains d) /\
  deleted.1 = Throw InvalidType /\ deleted.2.2 = w.
Proof.
  intros Hc Hd Ho Hty updated deleted.
  assert (updated =
          (Throw InvalidType,
           ((addSubdomain (JS.Str aSubdomain) (this, w)).2.1,
            (addSubdomain (JS.Str aSubdomain) (this, w)).2.2)) /\
          (addSubdomain (JS.Str aSubdomain) (this, w)).2.2 =
            mkWorld
              (<[_docRef this :=
                   mkDoc (created_by d) (created_date d)
                     (Firestore.arrayUnion (JS.toLowerCase aSubdomain)
                        (subdomains d))]> (domains w)) (rrsets w) (changes w))
    as [-> Hadd].
  { subst updated. rewrite updateRecord_steps, addSubdomain_view.
    rewrite (view_coherent _ _ _ Hc Hd). cbn zeta. cbn [fst snd]. rewrite Ho.
    destruct (JS.includes _ _) eqn:Hin; [|rewrite Hd]; cbv beta iota; rewrite Hty;
      cbn [fst snd]; [|done].
    split; [done|]. unfold Firestore.arrayUnion. rewrite Hin, doc_eta.
    rewrite (insert_id _ _ _ Hd). by rewrite world_eta. }
  cbn [fst snd]. rewrite Hadd. cbn [rrsets changes domains].
  split_and!; try done.
  - apply arrayUnion_spec. by right.
  - subst deleted. rewrite deleteRecord_steps, assertSubdomain_view.
    by rewrite (view_coherent _ _ _ Hc Hd), Ho, Hty.
  - subst deleted. rewrite deleteRecord_steps, assertSubdomain_view.
    by rewrite (view_coherent _ _ _ Hc Hd), Ho, Hty.
Qed.

Lemma invalid_type_after_registration_witness :
  let updated :=
    updateRecord (JS.Str "ptr") (JS.Str "mail.base") (JS.Str "x")
      (demo_this, demo_world) in
  let deleted := deleteRecord (JS.Str "ptr") (JS.Str "mail.base") (demo_this, demo_world) in
  updated.1 = Throw InvalidType /\
  rrsets updated.2.2 = rrsets demo_world /\
  changes updated.2.2 = changes demo_world /\
  domains updated.2.2 =
    <["tenant-1" :=
        mkDoc (created_by demo_doc) (created_date demo_doc)
          (Firestore.arrayUnion (JS.toLowerCase "mail.base") (subdomains demo_doc))]>
      (domains demo_world) /\
  JS.toLowerCase "mail.base" ∈
    Firestore.arrayUnion (JS.toLowerCase "mail.base") (subdomains demo_doc) /\
  deleted.1 = Throw InvalidType /\ deleted.2.2 = demo_world.
Proof.
  apply (invalid_type_after_registration demo_this demo_world demo_doc "ptr"
           "mail.base" (JS.Str "x")); [exact I|reflexivity..].
Defined.

(** ** Records of other names *)

Lemma app_inj_r x y suffix : x +:+ suffix = y +:+ suffix -> x = y.
Proof.
  revert y. induction x as [|c x IH]; intros [|c' y] H.
  - reflexivity.
  - exfalso. apply (f_equal String.length) in H.
    rewrite app_nil_l, app_cons in H. cbn in H. rewrite length_app in H. lia.
  - exfalso. apply (f_equal String.length) in H.
    rewrite app_nil_l, app_cons in H. cbn in H. rewrite length_app in H. lia.
  - rewrite !app_cons in H. injection H as -> H. f_equal. by apply IH.
Qed.

Lemma qualified_inj n n' : qualified n = qualified n' -> n = n'.
Proof. apply app_inj_r. Qed.

Lemma owns_toLowerCase l n : owns l (JS.toLowerCase n) = owns l n.
Proof. unfold owns. by rewrite toLowerCase_idem. Qed.

Lemma selects_name fqdn ty r : selects fqdn ty r = true -> rname r = fqdn.
Proof. by intros [?%String.eqb_eq _]%andb_true_iff. Qed.

Lemma elem_of_filter_not_selected fqdn ty rs r :
  rname r <> fqdn ->
  r ∈ List.filter (fun r' => negb (selects fqdn ty r')) rs <-> r ∈ rs.
Proof.
  intros Hne. rewrite !list_elem_of_In, filter_In. split; [tauto|].
  intros Hin. split; [done|]. apply negb_true_iff.
  destruct (selects fqdn ty r) eqn:E; [|done]. by apply selects_name in E.
Qed.

(** X7. A tenant's [updateRecord] and [deleteRecord] never add, drop or
    change a record set under a name the tenant does not own: such a record
    set is in the zone afterwards exactly when it was there before, for any
    type and value, whether the call succeeds or throws. *)
Theorem foreign_records_untouched
  (this : Subdomain) (w : World) (d : Doc) (aType aSubdomain : string)
  (aNewValue : JS.value) (r : Record_) (n : string) :
  coherent (this, w) ->
  domains w !! _docRef this = Some d ->
  rname r = qualified n ->
  owns (subdomains d) n = false ->
  (r ∈ rrsets (updateRecord (JS.Str aType) (JS.Str aSubdomain) aNewValue
                 (this, w)).2.2 <-> r ∈ rrsets w) /\
  (r ∈ rrsets (deleteRecord (JS.Str aType) (JS.Str aSubdomain) (this, w)).2.2
   <-> r ∈ rrsets w).
Proof.
  intros Hc Hd Hr Hn.
  destruct (owns (subdomains d) aSubdomain) eqn:Ho.
  2:{ pose proof (unowned_refused_world this w aType aSubdomain aNewValue Hc) as H.
      destruct H as [-> ->]; [|done]. intros d' Hd'. congruence. }
  assert (rname r <> qualified aSubdomain) as Hne1.
  { rewrite Hr. intros ->%qualified_inj. congruence. }
  assert (rname r <> qualified (JS.toLowerCase aSubdomain)) as Hne2.
  { rewrite Hr. intros ->%qualified_inj. rewrite owns_toLowerCase in Hn. congruence. }
  split.
  - rewrite updateRecord_steps, addSubdomain_view.
    rewrite (view_coherent _ _ _ Hc Hd). cbn zeta. cbn [fst snd]. rewrite Ho, Hd.
    destruct (JS.includes _ _); destruct (validateType _); cbn [snd rrsets];
      try done.
    all: rewrite elem_of_app, (elem_of_filter_not_selected _ _ _ _ Hne1).
    all: rewrite list_elem_of_singleton; split; [|by left].
    all: intros [?| ->]; [done|]; by destruct Hne2.
  - rewrite deleteRecord_steps, assertSubdomain_view.
    rewrite (view_coherent _ _ _ Hc Hd), Ho.
    destruct (validateType _); [|done]. cbn zeta.
    destruct (_ && _); cbn [snd].
    + rewrite removeSubdomain_run. cbn [_docRef domains rrsets fst snd].
      destruct (JS.includes_char "." aSubdomain); [rewrite Hd|]; cbn [snd rrsets];
        by apply elem_of_filter_not_selected.
    + by apply elem_of_filter_not_selected.
Qed.

Lemma foreign_records_untouched_witness :
  (demo_foreign_record ∈
     rrsets (updateRecord (JS.Str "a") (JS.Str "www.base") (JS.Str "5.6.7.8")
               (demo_this, demo_shared_world)).2.2 <->
   demo_foreign_record ∈ rrsets demo_shared_world) /\
  (demo_foreign_record ∈
     rrsets (deleteRecord (JS.Str "a") (JS.Str "www.base")
               (demo_this, demo_shared_world)).2.2 <->
   demo_foreign_record ∈ rrsets demo_shared_world).
Proof.
  apply (foreign_records_untouched demo_this demo_shared_world demo_leaf_doc
           "a" "www.base" (JS.Str "5.6.7.8") demo_foreign_record "www.other");
    [exact I|reflexivity..].
Defined.

(** ** Round trips *)

Lemma arrayRemove_snoc x l :
  JS.includes x l = false -> Firestore.arrayRemove x (l ++ [x]) = l.
Proof.
  intros Hin. unfold Firestore.arrayRemove. rewrite List.filter_app. cbn.
  rewrite String.eqb_refl. cbn. rewrite app_nil_r.
  induction l as [|y l IH]; [reflexivity|]. cbn in *.
  apply orb_false_iff in Hin as [Hy Hl]. rewrite String.eqb_sym, Hy. cbn.
  by rewrite (IH Hl).
Qed.

Lemma arrayUnion_fresh x l :
  JS.includes x l = false -> Firestore.arrayUnion x l = l ++ [x].
Proof. intros H. unfold Firestore.arrayUnion. by rewrite H. Qed.

(** X8. Adding an owned name that was not tracked and removing it again
    gives back the documents as they were: [addSubdomain] appends the
    lower-cased name to the tenant's list, and [removeSubdomain] of the same
    name restores the list and every other document. *)
Theorem add_then_remove_restores
  (this : Subdomain) (w : World) (d : Doc) (aSubdomain : string) :
  coherent (this, w) ->
  domains w !! _docRef this = Some d ->
  owns (subdomains d) aSubdomain = true ->
  JS.includes (JS.toLowerCase aSubdomain) (subdomains d) = false ->
  let added := addSubdomain (JS.Str aSubdomain) (this, w) in
  added.1 = Ok tt /\
  domains added.2.2 !! _docRef this =
    Some (mkDoc (created_by d) (created_date d)
            (subdomains d ++ [JS.toLowerCase aSubdomain])) /\
  removeSubdomain (JS.Str aSubdomain) added.2 =
    (Ok tt, (mkSubdomain (_docRef this) None, w)).
Proof.
  intros Hc Hd Ho Hin added.
  assert (added =
          (Ok tt,
           (mkSubdomain (_docRef this) None,
            mkWorld
              (<[_docRef this :=
                   mkDoc (created_by d) (created_date d)
                     (subdomains d ++ [JS.toLowerCase aSubdomain])]> (domains w))
              (rrsets w) (changes w)))) as ->.
  { subst added. rewrite addSubdomain_view, (view_coherent _ _ _ Hc Hd).
    cbn zeta. cbn [fst snd]. by rewrite Ho, Hin, Hd, (arrayUnion_fresh _ _ Hin). }
  cbn [fst snd domains]. rewrite lookup_insert_eq. split_and!; try done.
  rewrite removeSubdomain_run. cbn [_docRef domains rrsets changes].
  rewrite (owns_dotted_raw _ _ Ho Hin), lookup_insert_eq.
  cbn [created_by created_date subdomains].
  rewrite (arrayRemove_snoc _ _ Hin), doc_eta, insert_insert_eq.
  by rewrite (insert_id _ _ _ Hd), world_eta.
Qed.

Lemma add_then_remove_restores_witness :
  let added := addSubdomain (JS.Str "Mail.Base") (demo_this, demo_world) in
  added.1 = Ok tt /\
  domains added.2.2 !! "tenant-1" =
    Some (mkDoc (created_by demo_doc) (created_date demo_doc)
            (subdomains demo_doc ++ [JS.toLowerCase "Mail.Base"])) /\
  removeSubdomain (JS.Str "Mail.Base") added.2 =
    (Ok tt, (mkSubdomain "tenant-1" None, demo_world)).
Proof.
  apply (add_then_remove_restores demo_this demo_world demo_doc "Mail.Base");
    [exact I|reflexivity..].
Defined.

Lemma filter_unnamed fqdn ty rs :
  (forall r, r ∈ rs -> rname r <> fqdn) ->
  List.filter (fun r => negb (selects fqdn ty r)) rs = rs /\
  List.filter (selects fqdn ty) rs = [] /\
  List.filter (fun r => String.eqb (rname r) fqdn && true) rs = [].
Proof.
  induction rs as [|r rs IH]; intros H; [done|].
  destruct IH as (IH1 & IH2 & IH3).
  { intros r' Hr'. apply H. by right. }
  assert (String.eqb (rname r) fqdn = false) as Hr.
  { apply String.eqb_neq, H. by left. }
  unfold selects in *. cbn. rewrite Hr. cbn. by rewrite IH1, IH2, IH3.
Qed.

(** X9. Writing a record under a fresh leaf and deleting it again restores
    the documents and the record sets: for a lower-case dotted name the
    tenant owns, neither tracked nor present in the zone, [updateRecord]
    tracks the name and adds one record set, and [deleteRecord] with the
    same type removes both again.  Only the log of changes keeps the two
    requests. *)
Theorem update_then_delete_restores
  (this : Subdomain) (w : World) (d : Doc) (aType ty aSubdomain : string)
  (aNewValue : JS.value) :
  coherent (this, w) ->
  domains w !! _docRef this = Some d ->
  validateType (JS.Str aType) = Ok ty ->
  JS.toLowerCase aSubdomain = aSubdomain ->
  owns (subdomains d) aSubdomain = true ->
  JS.includes aSubdomain (subdomains d) = false ->
  (forall r, r ∈ rrsets w -> rname r <> qualified aSubdomain) ->
  let updated :=
    updateRecord (JS.Str aType) (JS.Str aSubdomain) aNewValue (this, w) in
  let r :=
    mkRecord (qualified aSubdomain) (lines (JS.ToString (JS.or_empty aNewValue)))
      (JS.toUpperCase ty) DEFAULT_TTL in
  updated.1 = Ok tt /\
  rrsets updated.2.2 = rrsets w ++ [r] /\
  (exists d', domains updated.2.2 !! _docRef this = Some d' /\
              subdomains d' = subdomains d ++ [aSubdomain]) /\
  deleteRecord (JS.Str aType) (JS.Str aSubdomain) updated.2 =
    (Ok tt,
     (mkSubdomain (_docRef this) None,
      mkWorld (domains w) (rrsets w)
        (changes w ++ [mkChange [r] []; mkChange [] [r]]))).
Proof.
  intros Hc Hd Hty Hlow Ho Hin Hfree updated r.
  destruct (filter_unnamed (qualified aSubdomain) (JS.toUpperCase ty) _ Hfree)
    as (Hf1 & Hf2 & Hf3).
  assert (JS.includes_char "." aSubdomain = true) as Hdot.
  { eapply owns_dotted_raw; [done|]. by rewrite Hlow. }
  set (d' := mkDoc (created_by d) (created_date d) (subdomains d ++ [aSubdomain])).
  assert (updated =
          (Ok tt,
           (mkSubdomain (_docRef this) None,
            mkWorld (<[_docRef this := d']> (domains w)) (rrsets w ++ [r])
              (changes w ++ [mkChange [r] []])))) as ->.
  { subst updated. rewrite updateRecord_steps, addSubdomain_view.
    rewrite (view_coherent _ _ _ Hc Hd). cbn zeta. cbn [fst snd].
    rewrite Ho, Hlow, Hin, Hd. cbv beta iota. rewrite Hty.
    cbn [domains rrsets changes]. rewrite Hf1, Hf2.
    by rewrite (arrayUnion_fresh _ _ Hin). }
  cbn [fst snd domains rrsets]. rewrite lookup_insert_eq.
  split_and!; [done|done|by exists d'|].
  rewrite deleteRecord_steps, assertSubdomain_view.
  unfold view. cbn [fst snd _subdomains _docRef domains].
  rewrite lookup_insert_eq. cbn [fmap option_fmap option_map].
  assert (owns (subdomains d') aSubdomain = true) as Ho'.
  { apply owns_spec. apply owns_spec in Ho as (b & Hb & Hbin).
    exists b. split; [done|]. subst d'. cbn. apply elem_of_app. by left. }
  rewrite Ho', Hty. cbn zeta. cbn [domains rrsets changes].
  assert (selects (qualified aSubdomain) (JS.toUpperCase ty) r = true) as Hsel
    by (unfold selects, r; cbn; by rewrite !String.eqb_refl).
  rewrite !List.filter_app, Hf1, Hf2, Hlow, Hf3. cbn [List.filter].
  rewrite Hsel, Hdot. cbn [negb app length Nat.ltb Nat.leb andb].
  rewrite !app_nil_r. cbn [app].
  rewrite removeSubdomain_run, Hdot. cbn [_docRef domains rrsets changes].
  rewrite lookup_insert_eq, Hlow. subst d'. cbn [created_by created_date subdomains].
  rewrite (arrayRemove_snoc _ _ Hin), doc_eta, insert_insert_eq.
  rewrite (insert_id _ _ _ Hd). cbn [snd]. by rewrite <- app_assoc.
Qed.

Lemma update_then_delete_restores_witness :
  let updated :=
    updateRecord (JS.Str "TXT") (JS.Str "mail.base") (JS.Str "hello")
      (demo_this, demo_world) in
  let r :=
    mkRecord (qualified "mail.base") (lines (JS.ToString (JS.or_empty (JS.Str "hello"))))
      (JS.toUpperCase "txt") DEFAULT_TTL in
  updated.1 = Ok tt /\
  rrsets updated.2.2 = rrsets demo_world ++ [r] /\
  (exists d', domains updated.2.2 !! "tenant-1" = Some d' /\
              subdomains d' = subdomains demo_doc ++ ["mail.base"]) /\
  deleteRecord (JS.Str "TXT") (JS.Str "mail.base") updated.2 =
    (Ok tt,
     (mkSubdomain "tenant-1" None,
      mkWorld (domains demo_world) (rrsets demo_world)
        (changes demo_world ++ [mkChange [r] []; mkChange [] [r]]))).
Proof.
  apply (update_then_delete_restores demo_this demo_world demo_doc "TXT" "txt"
           "mail.base" (JS.Str "hello")); [exact I|reflexivity..|].
  intros r Hr. by apply elem_of_nil in Hr.
Defined.

(** ** Reading records *)

Lemma getAllRecords_loop_run l this w :
  getAllRecords_loop l (this, w) =
    (Ok (concat
           (map (fun subdomain =>
                   map formatRecord
                     (List.filter
                        (fun r => String.eqb (rname r) (qualified subdomain) && true)
                        (rrsets w))) l)),
     (this, w)).
Proof.
  induction l as [|sub l IH]; [reflexivity|].
  cbn [getAllRecords_loop]. unfold bind at 1. rewrite getRecords_run.
  unfold bind at 1. by rewrite IH.
Qed.

Lemma formatRecord_name r n :
  rname r = qualified n -> name (formatRecord r) = JS.toLowerCase n.
Proof.
  intros Hr. destruct r as [rn dt t tl]. cbn in Hr. subst rn.
  unfold qualified. by rewrite formatRecord_qualified.
Qed.

Lemma getAllRecords_run_members
  (this : Subdomain) (w : World) (d : Doc) :
  coherent (this, w) ->
  domains w !! _docRef this = Some d ->
  exists results,
    getAllRecords (this, w) =
      (Ok results, (mkSubdomain (_docRef this) (Some (subdomains d)), w)) /\
    (forall f, f ∈ results <->
       exists subdomain r,
         subdomain ∈ subdomains d /\ r ∈ rrsets w /\
         rname r = qualified subdomain /\ f = formatRecord r) /\
    (forall f, f ∈ results ->
       exists subdomain,
         subdomain ∈ subdomains d /\ name f = JS.toLowerCase subdomain).
Proof.
  intros Hc Hd. eexists. split; [|split].
  - unfold getAllRecords, bind. rewrite getAllSubdomains_view.
    rewrite (view_coherent _ _ _ Hc Hd). cbn [fst snd].
    by rewrite getAllRecords_loop_run.
  - intros f. rewrite list_elem_of_In, in_concat. split.
    + intros (fs & (sub & <- & Hsub)%in_map_iff & Hf).
      apply in_map_iff in Hf as (r & <- & Hr).
      apply filter_In in Hr as [Hr Hn].
      rewrite andb_true_r in Hn. apply String.eqb_eq in Hn.
      exists sub, r. split_and!; try done; by apply list_elem_of_In.
    + intros (sub & r & Hsub & Hr & Hn & ->). eexists. split.
      * apply in_map_iff. exists sub. split; [done|]. by apply list_elem_of_In.
      * apply in_map_iff. exists r. split; [done|].
        apply filter_In. split; [by apply list_elem_of_In|].
        rewrite andb_true_r. by apply String.eqb_eq.
  - intros f. rewrite list_elem_of_In, in_concat.
    intros (fs & (sub & <- & Hsub)%in_map_iff & Hf).
    apply in_map_iff in Hf as (r & <- & Hr).
    apply filter_In in Hr as [Hr Hn].
    rewrite andb_true_r in Hn. apply String.eqb_eq in Hn.
    exists sub. split; [by apply list_elem_of_In|]. by apply formatRecord_name.
Qed.

(** X10. [getAllRecords] lists exactly the record sets stored under the
    tenant's tracked names, formatted, and nothing else; every listed record
    carries the lower-cased form of a tracked name; the stores are not
    changed. *)
Theorem getAllRecords_lists_tracked
  (this : Subdomain) (w : World) (d : Doc) :
  coherent (this, w) ->
  domains w !! _docRef this = Some d ->
  exists results,
    getAllRecords (this, w) =
      (Ok results, (mkSubdomain (_docRef this) (Some (subdomains d)), w)) /\
    (forall f, f ∈ results <->
       exists subdomain r,
         subdomain ∈ subdomains d /\ r ∈ rrsets w /\
         rname r = qualified subdomain /\ f = formatRecord r) /\
    (forall f, f ∈ results ->
       exists subdomain,
         subdomain ∈ subdomains d /\ name f = JS.toLowerCase subdomain).
Proof. apply getAllRecords_run_members. Qed.

Lemma getAllRecords_lists_tracked_witness :
  exists results,
    getAllRecords (demo_this, demo_shared_world) =
      (Ok results, (mkSubdomain "tenant-1" (Some (subdomains demo_leaf_doc)),
                    demo_shared_world)) /\
    (forall f, f ∈ results <->
       exists subdomain r,
         subdomain ∈ subdomains demo_leaf_doc /\ r ∈ rrsets demo_shared_world /\
         rname r = qualified subdomain /\ f = formatRecord r) /\
    (forall f, f ∈ results ->
       exists subdomain,
         subdomain ∈ subdomains demo_leaf_doc /\ name f = JS.toLowerCase subdomain).
Proof.
  apply (getAllRecords_lists_tracked demo_this demo_shared_world demo_leaf_doc);
    [exact I|reflexivity].
Defined.

Lemma updateRecord_read_back
  (this : Subdomain) (w : World) (d : Doc) (aType ty aSubdomain : string)
  (aNewValue : JS.value) :
  coherent (this, w) ->
  domains w !! _docRef this = Some d ->
  validateType (JS.Str aType) = Ok ty ->
  JS.toLowerCase aSubdomain = aSubdomain ->
  owns (subdomains d) aSubdomain = true ->
  let updated :=
    updateRecord (JS.Str aType) (JS.Str aSubdomain) aNewValue (this, w) in
  let f :=
    mkFormatted aSubdomain
      (JS.join JS.NL (lines (JS.ToString (JS.or_empty aNewValue))))
      (JS.toUpperCase ty) in
  updated.1 = Ok tt /\
  (getRecordsByTypeFormatted (JS.Str aType) (JS.Str aSubdomain) updated.2).1 =
    Ok [f] /\
  exists results,
    (getAllRecords (mkSubdomain (_docRef this) None, updated.2.2)).1 = Ok results /\
    f ∈ results.
Proof.
  intros Hc Hd Hty Hlow Ho updated f.
  pose proof (createRecord_run aType ty aSubdomain aNewValue Hty) as Hr.
  destruct (updateRecord_run this w d aType ty aSubdomain Hc Hd Hty Ho
              aNewValue _ Hr) as (this' & d' & Heq & Hid & _ & _ & Hsub).
  cbv zeta in Heq. subst updated. rewrite Heq. cbn [fst snd].
  set (r := Zone.toJSON _) in *.
  assert (formatRecord r = f) as Hf.
  { subst r f. unfold Zone.toJSON. cbn [rname rdata rtype rttl].
    rewrite formatRecord_qualified, !Hlow. by rewrite toUpperCase_idem. }
  assert (selects (qualified aSubdomain) (JS.toUpperCase ty) r = true) as Hsel.
  { subst r. unfold selects, Zone.toJSON, qualified. cbn [rname rtype].
    by rewrite Hlow, !String.eqb_refl. }
  split_and!; [done| |].
  - unfold getRecordsByTypeFormatted, bind.
    rewrite (getRecordsByType_run _ _ _ _ _ Hty). cbn [fst rrsets].
    fold (qualified aSubdomain).
    rewrite List.filter_app, filter_selects_rest. cbn [List.filter app].
    rewrite Hsel. cbn. by rewrite Hf.
  - match goal with
    | |- context [getAllRecords (?t, ?w')] =>
        destruct (getAllRecords_run_members t w' d' I) as (fs & Hfs & Hall & _)
    end.
    { cbn. by rewrite lookup_insert_eq. }
    exists fs. rewrite Hfs. split; [done|]. apply Hall.
    exists aSubdomain, r. split_and!.
    + apply Hsub. right. by rewrite Hlow.
    + cbn [rrsets]. apply elem_of_app. right. by apply list_elem_of_singleton.
    + by apply selects_name in Hsel.
    + done.
Qed.

(** X11. What [updateRecord] wrote is what the read API returns: for an
    owned lower-case name, a whitelisted type and any value,
    [getRecordsByTypeFormatted] afterwards answers with exactly one record,
    carrying the name, the value's non-empty trimmed lines joined by line
    feeds, and the type in upper case; a fresh instance's [getAllRecords]
    lists that record too. *)
Theorem update_then_read_formatted
  (this : Subdomain) (w : World) (d : Doc) (aType ty aSubdomain : string)
  (aNewValue : JS.value) :
  coherent (this, w) ->
  domains w !! _docRef this = Some d ->
  validateType (JS.Str aType) = Ok ty ->
  JS.toLowerCase aSubdomain = aSubdomain ->
  owns (subdomains d) aSubdomain = true ->
  let updated :=
    updateRecord (JS.Str aType) (JS.Str aSubdomain) aNewValue (this, w) in
  let f :=
    mkFormatted aSubdomain
      (JS.join JS.NL (lines (JS.ToString (JS.or_empty aNewValue))))
      (JS.toUpperCase ty) in
  updated.1 = Ok tt /\
  (getRecordsByTypeFormatted (JS.Str aType) (JS.Str aSubdomain) updated.2).1 =
    Ok [f] /\
  exists results,
    (getAllRecords (mkSubdomain (_docRef this) None, updated.2.2)).1 = Ok results /\
    f ∈ results.
Proof. apply updateRecord_read_back. Qed.

Lemma update_then_read_formatted_witness :
  let updated :=
    updateRecord (JS.Str "TXT") (JS.Str "mail.base") (JS.Str "hello")
      (demo_this, demo_world) in
  let f :=
    mkFormatted "mail.base"
      (JS.join JS.NL (lines (JS.ToString (JS.or_empty (JS.Str "hello")))))
      (JS.toUpperCase "txt") in
  updated.1 = Ok tt /\
  (getRecordsByTypeFormatted (JS.Str "TXT") (JS.Str "mail.base") updated.2).1 =
    Ok [f] /\
  exists results,
    (getAllRecords (mkSubdomain "tenant-1" None, updated.2.2)).1 = Ok results /\
    f ∈ results.
Proof.
  apply (update_then_read_formatted demo_this demo_world demo_doc "TXT" "txt"
           "mail.base" (JS.Str "hello")); [exact I|reflexivity..].
Defined.

(** ** createRecord *)






(** ** domainExists and createSubdomain, in full *)

(** X13. [domainExists] never writes.  It lower-cases [String(aName)];
    if that holds a dot it throws the [TypeError], otherwise it answers
    whether some tenant tracks that lower-cased name.  Its answer for a name
    and for the lower-cased name are the same. *)
Theorem domainExists_answers (aName : JS.value) (w : World) :
  let name := JS.toLowerCase (JS.ToString aName) in
  (domainExists aName w).2 = w /\
  (JS.includes_char "." name = true ->
   (domainExists aName w).1 = Throw InvalidArgument) /\
  (JS.includes_char "." name = false ->
   exists answer,
     (domainExists aName w).1 = Ok answer /\
     (answer = true <->
      exists id d, domains w !! id = Some d /\ name ∈ subdomains d)) /\
  domainExists (JS.Str name) w = domainExists aName w.
Proof.
  intros name.
  assert (domainExists (JS.Str name) w = domainExists aName w) as Hsame.
  { unfold domainExists. cbn [JS.ToString]. subst name.
    by rewrite toLowerCase_idem. }
  split_and!; [| | |exact Hsame]; unfold domainExists; fold name.
  - by destruct (JS.includes_char "." name).
  - by intros ->.
  - intros ->. unfold bind, Firestore.where_array_contains, ret. cbn [fst snd].
    eexists. split; [reflexivity|].
    rewrite negb_true_iff. apply snapshot_empty_false.
Qed.

(** X14. [createSubdomain] has three outcomes and no other.  It returns the
    drawn id exactly when the lower-cased name is in the label pattern and
    no tenant tracks it, and then the store gains the one document
    [{created_by, created_date, subdomains: [name]}] under that id and
    nothing else changes; it throws [InvalidName] exactly when the name is
    outside the pattern, and [AlreadyExists] exactly when it is in the
    pattern and tracked; in both cases nothing is written. *)
Theorem createSubdomain_outcomes
  (aName aOwner : JS.value) (id : string) (now : N) (w : World) :
  let name := JS.toLowerCase (JS.ToString aName) in
  let taken := exists i d, domains w !! i = Some d /\ name ∈ subdomains d in
  let out := createSubdomain aName aOwner id now w in
  (out.1 = Ok id <-> Regex.matches Regex.LABEL name = true /\ ~ taken) /\
  (out.1 = Throw InvalidName <-> Regex.matches Regex.LABEL name = false) /\
  (out.1 = Throw AlreadyExists <->
   Regex.matches Regex.LABEL name = true /\ taken) /\
  (out.1 = Ok id ->
   out.2 = mkWorld (<[id := mkDoc aOwner now [name]]> (domains w))
             (rrsets w) (changes w)) /\
  (out.1 <> Ok id -> out.2 = w).
Proof.
  intros name taken out. subst out. rewrite createSubdomain_run. cbn zeta.
  fold name. destruct (Regex.matches Regex.LABEL name); cbn [negb fst snd].
  - destruct (Firestore.empty _) eqn:He; cbn [negb fst snd].
    + assert (~ taken) as Hfree.
      { intros Ht%snapshot_empty_false. congruence. }
      split_and!; try done. split; [discriminate|]. by intros [_ ?].
    + apply snapshot_empty_false in He. fold taken in He.
      split_and!; try done. split; [discriminate|]. by intros [_ ?].
  - split_and!; try done; (split; [discriminate|]); by intros [? _].
Qed.

(** * The two patterns *)

Module LanguageFacts.
Import Regex Language.

Lemma app_empty s1 s2 :
  s1 +:+ s2 = EmptyString -> s1 = EmptyString /\ s2 = EmptyString.
Proof. destruct s1; [by rewrite app_nil_l|by rewrite app_cons]. Qed.

Lemma nullable_lang r : nullable r = true <-> lang r EmptyString.
Proof.
  induction r; cbn.
  - split; [discriminate|done].
  - done.
  - split; [discriminate|]. by intros (c & ? & _).
  - rewrite andb_true_iff, IHr1, IHr2. split.
    + intros [H1 H2]. by exists EmptyString, EmptyString.
    + intros (s1 & s2 & Heq & H1 & H2).
      symmetry in Heq. apply app_empty in Heq as [E1 E2]. by subst.
  - by rewrite orb_true_iff, IHr1, IHr2.
  - split; [|done]. intros _. exists []. split; [done|constructor].
Qed.

Lemma deriv_lang c r s : lang (deriv c r) s <-> lang r (String c s).
Proof.
  revert s. induction r; intros s; cbn.
  - done.
  - split; [done|discriminate].
  - destruct (p c) eqn:Hp; cbn.
    + split; [intros ->; eauto|]. by intros (c' & [= <- ->] & _).
    + split; [done|]. intros (c' & [= <- ->] & ?). congruence.
  - split.
    + intros [(s1 & s2 & -> & H1 & H2)|H].
      * exists (String c s1), s2. split; [done|]. split; [by apply IHr1|done].
      * destruct (nullable r1) eqn:Hn; [|done].
        exists EmptyString, (String c s). split; [done|].
        split; [by apply nullable_lang|by apply IHr2].
    + intros ([|c' s1] & s2 & Heq & H1 & H2).
      * rewrite app_nil_l in Heq. subst s2. right.
        apply nullable_lang in H1. rewrite H1. by apply IHr2.
      * rewrite app_cons in Heq. injection Heq as <- ->. left.
        exists s1, s2. split; [done|]. split; [by apply IHr1|done].
  - by rewrite IHr1, IHr2.
  - split.
    + intros (s1 & s2 & -> & H1 & l & -> & Hl).
      exists (String c s1 :: l). split; [done|].
      constructor; [|done]. split; [done|]. by apply IHr.
    + intros ([|x l] & Heq & Hl); [discriminate|].
      inversion Hl as [|? ? [Hne Hx] Hl']; subst.
      destruct x as [|c' x]; [done|]. cbn in Heq. rewrite app_cons in Heq.
      injection Heq as <- ->. exists x, (concat_strings l).
      split; [done|]. split; [by apply IHr|]. by exists l.
Qed.

(** The matcher decides the language. *)
Lemma matches_lang r s : matches r s = true <-> lang r s.
Proof.
  revert r. induction s as [|c s IH]; intros r; cbn.
  - apply nullable_lang.
  - by rewrite IH, deriv_lang.
Qed.

Lemma lang_Lit t s : lang (Lit t) s <-> s = t.
Proof.
  revert s. induction t as [|c t IH]; intros s; cbn; [done|]. split.
  - intros (s1 & s2 & -> & (c' & -> & Hc%Ascii.eqb_eq) & ->%IH). by subst.
  - intros ->. exists (String c EmptyString), t. split; [done|].
    split; [|by apply IH]. exists c. split; [done|apply Ascii.eqb_refl].
Qed.

Lemma lang_Repeat p n s :
  lang (Repeat n (Class p)) s <->
  String.length s = n /\ JS.every p s = true.
Proof.
  revert s. induction n as [|n IH]; intros s; cbn.
  - split; [by intros ->|]. intros [H _]. by destruct s.
  - split.
    + intros (s1 & s2 & -> & (c & -> & Hc) & [Hl He]%IH).
      rewrite app_cons, app_nil_l. cbn. by rewrite Hl, Hc, He.
    + intros [Hl He]. destruct s as [|c s]; [discriminate|]. cbn in *.
      apply andb_true_iff in He as [Hc He].
      exists (String c EmptyString), s. split; [done|].
      split; [by exists c|]. apply IH. split; [lia|done].
Qed.

End LanguageFacts.

(** ** The account pattern *)

Lemma match_ECCS_ID_spec value id :
  match_ECCS_ID value = Some id <->
  value = id +:+ "@g.ecc.u-tokyo.ac.jp" /\
  String.length id = 10%nat /\ JS.every JS.is_digit id = true.
Proof.
  unfold match_ECCS_ID.
  destruct (Regex.matches ECCS_ID_PATTERN value) eqn:Hm.
  - apply LanguageFacts.matches_lang in Hm.
    destruct Hm as (s1 & s2 & -> & [Hl He]%LanguageFacts.lang_Repeat
                    & ->%LanguageFacts.lang_Lit).
    rewrite <- Hl, take_app. split.
    + by intros [= <-].
    + intros (->%app_inj_r & _). done.
  - split; [discriminate|]. intros (-> & Hl & He). exfalso.
    assert (Regex.matches ECCS_ID_PATTERN (id +:+ "@g.ecc.u-tokyo.ac.jp") = true)
      as H; [|congruence].
    apply LanguageFacts.matches_lang. exists id, "@g.ecc.u-tokyo.ac.jp".
    split; [done|]. split; [by apply LanguageFacts.lang_Repeat|].
    by apply LanguageFacts.lang_Lit.
Qed.

Lemma not_account v : (forall s, v <> JS.Str s) -> forall id, ~ account_address v id.
Proof. intros H id [-> _]. by eapply H. Qed.

Lemma utokyoIds_skip v l :
  (forall id, ~ account_address v id) -> utokyoIds (v :: l) = utokyoIds l.
Proof.
  intros H. destruct v as [| |b|value]; try reflexivity. cbn.
  destruct (match_ECCS_ID value) as [id|] eqn:Hm; [|reflexivity].
  apply match_ECCS_ID_spec in Hm as (-> & ? & ?). by destruct (H id).
Qed.

Lemma utokyoIds_take v id l :
  account_address v id -> utokyoIds (v :: l) = id :: utokyoIds l.
Proof.
  intros (-> & Hl & He). cbn.
  assert (match_ECCS_ID (id +:+ "@" +:+ ECCS_HOSTED_DOMAIN) = Some id) as ->;
    [|reflexivity].
  by apply match_ECCS_ID_spec.
Qed.

Lemma account_or_not v :
  (exists id, account_address v id) \/ (forall id, ~ account_address v id).
Proof.
  destruct v as [| |b|value]; try (right; by apply not_account).
  destruct (match_ECCS_ID value) as [id|] eqn:Hm.
  - left. exists id. by apply match_ECCS_ID_spec in Hm as (-> & ? & ?).
  - right. intros id ([= ->] & Hl & He).
    assert (match_ECCS_ID (id +:+ "@" +:+ ECCS_HOSTED_DOMAIN) = Some id) as H';
      [|congruence].
    by apply match_ECCS_ID_spec.
Qed.

Lemma utokyoIds_nil l :
  utokyoIds l = [] <-> Forall (fun v => forall id, ~ account_address v id) l.
Proof.
  induction l as [|v l IH]; [split; [constructor|done]|].
  rewrite Forall_cons. destruct (account_or_not v) as [[id Hv]|Hv].
  - rewrite (utokyoIds_take _ _ _ Hv). split; [discriminate|].
    intros [H _]. by destruct (H id).
  - rewrite (utokyoIds_skip _ _ Hv), IH. tauto.
Qed.

(** X15. The sign-in takes as the user's id the ten digits of the first
    e-mail address of the form [<ten digits>@g.ecc.u-tokyo.ac.jp]; values
    that are not strings and addresses of any other form, including ones
    that merely contain such text, are passed over.  It fails, with "No
    UTokyo account ID available for account", exactly when no address has
    that form. *)
Theorem utokyo_id_first_account (emailAddresses : list JS.value) :
  (forall id, utokyo_id emailAddresses = Done id ->
     exists before after,
       emailAddresses = before ++ JS.Str (id +:+ "@g.ecc.u-tokyo.ac.jp") :: after /\
       String.length id = 10%nat /\ JS.every JS.is_digit id = true /\
       Forall (fun v => forall id', ~ account_address v id') before) /\
  (utokyo_id emailAddresses = Failed NoAccountId <->
   Forall (fun v => forall id, ~ account_address v id) emailAddresses) /\
  (forall f, utokyo_id emailAddresses = Failed f -> f = NoAccountId).
Proof.
  unfold utokyo_id. split_and!.
  - induction emailAddresses as [|v l IH]; intros id; [discriminate|].
    destruct (account_or_not v) as [[id0 Hv]|Hv].
    + rewrite (utokyoIds_take _ _ _ Hv). intros [= ->].
      destruct Hv as (-> & Hl & He). exists [], l. split_and!; try done.
    + rewrite (utokyoIds_skip _ _ Hv). intros H.
      destruct (IH id H) as (before & after & -> & Hl & He & HF).
      exists (v :: before), after. split_and!; try done. by constructor.
  - rewrite <- utokyoIds_nil. by destruct (utokyoIds emailAddresses).
  - intros f. by destruct (utokyoIds emailAddresses); intros [= <-].
Qed.

(** ** The label pattern, by hyphens *)

Module LabelFacts.
Import Regex Language LanguageFacts.

Lemma string_app_assoc a b c : (a +:+ b) +:+ c = a +:+ (b +:+ c).
Proof.
  induction a as [|x a IH]; [by rewrite !app_nil_l|].
  by rewrite !app_cons, IH.
Qed.

Lemma every_app P a b : JS.every P (a +:+ b) = JS.every P a && JS.every P b.
Proof.
  induction a as [|x a IH]; [by rewrite app_nil_l|].
  rewrite app_cons. cbn. by rewrite IH, andb_assoc.
Qed.

Lemma star_class_every p s :
  lang (Star (Class p)) s <-> JS.every p s = true.
Proof.
  split.
  - intros (l & -> & Hl). induction Hl as [|x l [_ (c & -> & Hc)] _ IH];
      [reflexivity|].
    change (concat_strings (String c EmptyString :: l))
      with (String c EmptyString +:+ concat_strings l).
    rewrite every_app, IH. cbn. by rewrite Hc.
  - induction s as [|c s IH]; cbn.
    + intros _. exists []. by split.
    + intros [Hc (l & -> & Hl)%IH]%andb_true_iff.
      exists (String c EmptyString :: l). split; [done|].
      constructor; [|done]. split; [done|]. by exists c.
Qed.

Lemma lang_word x : lang (Plus (Class alnum)) x <-> is_word x = true.
Proof.
  unfold Plus, is_word. cbn [lang]. split.
  - intros (s1 & s2 & -> & (c & -> & Hc) & Hs).
    apply (star_class_every alnum) in Hs. rewrite app_cons, app_nil_l.
    cbn. by rewrite Hc, Hs.
  - destruct x as [|c x]; [discriminate|]. cbn.
    intros [Hc Hx]%andb_true_iff.
    exists (String c EmptyString), x. split; [done|].
    split; [by exists c|]. by apply (star_class_every alnum).
Qed.

Lemma lang_tail t :
  lang (Star (Seq (Chr "-") (Plus (Class alnum)))) t <->
  exists ws, Forall (fun w => is_word w = true) ws /\ t = hyphenated ws.
Proof.
  split.
  - intros (l & -> & Hl).
    induction Hl as [|x l [_ (s1 & s2 & -> & (c & -> & Hc) & Hw)] _ IH].
    + by exists [].
    + destruct IH as (ws & Hws & Heq). apply Ascii.eqb_eq in Hc. subst c.
      exists (s2 :: ws). split; [constructor; [by apply lang_word|done]|].
      change (concat_strings ((String "-" EmptyString +:+ s2) :: l))
        with ((String "-" EmptyString +:+ s2) +:+ concat_strings l).
      change (hyphenated (s2 :: ws)) with (String "-" s2 +:+ hyphenated ws).
      by rewrite Heq, app_cons, app_nil_l.
  - intros (ws & Hws & ->). exists (map (fun w => String "-" w) ws).
    split; [done|]. induction Hws as [|w ws Hw _ IH]; [constructor|].
    constructor; [|done]. split; [done|].
    exists "-", w. split; [done|]. split; [|by apply lang_word].
    by exists "-"%char.
Qed.

Lemma word_no_hyphen w : is_word w = true -> JS.includes_char "-" w = false.
Proof.
  intros [_ H]%andb_true_iff. induction w as [|c w IH]; [reflexivity|].
  cbn in *. apply andb_true_iff in H as [Hc Hw]. rewrite (IH Hw), orb_false_r.
  revert c Hc. intros [[] [] [] [] [] [] [] []]; vm_compute; congruence.
Qed.

Lemma split_hyphenated w ws :
  is_word w = true -> Forall (fun w => is_word w = true) ws ->
  JS.split "-" (w +:+ hyphenated ws) = w :: ws.
Proof.
  intros Hw Hws. revert w Hw. induction Hws as [|w' ws Hw' _ IH]; intros w Hw.
  - unfold hyphenated. cbn. rewrite append_empty_r.
    by apply split_no_sep, word_no_hyphen.
  - unfold hyphenated. cbn [map concat_strings fold_right].
    rewrite app_cons. fold (concat_strings (map (fun w => String "-" w) ws)).
    fold (hyphenated ws).
    rewrite (split_app_sep _ _ _ (word_no_hyphen _ Hw)). by rewrite IH.
Qed.

Lemma join_hyphenated w ws :
  JS.join "-" (w :: ws) = w +:+ hyphenated ws.
Proof.
  revert w. induction ws as [|w' ws IH]; intros w.
  - unfold hyphenated. cbn. by rewrite append_empty_r.
  - change (JS.join "-" (w :: w' :: ws)) with (w +:+ "-" +:+ JS.join "-" (w' :: ws)).
    rewrite IH. unfold hyphenated. cbn [map concat_strings fold_right].
    by rewrite app_cons.
Qed.

Lemma join_split sep s :
  JS.join (String sep EmptyString) (JS.split sep s) = s.
Proof.
  induction s as [|c s IH]; [reflexivity|]. cbn [JS.split].
  destruct (split_cons_shape sep s) as (h & t & Hs). rewrite Hs in *.
  destruct (Ascii.eqb_spec c sep) as [->|_].
  - change (JS.join (String sep EmptyString) (EmptyString :: h :: t))
      with (EmptyString +:+ String sep EmptyString +:+
            JS.join (String sep EmptyString) (h :: t)).
    by rewrite IH.
  - destruct t as [|h' t]; cbn in *; [by rewrite IH|].
    by rewrite app_cons, IH.
Qed.

End LabelFacts.

(** X16. The names [createSubdomain] lets through are those that, cut at
    their hyphens, give nothing but non-empty runs of lower-case letters and
    digits: the label pattern matches a string exactly when every piece of
    [s.split('-')] is such a run.  So a name is refused when it is empty,
    starts or ends with a hyphen, has two hyphens in a row, or holds any
    other character. *)
Theorem label_pattern_by_hyphens (s : string) :
  Regex.matches Regex.LABEL s = forallb is_word (JS.split "-" s).
Proof.
  apply eq_true_iff_eq. rewrite LanguageFacts.matches_lang, forallb_forall.
  unfold Regex.LABEL. cbn [Language.lang]. split.
  - intros (w & t & -> & Hw%LabelFacts.lang_word & (ws & Hws & ->)%LabelFacts.lang_tail).
    rewrite (LabelFacts.split_hyphenated _ _ Hw Hws).
    intros x [<-|Hx]; [done|]. rewrite List.Forall_forall in Hws. by apply Hws.
  - intros H. destruct (split_cons_shape "-" s) as (w & ws & Hs).
    rewrite Hs in H.
    assert (is_word w = true) as Hw by (apply H; by left).
    assert (Forall (fun w => is_word w = true) ws) as Hws.
    { apply List.Forall_forall. intros x Hx. apply H. by right. }
    exists w, (Language.hyphenated ws). split_and!.
    + by rewrite <- LabelFacts.join_hyphenated, <- Hs, LabelFacts.join_split.
    + by apply LabelFacts.lang_word.
    + apply LabelFacts.lang_tail. by exists ws.
Qed.

(** * Cookies *)

Lemma split_by_plain s :
  JS.includes_char ";" s = false -> JS.split_by "; " s = [s].
Proof.
  unfold JS.split_by. induction s as [|c s IH]; [reflexivity|].
  cbn [JS.includes_char]. intros [Hc Hs]%orb_false_iff.
  cbn [JS.split_by_from JS.startsWith]. rewrite Ascii.eqb_sym, Hc.
  cbn [andb]. by rewrite (IH Hs).
Qed.

Lemma split_by_sep s rest :
  JS.includes_char ";" s = false ->
  JS.split_by "; " (s +:+ "; " +:+ rest) = s :: JS.split_by "; " rest.
Proof.
  unfold JS.split_by. induction s as [|c s IH].
  - intros _. rewrite app_nil_l.
    change ("; " +:+ rest) with (String ";" (String " " rest)). reflexivity.
  - cbn [JS.includes_char]. intros [Hc Hs]%orb_false_iff. rewrite app_cons.
    cbn [JS.split_by_from JS.startsWith]. rewrite Ascii.eqb_sym, Hc.
    cbn [andb]. by rewrite (IH Hs).
Qed.

Lemma includes_char_app c a b :
  JS.includes_char c (a +:+ b) = JS.includes_char c a || JS.includes_char c b.
Proof.
  induction a as [|x a IH]; [by rewrite app_nil_l|].
  rewrite app_cons. cbn. by rewrite IH, orb_assoc.
Qed.

Lemma split_by_cookie_header raws :
  raws <> [] ->
  Forall (fun raw => JS.includes_char ";" raw = false) raws ->
  JS.split_by "; " (JS.join "; " raws) = raws.
Proof.
  intros Hne HF. induction HF as [|raw raws Hraw HF IH]; [done|].
  destruct raws as [|raw' raws'].
  - cbn [JS.join]. by apply split_by_plain.
  - change (JS.join "; " (raw :: raw' :: raws'))
      with (raw +:+ "; " +:+ JS.join "; " (raw' :: raws')).
    rewrite (split_by_sep _ _ Hraw). by rewrite IH.
Qed.

Lemma split_pair k v :
  JS.includes_char "=" k = false -> JS.includes_char "=" v = false ->
  JS.split "=" (k +:+ "=" +:+ v) = [k; v].
Proof.
  intros Hk Hv. change ("=" +:+ v) with (String "=" v).
  rewrite (split_app_sep _ _ _ Hk). by rewrite (split_no_sep _ _ Hv).
Qed.

Lemma parseCookies_fold (raws : list string) (m : gmap string JS.value)
  (kvs : list (string * string)) :
  Forall (fun kv => cookie_text kv.1 /\ cookie_text kv.2) kvs ->
  fold_left
    (fun cookies rawCookie =>
       match JS.split "=" rawCookie with
       | key :: value :: _ => <[key := JS.Str value]> cookies
       | [key] => <[key := JS.Undefined]> cookies
       | [] => <["undefined" := JS.Undefined]> cookies
       end)
    (map (fun kv => kv.1 +:+ "=" +:+ kv.2) kvs) m =
  fold_left (fun cookies kv => <[kv.1 := JS.Str kv.2]> cookies) kvs m.
Proof.
  intros HF. revert m. induction HF as [|[k v] kvs [[Hk _] [Hv _]] _ IH];
    intros m; [reflexivity|].
  cbn [map fold_left fst snd] in *. rewrite (split_pair k v Hk Hv). apply IH.
Qed.

Lemma fold_insert_lookup (kvs : list (string * string)) (k : string) :
  fold_left (fun cookies kv => <[kv.1 := JS.Str kv.2]> cookies) kvs
    (∅ : gmap string JS.value) !! k =
  (fun kv : string * string => JS.Str kv.2) <$>
    last (List.filter (fun kv => String.eqb kv.1 k) kvs).
Proof.
  induction kvs as [|[k' v'] kvs IH] using rev_ind;
    [cbn [fold_left]; by rewrite lookup_empty|].
  rewrite fold_left_app, List.filter_app. cbn [fold_left List.filter fst snd].
  destruct (String.eqb_spec k' k) as [->|Hne].
  - rewrite lookup_insert_eq, last_snoc. reflexivity.
  - rewrite lookup_insert_ne, app_nil_r by done. exact IH.
Qed.

(** X17. [parseCookies] reads back what a client sends: for a non-empty
    list of cookies whose names and values hold neither ['='] nor [';'], the
    header [name=value; name=value; ...] parses to the map that sends each
    name to its value, the last one when a name occurs more than once, and
    holds no other name. *)
Theorem parseCookies_reads_header (cookies : list (string * string)) (key : string) :
  cookies <> [] ->
  Forall (fun kv => cookie_text kv.1 /\ cookie_text kv.2) cookies ->
  parseCookies (JS.Str (cookie_header cookies)) !! key =
    (fun kv : string * string => JS.Str kv.2) <$>
      last (List.filter (fun kv => String.eqb kv.1 key) cookies).
Proof.
  intros Hne HF. unfold parseCookies.
  assert (Forall (fun raw => JS.includes_char ";" raw = false)
            (map (fun kv : string * string => kv.1 +:+ "=" +:+ kv.2) cookies))
    as Hraw.
  { apply List.Forall_forall. intros raw ([k v] & <- & Hin)%in_map_iff.
    rewrite List.Forall_forall in HF. destruct (HF _ Hin) as [[_ Hk] [_ Hv]].
    cbn [fst snd] in *. rewrite !includes_char_app, Hk, Hv. reflexivity. }
  assert (cookie_header cookies <> EmptyString) as Hheader.
  { destruct cookies as [|[k v] rest]; [done|]. unfold cookie_header.
    intros H. apply (f_equal (JS.includes_char "=")) in H. revert H.
    cbn [map fst snd]. destruct (map _ rest); cbn [JS.join];
      rewrite !includes_char_app; cbn; rewrite ?orb_true_r; discriminate. }
  assert (JS.truthy (JS.Str (cookie_header cookies)) = true) as ->.
  { cbn. apply negb_true_iff. by apply String.eqb_neq. }
  cbn [negb JS.ToString]. unfold cookie_header.
  rewrite split_by_cookie_header; [|by destruct cookies|done].
  rewrite (parseCookies_fold [] _ _ HF). apply fold_insert_lookup.
Qed.

Lemma parseCookies_reads_header_witness :
  parseCookies
    (JS.Str (cookie_header
               [("utokyo_id", "0123456789"); ("utokyo_token", "aaa.bbb.ccc")]))
    !! "utokyo_token" =
    (fun kv : string * string => JS.Str kv.2) <$>
      last (List.filter (fun kv => String.eqb kv.1 "utokyo_token")
              [("utokyo_id", "0123456789"); ("utokyo_token", "aaa.bbb.ccc")]).
Proof.
  apply (parseCookies_reads_header
           [("utokyo_id", "0123456789"); ("utokyo_token", "aaa.bbb.ccc")]
           "utokyo_token").
  - discriminate.
  - repeat constructor.
Defined.

(** X18. The edges of [parseCookies].  A header that is missing or empty
    gives no cookies.  A cookie without ['='] is kept under its whole text
    with the value [undefined], which the page handler's [|| ''] reads as
    the empty string, like a cookie that is absent.  Of a cookie with more
    than one ['='] only the text between the first and the second is kept
    as its value. *)
Theorem parseCookies_edges :
  (forall header, JS.truthy header = false -> parseCookies header = ∅) /\
  (forall key,
     key <> EmptyString -> cookie_text key ->
     parseCookies (JS.Str key) = {[ key := JS.Undefined ]} /\
     cookie_or_empty (parseCookies (JS.Str key)) key = JS.Str EmptyString) /\
  (forall cookies key,
     cookies !! key = None ->
     cookie_or_empty cookies key = JS.Str EmptyString) /\
  (forall key value rest,
     cookie_text key -> cookie_text value ->
     JS.includes_char ";" rest = false ->
     parseCookies (JS.Str (key +:+ "=" +:+ value +:+ "=" +:+ rest)) =
       {[ key := JS.Str value ]}).
Proof.
  split_and!.
  - intros header H. unfold parseCookies. by rewrite H.
  - intros key Hne [Heq Hsemi].
    assert (parseCookies (JS.Str key) = {[ key := JS.Undefined ]}) as ->.
    { unfold parseCookies. cbn [JS.truthy JS.ToString].
      apply String.eqb_neq in Hne. rewrite Hne. cbn [negb].
      rewrite (split_by_plain _ Hsemi). cbn [fold_left].
      by rewrite (split_no_sep _ _ Heq). }
    split; [done|]. unfold cookie_or_empty. by rewrite lookup_singleton_eq.
  - intros cookies key H. unfold cookie_or_empty. by rewrite H.
  - intros key value rest [Hk1 Hk2] [Hv1 Hv2] Hr. unfold parseCookies.
    set (raw := key +:+ "=" +:+ value +:+ "=" +:+ rest).
    assert (JS.includes_char ";" raw = false) as Hsemi.
    { subst raw. rewrite !includes_char_app, Hk2, Hv2, Hr. reflexivity. }
    assert (raw <> EmptyString) as Hne.
    { intros H. apply (f_equal (JS.includes_char "=")) in H. subst raw.
      rewrite !includes_char_app in H. cbn in H. rewrite orb_true_r in H.
      discriminate. }
    cbn [JS.truthy JS.ToString]. apply String.eqb_neq in Hne. rewrite Hne.
    cbn [negb]. rewrite (split_by_plain _ Hsemi). cbn [fold_left]. subst raw.
    change ("=" +:+ value +:+ "=" +:+ rest)
      with (String "=" (value +:+ String "=" rest)).
    rewrite (split_app_sep _ _ _ Hk1), (split_app_sep _ _ _ Hv1).
    by destruct (JS.split "=" rest).
Qed.

(** * Users and requests *)

(** ** class User *)

Lemma first_by_id_None {A} (m : gmap string A) : first_by_id m = None <-> m = ∅.
Proof.
  unfold first_by_id. rewrite <- map_to_list_empty_iff.
  destruct (map_to_list m) as [|kv l]; [done|]. cbn.
  split; [|discriminate]. by destruct (fold_right _ _ l) as [kv'|];
    [destruct (String.leb _ _)|].
Qed.

Lemma first_by_id_Some {A} (m : gmap string A) x :
  first_by_id m = Some x -> exists i, m !! i = Some x.
Proof.
  unfold first_by_id.
  assert (forall l kv,
            fold_right
              (fun (kv : string * A) acc =>
                 match acc with
                 | Some kv' => if String.leb kv.1 kv'.1 then Some kv else Some kv'
                 | None => Some kv
                 end) None l = Some kv -> kv ∈ l) as Hin.
  { induction l as [|a l IH]; intros kv; cbn; [discriminate|].
    destruct (fold_right _ _ l) as [kv'|].
    - destruct (String.leb _ _); intros [= <-]; [by left|right; by apply IH].
    - intros [= <-]. by left. }
  destruct (fold_right _ _ _) as [[i y]|] eqn:E; [|discriminate].
  intros [= <-]. exists i. apply elem_of_map_to_list. by apply Hin.
Qed.

Lemma first_by_id_singleton {A} i (x : A) :
  first_by_id ({[ i := x ]} : gmap string A) = Some x.
Proof. unfold first_by_id. by rewrite map_to_list_singleton. Qed.

Lemma getUser_found id s u :
  getUserByUtokyoId id s = (Done u, s) ->
  exists i, users s !! i = Some u /\ Users.utokyo_id u = id.
Proof.
  unfold getUserByUtokyoId. destruct (first_by_id _) as [u'|] eqn:E; [|discriminate].
  intros [= <-]. apply first_by_id_Some in E as (i & Hi).
  apply map_lookup_filter_Some in Hi as [Hi Hid]. eauto.
Qed.

Lemma getUser_cases id s :
  (exists u, getUserByUtokyoId id s = (Done u, s)) \/
  (getUserByUtokyoId id s = (Failed NoSuchUser, s) /\
   forall i u, users s !! i = Some u -> Users.utokyo_id u <> id).
Proof.
  unfold getUserByUtokyoId. destruct (first_by_id _) as [u|] eqn:E; [eauto|].
  right. split; [done|]. apply first_by_id_None in E. intros i u Hi Hid.
  by eapply (map_filter_empty_not_lookup _ _ i u E).
Qed.

Lemma getUser_unique id s i u :
  users_unique s -> users s !! i = Some u -> Users.utokyo_id u = id ->
  getUserByUtokyoId id s = (Done u, s).
Proof.
  intros Hu Hi Hid. destruct (getUser_cases id s) as [[u' H]|[_ H]].
  - rewrite H. destruct (getUser_found _ _ _ H) as (j & Hj & Hid').
    assert (i = j) as <- by (eapply Hu; [done..|congruence]). congruence.
  - by destruct (H i u Hi).
Qed.

Lemma initializeUser_run id docId now secret s :
  initializeUserByUtokyoId id docId now secret s =
    match getUserByUtokyoId id s with
    | (Done u, _) => (Done u, s)
    | (Failed _, _) =>
        (Done (Users.mkDoc id now secret),
         mkSite (<[docId := Users.mkDoc id now secret]> (users s)) (world s))
    end.
Proof.
  unfold initializeUserByUtokyoId.
  destruct (getUser_cases id s) as [[u ->]|[-> Hno]]; [reflexivity|].
  unfold getUserByUtokyoId. cbn [users].
  rewrite map_filter_insert_True by done.
  assert (filter (fun kv : string * Users.Doc => Users.utokyo_id kv.2 = id)
            (users s) = ∅) as ->.
  { apply map_empty. intros i. apply map_lookup_filter_None.
    destruct (users s !! i) as [u|] eqn:Hi; [right|by left].
    intros u' [= <-]. by apply (Hno i). }
  rewrite insert_empty. by rewrite first_by_id_singleton.
Qed.

Lemma initializeUser_unique id docId now secret s :
  users_unique s -> users_unique (initializeUserByUtokyoId id docId now secret s).2.
Proof.
  intros Hu. rewrite initializeUser_run.
  destruct (getUser_cases id s) as [[u ->]|[-> Hno]]; [done|].
  intros i j u v. cbn [snd users]. rewrite !lookup_insert_Some.
  intros [[<- <-]|[Hi Hu']] [[<- <-]|[Hj Hv]] Hid; cbn in Hid.
  - done.
  - by destruct (Hno j v).
  - by destruct (Hno i u).
  - by eapply Hu.
Qed.

Lemma initializeUser_cases
  (id docId : string) (now : N) (secret : string) (s : Site) :
  let first := initializeUserByUtokyoId id docId now secret s in
  world first.2 = world s /\
  (users_unique s -> users_unique first.2) /\
  exists user,
    first.1 = Done user /\ Users.utokyo_id user = id /\
    getUserByUtokyoId id first.2 = (Done user, first.2) /\
    (forall u0, getUserByUtokyoId id s = (Done u0, s) -> user = u0 /\ first.2 = s) /\
    ((getUserByUtokyoId id s).1 = Failed NoSuchUser ->
     user = Users.mkDoc id now secret /\
     users first.2 = <[docId := user]> (users s)) /\
    (forall docId' now' secret',
       initializeUserByUtokyoId id docId' now' secret' first.2 =
         (Done user, first.2)).
Proof.
  intros first.
  assert (world first.2 = world s /\
          exists user, first.1 = Done user /\ Users.utokyo_id user = id /\
            getUserByUtokyoId id first.2 = (Done user, first.2) /\
            (forall u0, getUserByUtokyoId id s = (Done u0, s) ->
                        user = u0 /\ first.2 = s) /\
            ((getUserByUtokyoId id s).1 = Failed NoSuchUser ->
             user = Users.mkDoc id now secret /\
             users first.2 = <[docId := user]> (users s)))
    as (Hw & user & H1 & Hid & Hget & Hold & Hnew).
  { subst first. rewrite initializeUser_run.
    destruct (getUser_cases id s) as [[u Hu]|[Hf Hno]].
    - rewrite Hu. cbn [fst snd]. split; [done|]. exists u.
      destruct (getUser_found _ _ _ Hu) as (i & Hi & Hid').
      split_and!; try done. by intros u0 [= <-].
    - pose proof (initializeUser_run id docId now secret s) as Hrun.
      rewrite Hf in Hrun |- *. cbn [fst snd world]. split; [done|].
      exists (Users.mkDoc id now secret). split_and!; try done.
      unfold initializeUserByUtokyoId in Hrun. by rewrite Hf in Hrun. }
  split; [done|]. split; [apply initializeUser_unique|].
  exists user. split_and!; try done.
  intros docId' now' secret'. by rewrite initializeUser_run, Hget.
Qed.

(** X19. [initializeUserByUtokyoId] always ends with a user of the given
    id.  If one exists it is returned and nothing is written; otherwise one
    document is written with the id, the timestamp and the fresh secret,
    and that user is returned.  Either way a later call, whatever it draws,
    returns the same user and writes nothing, so a user's secret is set once
    and never replaced; and no id ever gets a second document. *)
Theorem initializeUser_once
  (id docId : string) (now : N) (secret : string) (s : Site) :
  let first := initializeUserByUtokyoId id docId now secret s in
  world first.2 = world s /\
  (users_unique s -> users_unique first.2) /\
  exists user,
    first.1 = Done user /\ Users.utokyo_id user = id /\
    getUserByUtokyoId id first.2 = (Done user, first.2) /\
    (forall u0, getUserByUtokyoId id s = (Done u0, s) -> user = u0 /\ first.2 = s) /\
    ((getUserByUtokyoId id s).1 = Failed NoSuchUser ->
     user = Users.mkDoc id now secret /\
     users first.2 = <[docId := user]> (users s)) /\
    (forall docId' now' secret',
       initializeUserByUtokyoId id docId' now' secret' first.2 =
         (Done user, first.2)).
Proof. apply initializeUser_cases. Qed.

Lemma deleteRecord_leaf_rrsets this w d aType ty aName :
  coherent (this, w) -> domains w !! _docRef this = Some d ->
  validateType (JS.Str aType) = Ok ty ->
  owns (subdomains d) aName = true ->
  (deleteRecord (JS.Str aType) (JS.Str aName) (this, w)).1 = Ok tt /\
  rrsets (deleteRecord (JS.Str aType) (JS.Str aName) (this, w)).2.2 =
    List.filter
      (fun r => negb (selects (qualified aName) (JS.toUpperCase ty) r))
      (rrsets w).
Proof.
  intros Hc Hd Hty Ho.
  pose proof (deleteRecord_run this w d aType ty aName Hc Hd Hty Ho) as Hrun.
  cbv zeta in Hrun. rewrite Hrun. by destruct (_ && _).
Qed.

(** ** The handlers *)

Section Handlers.

Context {Payload : Type}.
Variable jwt_sign : string -> string -> N -> N -> string.
Variable jwt_verify : string -> string -> N -> option Payload.

Local Ltac refused :=
  unfold fail; cbv beta iota; cbn [fst snd];
  split_and!;
    [done|done|done|split; [discriminate|]
    |right; eexists; split; reflexivity].

Lemma provided_Some x s : provided x = Some s -> x = Some s /\ s <> EmptyString.
Proof.
  destruct x as [s'|]; cbn; [|discriminate].
  destruct (String.eqb_spec s' EmptyString); [discriminate|]. by intros [= <-].
Qed.

Lemma verifyUserToken_run id token clock s :
  verifyUserToken Payload jwt_verify id token clock s =
    match getUserByUtokyoId id s with
    | (Done user, _) =>
        (match jwt_verify token (Users.user_secret user) clock with
         | Some payload => Done payload
         | None => Failed InvalidToken
         end, s)
    | (Failed f, _) => (Failed f, s)
    end.
Proof.
  unfold verifyUserToken, and_then.
  destruct (getUser_cases id s) as [[u ->]|[-> _]]; [|reflexivity].
  by destruct (jwt_verify _ _ _).
Qed.

(** X20. A sign-in with a code and an account address never fails: it
    redirects to ['/'] with two cookies, the ten-digit id and a token signed
    for that id with the user's stored secret and a lifetime of one day,
    creating the user if there was none and touching nothing else.
    Checking that token for that id afterwards comes down to what
    [jwt.verify] says of it under the very secret that signed it. *)
Theorem auth_issues_token
  (env : Env) (code : string) (emailAddresses : list JS.value) (id : string)
  (s : Site) :
  code <> EmptyString ->
  utokyo_id emailAddresses = Done id ->
  exists user token s',
    handle Payload jwt_sign jwt_verify env (Auth (Some code) emailAddresses) s =
      (Redirect "/" [("utokyo_id", id); ("utokyo_token", token)], s') /\
    world s' = world s /\
    getUserByUtokyoId id s' = (Done user, s') /\
    token = jwt_sign id (Users.user_secret user) 86400 (clock env) /\
    (forall u0, getUserByUtokyoId id s = (Done u0, s) -> s' = s) /\
    forall clock',
      verifyUserToken Payload jwt_verify id token clock' s' =
        (match jwt_verify token (Users.user_secret user) clock' with
         | Some payload => Done payload
         | None => Failed InvalidToken
         end, s').
Proof.
  intros Hcode%String.eqb_neq Hid. cbn [handle provided]. cbv beta.
  rewrite Hcode, Hid.
  unfold getUserTokenByUtokyoId, and_then.
  destruct (initializeUser_cases id (doc_id env) (timestamp env) (random_hex env) s)
    as (Hw & _ & user & H1 & Huid & Hget & Hold & _ & _).
  destruct (initializeUserByUtokyoId _ _ _ _ s) as [r s'] eqn:E.
  cbn [fst snd] in *. subst r. unfold done_.
  exists user, (jwt_sign id (Users.user_secret user) 86400 (clock env)), s'.
  split_and!; try done.
  - by rewrite Huid.
  - intros u0 Hu0. by destruct (Hold u0 Hu0).
  - intros clock'. by rewrite verifyUserToken_run, Hget.
Qed.

Lemma create_domain_run env user_id user_token name s :
  handle Payload jwt_sign jwt_verify env (CreateDomain user_id user_token name) s =
    match provided user_id, provided user_token with
    | Some id, Some token =>
        match getUserByUtokyoId id s with
        | (Done u, _) =>
            match jwt_verify token (Users.user_secret u) (clock env) with
            | Some _ =>
                match provided name with
                | Some n =>
                    match createSubdomain (JS.Str n) (JS.Str id) (uuid env)
                            (timestamp env) (world s) with
                    | (Ok i, w') => (Json 200 (body_id i), mkSite (users s) w')
                    | (Throw e, w') =>
                        (Json 400 (body_error (Core e)), mkSite (users s) w')
                    end
                | None => (Json 400 (body_error NameNotProvided), s)
                end
            | None => (Json 400 (body_error InvalidToken), s)
            end
        | (Failed f, _) => (Json 400 (body_error f), s)
        end
    | _, _ => (Json 400 (body_error NoTokenProvided), s)
    end.
Proof.
  cbn [handle]. unfold respond.
  destruct (provided user_id) as [id|]; [|reflexivity].
  destruct (provided user_token) as [token|]; [|reflexivity].
  unfold and_then. rewrite verifyUserToken_run.
  destruct (getUser_cases id s) as [[u ->]|[-> _]]; [|reflexivity].
  destruct (jwt_verify _ _ _); [|reflexivity].
  destruct (provided name) as [n|]; [|reflexivity].
  unfold on_world. by destruct (createSubdomain _ _ _ _ _) as [[i|e] w'].
Qed.

(** X21. [/internal/create-domain] creates a tenant only for a caller whose
    token verifies: it answers 200 with the new id exactly when user id,
    token and name are all given and not empty, a user with that id exists,
    [jwt.verify] accepts the token under that user's secret, and
    [createSubdomain] accepts the name; the new document then records the
    user id as [created_by].  In every other case it answers 400 and the
    site is unchanged.  It never touches the users or the zone. *)
Theorem create_domain_requires_token
  (env : Env) (user_id user_token name : option string) (s : Site) :
  let out :=
    handle Payload jwt_sign jwt_verify env (CreateDomain user_id user_token name) s in
  let granted :=
    exists id token n user payload,
      provided user_id = Some id /\ provided user_token = Some token /\
      provided name = Some n /\
      getUserByUtokyoId id s = (Done user, s) /\
      jwt_verify token (Users.user_secret user) (clock env) = Some payload /\
      createSubdomain (JS.Str n) (JS.Str id) (uuid env) (timestamp env) (world s) =
        (Ok (uuid env),
         mkWorld
           (<[uuid env := mkDoc (JS.Str id) (timestamp env) [JS.toLowerCase n]]>
              (domains (world s)))
           (rrsets (world s)) (changes (world s))) /\
      out.2 =
        mkSite (users s)
          (mkWorld
             (<[uuid env := mkDoc (JS.Str id) (timestamp env) [JS.toLowerCase n]]>
                (domains (world s)))
             (rrsets (world s)) (changes (world s))) in
  users out.2 = users s /\
  rrsets (world out.2) = rrsets (world s) /\
  changes (world out.2) = changes (world s) /\
  (out.1 = Json 200 (body_id (uuid env)) <-> granted) /\
  (out.1 = Json 200 (body_id (uuid env)) \/
   exists f, out.1 = Json 400 (body_error f) /\ out.2 = s).
Proof.
  intros out granted. subst out granted. rewrite create_domain_run.
  destruct (provided user_id) as [id|] eqn:Hid.
  2:{ refused. intros (? & ? & ? & ? & ? & H & ?). discriminate H. }
  destruct (provided user_token) as [token|] eqn:Htok.
  2:{ refused. intros (? & ? & ? & ? & ? & ? & H & ?). discriminate H. }
  destruct (getUser_cases id s) as [[u Hu]|[Hf _]].
  2:{ rewrite Hf. refused.
      intros (? & ? & ? & ? & ? & H1 & ? & ? & Hget & ?).
      injection H1 as <-. congruence. }
  rewrite Hu. destruct (jwt_verify token (Users.user_secret u) (clock env))
    as [payload|] eqn:Hv.
  2:{ refused.
      intros (? & ? & ? & ? & ? & H1 & H2 & ? & Hget & Hv' & ?).
      injection H1 as <-. injection H2 as <-. congruence. }
  destruct (provided name) as [n|] eqn:Hn.
  2:{ refused. intros (? & ? & ? & ? & ? & ? & ? & H & ?). discriminate H. }
  pose proof (createSubdomain_run (JS.Str n) (JS.Str id) (uuid env)
                (timestamp env) (world s)) as Hrun.
  cbn zeta in Hrun. cbn [JS.ToString] in Hrun.
  destruct (createSubdomain _ _ _ _ (world s)) as [[i|e] w'] eqn:Hc.
  - assert (i = uuid env /\
            w' = mkWorld
                   (<[uuid env := mkDoc (JS.Str id) (timestamp env)
                                     [JS.toLowerCase n]]> (domains (world s)))
                   (rrsets (world s)) (changes (world s))) as [-> ->].
    { destruct (negb _); [discriminate|]. destruct (negb _); [discriminate|].
      by injection Hrun as <- <-. }
    cbn [fst snd users world rrsets changes].
    split_and!; [done|done|done| |by left].
    split; [intros _|done]. exists id, token, n, u, payload. by split_and!.
  - assert (w' = world s) as ->.
    { destruct (negb _); [by injection Hrun|].
      destruct (negb _); [by injection Hrun|discriminate]. }
    cbn [fst snd users world].
    split_and!; [done|done|done| |].
    + split; [discriminate|].
      intros (? & ? & ? & ? & ? & H1 & ? & H3 & ? & ? & Hc' & ?).
      injection H1 as <-. injection H3 as <-. congruence.
    + right. eexists. split; [done|]. by destruct s as [us []].
Qed.

Lemma site_eta s : mkSite (users s) (world s) = s.
Proof. by destruct s. Qed.

Lemma on_instance_run {A} id (m : M St A) s :
  on_instance id m s =
    (match (m (mkSubdomain id None, world s)).1 with
     | Ok a => Done a
     | Throw e => Failed (Core e)
     end,
     mkSite (users s) (m (mkSubdomain id None, world s)).2.2).
Proof.
  unfold on_instance. by destruct (m _) as [r [this' w']].
Qed.

Lemma respond_site {A} (ok : A -> Body) (m : H A) s :
  (respond ok m s).2 = (m s).2.
Proof. unfold respond. by destruct (m s) as [[a|f] s']. Qed.

Lemma getAllRecords_world s : (getAllRecords s).2.2 = s.2.
Proof.
  unfold getAllRecords, bind. rewrite getAllSubdomains_view.
  destruct (view s) as [l|]; [|done]. by rewrite getAllRecords_loop_run.
Qed.

Lemma getBaseSubdomains_world s : (getBaseSubdomains s).2.2 = s.2.
Proof.
  unfold getBaseSubdomains, bind. rewrite getAllSubdomains_view.
  by destruct (view s).
Qed.

Lemma getRecordsByTypeFormatted_run aType aName this w :
  getRecordsByTypeFormatted (JS.Str aType) (JS.Str aName) (this, w) =
    (match validateType (JS.Str aType) with
     | Ok ty =>
         Ok (map formatRecord
               (List.filter (selects (qualified aName) (JS.toUpperCase ty))
                  (rrsets w)))
     | Throw e => Throw e
     end, (this, w)).
Proof.
  unfold getRecordsByTypeFormatted, bind.
  destruct (validateType (JS.Str aType)) as [ty|e] eqn:Hty.
  - by rewrite (getRecordsByType_run _ _ _ _ _ Hty).
  - unfold getRecordsByType, bind. by rewrite Hty.
Qed.

(** What one request can do to the site. *)
Lemma handle_effect env req s :
  let s' := (handle Payload jwt_sign jwt_verify env req s).2 in
  s' = s \/
  (exists id docId now secret,
     s' = (initializeUserByUtokyoId id docId now secret s).2) \/
  (users s' = users s /\
   ((exists aName aOwner id now,
       world s' = (createSubdomain aName aOwner id now (world s)).2) \/
    (exists id aType aName aValue,
       world s' =
         (updateRecord (JS.Str aType) (JS.Str aName) aValue
            (mkSubdomain id None, world s)).2.2) \/
    (exists id aType aName,
       world s' =
         (deleteRecord (JS.Str aType) (JS.Str aName)
            (mkSubdomain id None, world s)).2.2))).
Proof.
  destruct req as [cookie|code emails|uid tok name|id|id|id n t data|id n t|id n t];
    cbn zeta.
  - by left.
  - cbn [handle]. destruct (provided code); [|by left].
    destruct (utokyo_id emails) as [uid|f]; [|by left].
    right. left. exists uid, (doc_id env), (timestamp env), (random_hex env).
    unfold getUserTokenByUtokyoId, and_then, done_.
    by destruct (initializeUserByUtokyoId _ _ _ _ s) as [[u|f] s'].
  - rewrite create_domain_run.
    destruct (provided uid) as [i|]; [|by left].
    destruct (provided tok) as [token|]; [|by left].
    destruct (getUserByUtokyoId i s) as [[u|f] s0]; [|by left].
    destruct (jwt_verify _ _ _); [|by left].
    destruct (provided name) as [nm|]; [|by left].
    right. right. 
    destruct (createSubdomain _ _ _ _ (world s)) as [[j|e] w'] eqn:Hc;
      (split; [done|]); left;
      exists (JS.Str nm), (JS.Str i), (uuid env), (timestamp env);
      by rewrite Hc.
  - left. cbn [handle]. rewrite respond_site, on_instance_run. cbn [snd].
    by rewrite getBaseSubdomains_world, site_eta.
  - left. cbn [handle]. rewrite respond_site, on_instance_run. cbn [snd].
    by rewrite getAllRecords_world, site_eta.
  - right. right. cbn [handle]. rewrite respond_site, on_instance_run.
    cbn [snd users world]. split; [done|]. right. left. by eexists _, _, _, _.
  - right. right. cbn [handle]. rewrite respond_site, on_instance_run.
    cbn [snd users world]. split; [done|]. right. right. by eexists _, _, _.
  - left. cbn [handle]. rewrite respond_site, on_instance_run. cbn [snd].
    by rewrite getRecordsByTypeFormatted_run, site_eta.
Qed.

Lemma handle_site_ok env req s :
  site_ok s -> site_ok (handle Payload jwt_sign jwt_verify env req s).2.
Proof.
  intros [Hw Hu]. pose proof (handle_effect env req s) as H. cbn zeta in H.
  destruct H as [->|[(id & docId & now & secret & ->)|[Hus H]]]; [done| |].
  - pose proof (initializeUser_cases id docId now secret s) as (Hw' & Hu' & _).
    cbn zeta in *. split; [by rewrite Hw'|by apply Hu'].
  - split; [|unfold users_unique; by rewrite Hus].
    destruct H as [(? & ? & ? & ? & ->)|[(? & ? & ? & ? & ->)|(? & ? & ? & ->)]].
    + by apply store_ok_createSubdomain.
    + by apply store_ok_updateRecord.
    + by apply store_ok_deleteRecord.
Qed.

(** X22. However the site is used, its stores stay in order: after any run
    of requests, with anything the environment may draw and any token
    library, every tenant's tracked list is free of duplicates, in lower
    case, with a bare label, every dotted name under a bare label of the
    same tenant, no bare label is shared between tenants, and no university
    id has two user documents, provided this held before the run, as it
    does for empty stores. *)
Theorem serve_keeps_site_ok (requests : list (Env * Request)) (s : Site) :
  site_ok s -> site_ok (serve Payload jwt_sign jwt_verify requests s).
Proof.
  revert s. induction requests as [|[env req] rest IH]; intros s Hs; [done|].
  cbn [serve]. by apply IH, handle_site_ok.
Qed.

(** X23. The reading requests never write: the page, [domain-info],
    [list-records] and [get-records] leave users, documents and zone as
    they were.  [get-records] moreover looks at neither the tenant nor the
    ownership of the name: whatever the domain id, it answers with the
    formatted record sets of that name and type, or with 400 for a type
    outside the whitelist. *)
Theorem reading_requests (env : Env) (s : Site) (cookie : JS.value)
  (domain_id domain_id' name type : string) :
  (handle Payload jwt_sign jwt_verify env (Index cookie) s).2 = s /\
  (handle Payload jwt_sign jwt_verify env (DomainInfo domain_id) s).2 = s /\
  (handle Payload jwt_sign jwt_verify env (ListRecords domain_id) s).2 = s /\
  handle Payload jwt_sign jwt_verify env (GetRecords domain_id name type) s =
    (match validateType (JS.Str type) with
     | Ok ty =>
         Json 200
           (body_records
              (map formatRecord
                 (List.filter (selects (qualified name) (JS.toUpperCase ty))
                    (rrsets (world s)))))
     | Throw e => Json 400 (body_error (Core e))
     end, s) /\
  handle Payload jwt_sign jwt_verify env (GetRecords domain_id' name type) s =
    handle Payload jwt_sign jwt_verify env (GetRecords domain_id name type) s.
Proof.
  assert (forall id,
            handle Payload jwt_sign jwt_verify env (GetRecords id name type) s =
              (match validateType (JS.Str type) with
               | Ok ty =>
                   Json 200
                     (body_records
                        (map formatRecord
                           (List.filter
                              (selects (qualified name) (JS.toUpperCase ty))
                              (rrsets (world s)))))
               | Throw e => Json 400 (body_error (Core e))
               end, s)) as Hget.
  { intros id. cbn [handle]. unfold respond. rewrite on_instance_run.
    rewrite getRecordsByTypeFormatted_run. cbn [fst snd]. rewrite site_eta.
    by destruct (validateType _). }
  split_and!.
  - reflexivity.
  - cbn [handle]. rewrite respond_site, on_instance_run. cbn [snd].
    by rewrite getBaseSubdomains_world, site_eta.
  - cbn [handle]. rewrite respond_site, on_instance_run. cbn [snd].
    by rewrite getAllRecords_world, site_eta.
  - apply Hget.
  - by rewrite !Hget.
Qed.

(** X24. Through the API a record can be written, read and deleted by
    anyone who names the tenant: for a tenant that owns the lower-case name
    and a whitelisted type, [update-records] answers 200, [get-records]
    then returns exactly the record written, [delete-records] answers 200,
    and [get-records] then returns nothing.  No request of the three asks
    for a user or a token. *)
Theorem api_write_read_delete
  (env : Env) (s : Site) (d : Doc) (domain_id name type ty : string)
  (data : option string) :
  domains (world s) !! domain_id = Some d ->
  validateType (JS.Str type) = Ok ty ->
  JS.toLowerCase name = name ->
  owns (subdomains d) name = true ->
  let f :=
    mkFormatted name (JS.join JS.NL (lines (JS.ToString (JS.or_empty (query data)))))
      (JS.toUpperCase ty) in
  let written :=
    handle Payload jwt_sign jwt_verify env
      (UpdateRecords domain_id name type data) s in
  let deleted :=
    handle Payload jwt_sign jwt_verify env
      (DeleteRecords domain_id name type) written.2 in
  written.1 = Json 200 body_success /\
  (handle Payload jwt_sign jwt_verify env (GetRecords domain_id name type)
     written.2).1 = Json 200 (body_records [f]) /\
  deleted.1 = Json 200 body_success /\
  (handle Payload jwt_sign jwt_verify env (GetRecords domain_id name type)
     deleted.2).1 = Json 200 (body_records []).
Proof.
  intros Hd Hty Hlow Ho f written deleted.
  set (this := mkSubdomain domain_id None).
  destruct (updateRecord_read_back this (world s) d type ty name (query data)
              I Hd Hty Hlow Ho) as (Hu1 & Hu2 & _).
  fold f in Hu2.
  destruct (updateRecord_run this (world s) d type ty name I Hd Hty Ho
              (query data) _ (createRecord_run _ _ _ _ Hty))
    as (this' & d' & Heq & Hid & _ & _ & Hsub).
  cbv zeta in Heq.
  assert (written.1 = Json 200 body_success /\
          world written.2 =
            (updateRecord (JS.Str type) (JS.Str name) (query data)
               (this, world s)).2.2) as [Hw1 Hw2].
  { subst written. cbn [handle]. unfold respond. rewrite on_instance_run.
    fold this. by rewrite Hu1. }
  assert (forall s0,
            (handle Payload jwt_sign jwt_verify env
               (GetRecords domain_id name type) s0).1 =
            Json 200
              (body_records
                 (map formatRecord
                    (List.filter (selects (qualified name) (JS.toUpperCase ty))
                       (rrsets (world s0)))))) as Hget.
  { intros s0. cbn [handle]. unfold respond. rewrite on_instance_run.
    rewrite getRecordsByTypeFormatted_run, Hty. reflexivity. }
  assert (domains (world written.2) !! domain_id = Some d' /\
          owns (subdomains d') name = true) as [Hd' Ho'].
  { rewrite Hw2, Heq. cbn [snd domains _docRef this]. rewrite lookup_insert_eq.
    split; [done|]. apply owns_spec. apply owns_spec in Ho as (b & Hb & Hin).
    exists b. split; [done|]. apply Hsub. by left. }
  pose proof (deleteRecord_leaf_rrsets this (world written.2) d' type ty name
                I Hd' Hty Ho') as [Hdel1 Hdel2].
  split_and!.
  - exact Hw1.
  - rewrite Hget, Hw2. rewrite Heq in Hu2 |- *.
    cbn [snd] in Hu2. rewrite getRecordsByTypeFormatted_run, Hty in Hu2.
    injection Hu2 as Hu2. do 2 f_equal. exact Hu2.
  - subst deleted. cbn [handle]. unfold respond. rewrite on_instance_run.
    fold this. by rewrite Hdel1.
  - rewrite Hget. subst deleted. cbn [handle]. rewrite respond_site.
    rewrite on_instance_run. fold this. cbn [snd world].
    by rewrite Hdel2, filter_selects_rest.
Qed.

End Handlers.

Lemma auth_issues_token_witness :
  exists user token s',
    handle unit demo_sign demo_verify demo_env
      (Auth (Some "4/0Ab") [JS.Str "me@example.org";
                            JS.Str "0123456789@g.ecc.u-tokyo.ac.jp"])
      empty_site =
      (Redirect "/" [("utokyo_id", "0123456789"); ("utokyo_token", token)], s') /\
    world s' = world empty_site /\
    getUserByUtokyoId "0123456789" s' = (Done user, s') /\
    token = demo_sign "0123456789" (Users.user_secret user) 86400 (clock demo_env) /\
    (forall u0, getUserByUtokyoId "0123456789" empty_site = (Done u0, empty_site) ->
                s' = empty_site) /\
    forall clock',
      verifyUserToken unit demo_verify "0123456789" token clock' s' =
        (match demo_verify token (Users.user_secret user) clock' with
         | Some payload => Done payload
         | None => Failed InvalidToken
         end, s').
Proof.
  apply (auth_issues_token demo_sign demo_verify demo_env "4/0Ab"
           [JS.Str "me@example.org"; JS.Str "0123456789@g.ecc.u-tokyo.ac.jp"]
           "0123456789" empty_site).
  - discriminate.
  - vm_compute. reflexivity.
Defined.

Lemma serve_keeps_site_ok_witness :
  site_ok
    (serve unit demo_sign demo_verify
       [(demo_env, Auth (Some "4/0Ab") [JS.Str "0123456789@g.ecc.u-tokyo.ac.jp"]);
        (demo_env, CreateDomain (Some "0123456789") (Some "5ec2e7") (Some "Base"));
        (demo_env, UpdateRecords "id-1" "www.base" "a" (Some "1.2.3.4"))]
       empty_site).
Proof.
  apply (serve_keeps_site_ok demo_sign demo_verify).
  split; [split_and!|]; unfold tenants_ok, bases_unique, users_unique; cbn.
  - apply map_Forall_empty.
  - intros ? ? ? ? ? H. by rewrite lookup_empty in H.
  - apply map_Forall_empty.
  - intros ? ? ? ? H. by rewrite lookup_empty in H.
Defined.

Lemma api_write_read_delete_witness :
  let f :=
    mkFormatted "www.base"
      (JS.join JS.NL (lines (JS.ToString (JS.or_empty (query (Some "1.2.3.4"))))))
      (JS.toUpperCase "a") in
  let written :=
    handle unit demo_sign demo_verify demo_env
      (UpdateRecords "tenant-1" "www.base" "A" (Some "1.2.3.4"))
      (mkSite ∅ demo_world) in
  let deleted :=
    handle unit demo_sign demo_verify demo_env
      (DeleteRecords "tenant-1" "www.base" "A") written.2 in
  written.1 = Json 200 body_success /\
  (handle unit demo_sign demo_verify demo_env (GetRecords "tenant-1" "www.base" "A")
     written.2).1 = Json 200 (body_records [f]) /\
  deleted.1 = Json 200 body_success /\
  (handle unit demo_sign demo_verify demo_env (GetRecords "tenant-1" "www.base" "A")
     deleted.2).1 = Json 200 (body_records []).
Proof.
  apply (api_write_read_delete demo_sign demo_verify demo_env
           (mkSite ∅ demo_world) demo_doc "tenant-1" "www.base" "A" "a"
           (Some "1.2.3.4")); reflexivity.
Defined.
